(** * RGeo GEOS bridge: factory and utility functions (ext/geos_c_impl/factory.c)

    A shallow embedding of the C functions of [factory.c] over an explicit
    model of the three stores the code touches: the Ruby object heap, the C
    heap holding the [RGeo_*Data] structs, and the state of the GEOS engine
    (contexts, reader and writer handles, geometries).  Functions that have
    effects live in a small state-and-failure monad [M]; the pure coordinate
    comparison is a plain function of the engine state. *)

From Stdlib Require Import ZArith NArith List String Lia SpecFloat.
From stdpp Require Import base option gmap sets list strings.

Local Open Scope Z_scope.

(** ** C and Ruby values *)

(** A C pointer: [None] is the null pointer, [Some a] an address. *)
Definition pointer : Type := option positive.
Abbreviation NULL := (@None positive).

(** A C [double].  [==] on doubles is IEEE 754 equality: a NaN differs from
    everything, the two zeros are equal. *)
Definition double : Type := spec_float.
Definition double_eq (a b : double) : bool := SFeqb a b.

#[global] Instance double_eq_dec : EqDecision double.
Proof. solve_decision. Defined.

(** [(long)f]: the integer part of a double, where it has one. *)
Definition double_truncate (f : double) : option Z :=
  match f with
  | S754_zero _ => Some 0
  | S754_finite s m e =>
    let magnitude := Z.shiftl (Z.pos m) e in
    Some (if s then - magnitude else magnitude)
  | S754_infinity _ | S754_nan => None
  end.

(** The tags returned by Ruby's [TYPE] that the code can meet. *)
Inductive ruby_type :=
  | T_NIL | T_TRUE | T_FALSE | T_FIXNUM | T_FLOAT | T_SYMBOL
  | T_CLASS | T_MODULE | T_ARRAY | T_STRING | T_DATA | T_OBJECT.

#[global] Instance ruby_type_eq_dec : EqDecision ruby_type.
Proof. solve_decision. Defined.

(** A Ruby [VALUE]: an immediate, or a reference into the object heap.
    [BuiltinClass t] stands for the class of the immediates of tag [t]. *)
Inductive VALUE :=
  | Qnil | Qtrue | Qfalse
  | Integer (z : Z)
  | Flonum (f : double)
  | Symbol (s : string)
  | BuiltinClass (t : ruby_type)
  | Object (a : positive).

#[global] Instance VALUE_eq_dec : EqDecision VALUE.
Proof. solve_decision. Defined.

Definition NIL_P (v : VALUE) : bool :=
  match v with Qnil => true | _ => false end.

(** C function pointers stored in a [T_DATA] object. *)
Inductive funcptr :=
  | FP_NULL
  | FP_destroy_factory_func
  | FP_destroy_geometry_func | FP_mark_geometry_func
  | FP_destroy_globals_func | FP_mark_globals_func.

#[global] Instance funcptr_eq_dec : EqDecision funcptr.
Proof. solve_decision. Defined.

(** The body of a heap object; every heap object also has a class
    ([RBasic.klass]). *)
Inductive rbody :=
  | BClass (consts : gmap string VALUE)
  | BModule
  | BArray (elems : list VALUE)
  | BString (bytes : string)
  | BData (dmark dfree : funcptr) (data : pointer)
  | BObject.

Record robject := { basic_klass : VALUE; body : rbody }.

(** ** The structs of factory.h *)

(** Modelled from the spec: [RGeo_Globals] is declared in factory.h, which is
    not among the sources; the fields are the ones factory.c reads and
    writes, the Process Registry of the specification. *)
Record RGeo_Globals := {
  feature_module : VALUE;
  geos_module : VALUE;
  geos_geometry : VALUE;
  geos_point : VALUE;
  geos_line_string : VALUE;
  geos_linear_ring : VALUE;
  geos_polygon : VALUE;
  geos_geometry_collection : VALUE;
  geos_multi_point : VALUE;
  geos_multi_line_string : VALUE;
  geos_multi_polygon : VALUE
}.

(** Modelled from the spec: [RGeo_FactoryData] is declared in factory.h; the
    fields are the ones factory.c assigns in [cmethod_factory_create].  The
    three integers are C [int]s.  [f_geos_context] is the field
    [geos_context], which [RGeo_GeometryData] has under the same name. *)
Record RGeo_FactoryData := {
  globals : pointer;
  f_geos_context : pointer;
  flags : Z;
  srid : Z;
  buffer_resolution : Z;
  wkt_reader : pointer;
  wkb_reader : pointer;
  wkt_writer : pointer;
  wkb_writer : pointer
}.

(** Modelled from the spec: [RGeo_GeometryData] is declared in factory.h; the
    fields are the four that [rgeo_wrap_geos_geometry] assigns. *)
Record RGeo_GeometryData := {
  geom : pointer;
  geos_context : pointer;
  factory : VALUE;
  klasses : VALUE
}.

(** A block of the C heap. [CRaw] is storage fresh from [ALLOC]. *)
Inductive cblock :=
  | CRaw
  | CFactoryData (d : RGeo_FactoryData)
  | CGeometryData (d : RGeo_GeometryData)
  | CGlobals (g : RGeo_Globals).

(** ** The GEOS engine *)

(** A coordinate sequence as the C API shows it: a size and three
    coordinates per index, each read of which may fail (the API then
    returns 0). *)
Record coord_seq := {
  cs_size : option N;
  cs_x : N → option double;
  cs_y : N → option double;
  cs_z : N → option double
}.

Record geometry := {
  g_type : Z;
  g_srid : Z;
  g_coord_seq : option coord_seq
}.

Inductive helper_kind := WKTReader | WKBReader | WKTWriter | WKBWriter.

#[global] Instance helper_kind_eq_dec : EqDecision helper_kind.
Proof. solve_decision. Defined.

(** What is alive in the engine: contexts, the reader and writer handles
    with their kind, and the geometries. *)
Record geos_state := {
  contexts : gset positive;
  helpers : gmap positive helper_kind;
  geoms : gmap positive geometry
}.

Definition context_live (e : geos_state) (c : pointer) : bool :=
  match c with
  | Some a => bool_decide (a ∈ contexts e)
  | None => false
  end.

(** [enum GEOSGeomTypes] of geos_c.h. *)
Definition GEOS_POINT : Z := 0.
Definition GEOS_LINESTRING : Z := 1.
Definition GEOS_LINEARRING : Z := 2.
Definition GEOS_POLYGON : Z := 3.
Definition GEOS_MULTIPOINT : Z := 4.
Definition GEOS_MULTILINESTRING : Z := 5.
Definition GEOS_MULTIPOLYGON : Z := 6.
Definition GEOS_GEOMETRYCOLLECTION : Z := 7.

(** *** Read-only engine calls

    Every [_r] entry point of the C API gives up, returning 0, when its
    context handle is null or not initialised. *)

Definition GEOSGeom_getCoordSeq_r (e : geos_state) (context : pointer)
    (g : positive) : option coord_seq :=
  if context_live e context
  then match geoms e !! g with
       | Some gm => g_coord_seq gm
       | None => None
       end
  else None.

Definition GEOSCoordSeq_getSize_r (e : geos_state) (context : pointer)
    (cs : coord_seq) : option N :=
  if context_live e context then cs_size cs else None.

Definition GEOSCoordSeq_getX_r (e : geos_state) (context : pointer)
    (cs : coord_seq) (i : N) : option double :=
  if context_live e context then cs_x cs i else None.

Definition GEOSCoordSeq_getY_r (e : geos_state) (context : pointer)
    (cs : coord_seq) (i : N) : option double :=
  if context_live e context then cs_y cs i else None.

Definition GEOSCoordSeq_getZ_r (e : geos_state) (context : pointer)
    (cs : coord_seq) (i : N) : option double :=
  if context_live e context then cs_z cs i else None.

(** ** Deep coordinate equality *)

(** The [for] loop of [rgeo_geos_coordseqs_eql], entered with
    [result = Qtrue]: [remaining] iterations are left, the next one at
    index [i].  Every [break] leaves with the result it has just set. *)
Fixpoint coords_loop (e : geos_state) (context : pointer)
    (cs1 cs2 : coord_seq) (check_z : bool) (remaining : nat) (i : N) : VALUE :=
  match remaining with
  | O => Qtrue
  | S remaining' =>
    let next := coords_loop e context cs1 cs2 check_z remaining' (N.succ i) in
    match GEOSCoordSeq_getX_r e context cs1 i,
          GEOSCoordSeq_getX_r e context cs2 i with
    | Some val1, Some val2 =>
      if double_eq val1 val2 then
        match GEOSCoordSeq_getY_r e context cs1 i,
              GEOSCoordSeq_getY_r e context cs2 i with
        | Some val1, Some val2 =>
          if double_eq val1 val2 then
            if check_z then
              match GEOSCoordSeq_getZ_r e context cs1 i with
              | None => Qnil
              | Some val1 =>
                match GEOSCoordSeq_getZ_r e context cs2 i with
                | None => Qnil
                | Some val2 =>
                  if negb (double_eq val1 val2) then Qfalse else next
                end
              end
            else next
          else Qfalse
        | _, _ => Qnil
        end
      else Qfalse
    | _, _ => Qnil
    end
  end.

Definition rgeo_geos_coordseqs_eql (e : geos_state) (context : pointer)
    (geom1 geom2 : pointer) (check_z : bool) : VALUE :=
  match geom1, geom2 with
  | Some g1, Some g2 =>
    match GEOSGeom_getCoordSeq_r e context g1,
          GEOSGeom_getCoordSeq_r e context g2 with
    | Some cs1, Some cs2 =>
      match GEOSCoordSeq_getSize_r e context cs1,
            GEOSCoordSeq_getSize_r e context cs2 with
      | Some len1, Some len2 =>
        if (len1 =? len2)%N
        then coords_loop e context cs1 cs2 check_z (N.to_nat len1) 0%N
        else Qfalse
      | _, _ => Qnil
      end
    | _, _ => Qnil
    end
  | _, _ => Qnil
  end.

(** *** The comparison as the specification words it *)

Inductive axis := AxisX | AxisY | AxisZ.

Definition read_axis (e : geos_state) (context : pointer) (cs : coord_seq)
    (c : N * axis) : option double :=
  match c.2 with
  | AxisX => GEOSCoordSeq_getX_r e context cs c.1
  | AxisY => GEOSCoordSeq_getY_r e context cs c.1
  | AxisZ => GEOSCoordSeq_getZ_r e context cs c.1
  end.

(** The components in the order they are compared: index by index, X then
    Y then, under [check_z], Z. *)
Definition axes (check_z : bool) : list axis :=
  if check_z then [AxisX; AxisY; AxisZ] else [AxisX; AxisY].

Definition components (check_z : bool) (first : N) (count : nat)
    : list (N * axis) :=
  flat_map (λ k, map (pair (first + N.of_nat k)%N) (axes check_z))
           (seq 0 count).

Inductive verdict := Same | Differ | Unreadable.

Definition compare_component (e : geos_state) (context : pointer)
    (cs1 cs2 : coord_seq) (c : N * axis) : verdict :=
  match read_axis e context cs1 c, read_axis e context cs2 c with
  | Some a, Some b => if double_eq a b then Same else Differ
  | _, _ => Unreadable
  end.

(** The first component that is not equal on both sides decides. *)
Fixpoint first_verdict (l : list verdict) : VALUE :=
  match l with
  | [] => Qtrue
  | Same :: l' => first_verdict l'
  | Differ :: _ => Qfalse
  | Unreadable :: _ => Qnil
  end.

Definition coordinatesEqual (e : geos_state) (context : pointer)
    (handleA handleB : pointer) (checkZ : bool) : VALUE :=
  match handleA, handleB with
  | Some a, Some b =>
    match GEOSGeom_getCoordSeq_r e context a,
          GEOSGeom_getCoordSeq_r e context b with
    | Some csA, Some csB =>
      match GEOSCoordSeq_getSize_r e context csA,
            GEOSCoordSeq_getSize_r e context csB with
      | Some lenA, Some lenB =>
        if (lenA =? lenB)%N
        then first_verdict
               (map (compare_component e context csA csB)
                    (components checkZ 0 (N.to_nat lenA)))
        else Qfalse
      | _, _ => Qnil
      end
    | _, _ => Qnil
    end
  | _, _ => Qnil
  end.

(** ** The world: Ruby heap, C heap, engine, and what is still to happen *)

(** Calls into the engine and to [free], in the order they are made, with
    the pointers they were given. *)
Inductive event :=
  | E_initGEOS (context : pointer)
  | E_finishGEOS (context : pointer)
  | E_WKTReader_create (context reader : pointer)
  | E_WKBReader_create (context reader : pointer)
  | E_WKTReader_destroy (context reader : pointer)
  | E_WKBReader_destroy (context reader : pointer)
  | E_WKTWriter_destroy (context writer : pointer)
  | E_WKBWriter_destroy (context writer : pointer)
  | E_WKTReader_read (context reader : pointer) (text : string) (g : pointer)
  | E_WKBReader_read (context reader : pointer) (bytes : string) (g : pointer)
  | E_GeomTypeId (context g : pointer)
  | E_SetSRID (context g : pointer) (srid : Z)
  | E_free (p : pointer).

(** [fates] lists how the coming fallible allocations ([ALLOC],
    [initGEOS_r], the reader constructors) end, [false] for a failure; once
    the list is used up they succeed. *)
Record world := {
  objs : gmap positive robject;
  cmem : gmap positive cblock;
  geos : geos_state;
  fates : list bool;
  trace : list event
}.

Definition set_objs (f : gmap positive robject → gmap positive robject)
    (w : world) : world :=
  {| objs := f (objs w); cmem := cmem w; geos := geos w;
     fates := fates w; trace := trace w |}.

Definition set_cmem (f : gmap positive cblock → gmap positive cblock)
    (w : world) : world :=
  {| objs := objs w; cmem := f (cmem w); geos := geos w;
     fates := fates w; trace := trace w |}.

Definition set_geos (f : geos_state → geos_state) (w : world) : world :=
  {| objs := objs w; cmem := cmem w; geos := f (geos w);
     fates := fates w; trace := trace w |}.

Definition set_fates (l : list bool) (w : world) : world :=
  {| objs := objs w; cmem := cmem w; geos := geos w;
     fates := l; trace := trace w |}.

Definition log (ev : event) (w : world) : world :=
  {| objs := objs w; cmem := cmem w; geos := geos w;
     fates := fates w; trace := trace w ++ [ev] |}.

Definition set_contexts (f : gset positive → gset positive)
    (e : geos_state) : geos_state :=
  {| contexts := f (contexts e); helpers := helpers e; geoms := geoms e |}.

Definition set_helpers
    (f : gmap positive helper_kind → gmap positive helper_kind)
    (e : geos_state) : geos_state :=
  {| contexts := contexts e; helpers := f (helpers e); geoms := geoms e |}.

Definition set_geoms (f : gmap positive geometry → gmap positive geometry)
    (e : geos_state) : geos_state :=
  {| contexts := contexts e; helpers := helpers e; geoms := f (geoms e) |}.

(** ** The monad of the effectful functions

    A call ends normally, with a Ruby exception (a non-local exit that
    keeps the world as it was left), or in undefined behaviour of C. *)
Inductive outcome (A : Type) :=
  | Ok (a : A) (w : world)
  | Raise (exc : string) (w : world)
  | Fault.
Arguments Ok {A} a w.
Arguments Raise {A} exc w.
Arguments Fault {A}.

Definition M (A : Type) : Type := world → outcome A.

Definition ret {A} (a : A) : M A := λ w, Ok a w.

Definition bind {A B} (m : M A) (k : A → M B) : M B :=
  λ w, match m w with
       | Ok a w' => k a w'
       | Raise exc w' => Raise exc w'
       | Fault => Fault
       end.

Definition fault {A} : M A := λ _, Fault.
Definition rb_raise {A} (exc : string) : M A := λ w, Raise exc w.
Definition emit (ev : event) : M unit := λ w, Ok tt (log ev w).

Notation "'let*' x ':=' m 'in' k" := (bind m (λ x, k))
  (at level 10, x binder, m at level 100, k at level 200).
Notation "m ';;;' k" := (bind m (λ _, k))
  (at level 100, k at level 200, right associativity).

Definition non_null (p : pointer) : bool :=
  match p with Some _ => true | None => false end.

(** Whether the next fallible allocation succeeds. *)
Definition next_fate (w : world) : bool :=
  match fates w with false :: _ => false | _ => true end.

(** ** C library and Ruby runtime *)

(** [ALLOC(type)] is [ruby_xmalloc]: new storage, or [NoMemoryError] when
    there is none.  It never returns null, so the null tests that factory.c
    makes on its result always take the non-null branch. *)
Definition ALLOC : M pointer := λ w,
  let w' := set_fates (tail (fates w)) w in
  if next_fate w
  then let a := fresh (dom (cmem w)) in
       Ok (Some a) (set_cmem <[a := CRaw]> w')
  else Raise "NoMemoryError" w'.

(** [free(p)]: nothing for the null pointer, undefined for storage that is
    not allocated. *)
Definition free (p : pointer) : M unit :=
  emit (E_free p);;;
  λ w, match p with
       | None => Ok tt w
       | Some a =>
         match cmem w !! a with
         | Some _ => Ok tt (set_cmem (delete a) w)
         | None => Fault
         end
       end.

(** Reading and writing a struct through a pointer. *)
Definition load (p : pointer) : M cblock := λ w,
  match p with
  | Some a => match cmem w !! a with Some b => Ok b w | None => Fault end
  | None => Fault
  end.

Definition store (p : pointer) (b : cblock) : M unit := λ w,
  match p with
  | Some a =>
    match cmem w !! a with
    | Some _ => Ok tt (set_cmem <[a := b]> w)
    | None => Fault
    end
  | None => Fault
  end.

Definition load_factory (p : pointer) : M RGeo_FactoryData :=
  let* b := load p in
  match b with CFactoryData d => ret d | _ => fault end.

Definition load_geometry (p : pointer) : M RGeo_GeometryData :=
  let* b := load p in
  match b with CGeometryData d => ret d | _ => fault end.

Definition load_globals (p : pointer) : M RGeo_Globals :=
  let* b := load p in
  match b with CGlobals g => ret g | _ => fault end.

Definition type_of_body (b : rbody) : ruby_type :=
  match b with
  | BClass _ => T_CLASS
  | BModule => T_MODULE
  | BArray _ => T_ARRAY
  | BString _ => T_STRING
  | BData _ _ _ => T_DATA
  | BObject => T_OBJECT
  end.

(** [TYPE(v)]. *)
Definition TYPE (v : VALUE) : M ruby_type := λ w,
  match v with
  | Qnil => Ok T_NIL w
  | Qtrue => Ok T_TRUE w
  | Qfalse => Ok T_FALSE w
  | Integer _ => Ok T_FIXNUM w
  | Flonum _ => Ok T_FLOAT w
  | Symbol _ => Ok T_SYMBOL w
  | BuiltinClass _ => Ok T_CLASS w
  | Object a =>
    match objs w !! a with
    | Some o => Ok (type_of_body (body o)) w
    | None => Fault
    end
  end.

(** [Check_Type(v, t)] raises [TypeError] on any other type. *)
Definition Check_Type (v : VALUE) (t : ruby_type) : M unit :=
  let* ty := TYPE v in
  if decide (ty = t) then ret tt else rb_raise "TypeError".

(** [CLASS_OF(v)]. *)
Definition CLASS_OF (v : VALUE) : M VALUE := λ w,
  match v with
  | Qnil => Ok (BuiltinClass T_NIL) w
  | Qtrue => Ok (BuiltinClass T_TRUE) w
  | Qfalse => Ok (BuiltinClass T_FALSE) w
  | Integer _ => Ok (BuiltinClass T_FIXNUM) w
  | Flonum _ => Ok (BuiltinClass T_FLOAT) w
  | Symbol _ => Ok (BuiltinClass T_SYMBOL) w
  | BuiltinClass _ => Ok (BuiltinClass T_CLASS) w
  | Object a =>
    match objs w !! a with
    | Some o => Ok (basic_klass o) w
    | None => Fault
    end
  end.

(** [DATA_PTR(v)], an unchecked read of [RDATA(v)->data]. *)
Definition DATA_PTR (v : VALUE) : M pointer := λ w,
  match v with
  | Object a =>
    match objs w !! a with
    | Some {| body := BData _ _ p |} => Ok p w
    | _ => Fault
    end
  | _ => Fault
  end.

(** [Data_Wrap_Struct(klass, mark, free, data)]: a new [T_DATA] object.
    The runtime's check that [klass] is a class is left out: factory.c
    passes the receiver of [_create], a hint whose [TYPE] is [T_CLASS], or
    an entry of the registry. *)
Definition Data_Wrap_Struct (klass : VALUE) (dmark dfree : funcptr)
    (data : pointer) : M VALUE := λ w,
  let a := fresh (dom (objs w)) in
  Ok (Object a)
     (set_objs <[a := {| basic_klass := klass;
                         body := BData dmark dfree data |}]> w).

(** [rb_const_get_at(klass, rb_intern(name))]. *)
Definition rb_const_get_at (klass : VALUE) (name : string) : M VALUE := λ w,
  match klass with
  | Object a =>
    match objs w !! a with
    | Some {| body := BClass consts |} =>
      match consts !! name with
      | Some v => Ok v w
      | None => Raise "NameError" w
      end
    | Some _ => Raise "TypeError" w
    | None => Fault
    end
  | _ => Raise "TypeError" w
  end.

Definition INT_MIN : Z := - 2 ^ 31.
Definition INT_MAX : Z := 2 ^ 31 - 1.

(** The range check that ends [NUM2INT]. *)
Definition check_int (z : Z) : M Z :=
  if decide (INT_MIN ≤ z ≤ INT_MAX) then ret z else rb_raise "RangeError".

Section Conversion.

(** [rb_to_integer(v, "to_int")], the implicit conversion of the runtime:
    it sends [to_int] to [v], running code this file does not contain, and
    raises [TypeError] for a value that has no such method or whose method
    does not answer with an integer. *)
Variable rb_to_integer : VALUE → M VALUE.

(** [NUM2INT(v)], that is [rb_num2int]: an integer is range-checked, nil
    is a [TypeError], a float is cut to its integer part ([RangeError] for
    an infinity or a NaN) and range-checked, and every other value goes
    through the implicit conversion first. *)
Definition NUM2INT (v : VALUE) : M Z :=
  match v with
  | Integer z => check_int z
  | Qnil => rb_raise "TypeError"
  | Flonum f =>
    match double_truncate f with
    | Some z => check_int z
    | None => rb_raise "RangeError"
    end
  | _ =>
    let* i := rb_to_integer v in
    match i with
    | Integer z => check_int z
    | _ => rb_raise "TypeError"
    end
  end.

End Conversion.

Definition INT2NUM (z : Z) : VALUE := Integer z.

(** The bytes of a Ruby string, and what a C reader of [RSTRING_PTR] sees
    of them: everything before the first zero byte. *)
Definition RSTRING (v : VALUE) : M string := λ w,
  match v with
  | Object a =>
    match objs w !! a with
    | Some {| body := BString s |} => Ok s w
    | _ => Fault
    end
  | _ => Fault
  end.

Fixpoint c_str (s : string) : string :=
  match s with
  | EmptyString => EmptyString
  | String c s' =>
    if decide (c = Ascii.zero) then EmptyString else String c (c_str s')
  end.

(** ** Engine calls with effects

    A null context makes the call give up; a context, reader, writer or
    geometry pointer that is not null and not alive is undefined
    behaviour, and so is a null geometry or reader where the engine
    dereferences it.  Deleting a null reader or writer does nothing. *)

Definition with_context {A} (context : pointer) (gave_up : A)
    (k : positive → M A) : M A := λ w,
  match context with
  | None => Ok gave_up w
  | Some c => if decide (c ∈ contexts (geos w)) then k c w else Fault
  end.

Definition initGEOS_r : M pointer := λ w,
  let w' := set_fates (tail (fates w)) w in
  if next_fate w
  then let c := fresh (contexts (geos w)) in
       Ok (Some c)
          (log (E_initGEOS (Some c))
               (set_geos (set_contexts (union {[c]})) w'))
  else Ok NULL (log (E_initGEOS NULL) w').

Definition finishGEOS_r (context : pointer) : M unit :=
  emit (E_finishGEOS context);;;
  with_context context tt
    (λ c w, Ok tt (set_geos (set_contexts (λ s, s ∖ {[c]})) w)).

Definition create_helper (kind : helper_kind) (context : pointer)
    (ev : pointer → event) : M pointer :=
  with_context context NULL (λ _ w,
    let w' := set_fates (tail (fates w)) w in
    if next_fate w
    then let h := fresh (dom (helpers (geos w))) in
         Ok (Some h)
            (log (ev (Some h)) (set_geos (set_helpers <[h := kind]>) w'))
    else Ok NULL (log (ev NULL) w')).

Definition destroy_helper (kind : helper_kind) (context handle : pointer)
    : M unit :=
  with_context context tt (λ _ w,
    match handle with
    | None => Ok tt w
    | Some h =>
      if decide (helpers (geos w) !! h = Some kind)
      then Ok tt (set_geos (set_helpers (delete h)) w)
      else Fault
    end).

Definition GEOSWKTReader_create_r (context : pointer) : M pointer :=
  create_helper WKTReader context (E_WKTReader_create context).

Definition GEOSWKBReader_create_r (context : pointer) : M pointer :=
  create_helper WKBReader context (E_WKBReader_create context).

Definition GEOSWKTReader_destroy_r (context reader : pointer) : M unit :=
  emit (E_WKTReader_destroy context reader);;;
  destroy_helper WKTReader context reader.

Definition GEOSWKBReader_destroy_r (context reader : pointer) : M unit :=
  emit (E_WKBReader_destroy context reader);;;
  destroy_helper WKBReader context reader.

Definition GEOSWKTWriter_destroy_r (context writer : pointer) : M unit :=
  emit (E_WKTWriter_destroy context writer);;;
  destroy_helper WKTWriter context writer.

Definition GEOSWKBWriter_destroy_r (context writer : pointer) : M unit :=
  emit (E_WKBWriter_destroy context writer);;;
  destroy_helper WKBWriter context writer.

(** Reading with a reader: the grammar decides whether the input denotes
    a geometry; a geometry read gets a handle of its own. *)
Definition read_with (kind : helper_kind) (grammar : string → option geometry)
    (context reader : pointer) (input : string)
    (ev : pointer → event) : M pointer :=
  with_context context NULL (λ _ w,
    match reader with
    | None => Fault
    | Some r =>
      if decide (helpers (geos w) !! r = Some kind)
      then match grammar input with
           | None => Ok NULL (log (ev NULL) w)
           | Some gm =>
             let g := fresh (dom (geoms (geos w))) in
             Ok (Some g)
                (log (ev (Some g)) (set_geos (set_geoms <[g := gm]>) w))
           end
      else Fault
    end).

Definition GEOSGeomTypeId_r (context g : pointer) : M Z :=
  emit (E_GeomTypeId context g);;;
  with_context context (-1) (λ _ w,
    match g with
    | None => Fault
    | Some h =>
      match geoms (geos w) !! h with
      | Some gm => Ok (g_type gm) w
      | None => Fault
      end
    end).

Definition with_srid (s : Z) (gm : geometry) : geometry :=
  {| g_type := g_type gm; g_srid := s; g_coord_seq := g_coord_seq gm |}.

Definition GEOSSetSRID_r (context g : pointer) (s : Z) : M unit :=
  emit (E_SetSRID context g s);;;
  with_context context tt (λ _ w,
    match g with
    | None => Fault
    | Some h =>
      match geoms (geos w) !! h with
      | Some gm =>
        Ok tt (set_geos (set_geoms <[h := with_srid s gm]>) w)
      | None => Fault
      end
    end).

(** ** The functions of factory.c *)

(** Modelled from the spec: the macros [RGEO_FACTORY_DATA_PTR] and
    [RGEO_GEOMETRY_DATA_PTR] of factory.h, casts of the data pointer of a
    wrapped object. *)
Definition RGEO_FACTORY_DATA_PTR (obj : VALUE) : M pointer := DATA_PTR obj.
Definition RGEO_GEOMETRY_DATA_PTR (obj : VALUE) : M pointer := DATA_PTR obj.

Definition destroy_factory_func (data : pointer) : M unit :=
  let* d := load_factory data in
  let context := f_geos_context d in
  (if non_null (wkt_reader d)
   then GEOSWKTReader_destroy_r context (wkt_reader d) else ret tt);;;
  (if non_null (wkb_reader d)
   then GEOSWKBReader_destroy_r context (wkb_reader d) else ret tt);;;
  (if non_null (wkt_writer d)
   then GEOSWKTWriter_destroy_r context (wkt_writer d) else ret tt);;;
  (if non_null (wkb_writer d)
   then GEOSWKBWriter_destroy_r context (wkb_writer d) else ret tt);;;
  finishGEOS_r context;;;
  free data.

Definition method_factory_srid (self : VALUE) : M VALUE :=
  let* p := RGEO_FACTORY_DATA_PTR self in
  let* d := load_factory p in
  ret (INT2NUM (srid d)).

Definition method_factory_buffer_resolution (self : VALUE) : M VALUE :=
  let* p := RGEO_FACTORY_DATA_PTR self in
  let* d := load_factory p in
  ret (INT2NUM (buffer_resolution d)).

Definition method_factory_flags (self : VALUE) : M VALUE :=
  let* p := RGEO_FACTORY_DATA_PTR self in
  let* d := load_factory p in
  ret (INT2NUM (flags d)).

Section Construction.

(** The implicit conversion of the runtime, which [NUM2INT] calls. *)
Variable rb_to_integer : VALUE → M VALUE.

Definition cmethod_factory_create (klass flags srid buffer_resolution : VALUE)
    : M VALUE :=
  let* data := ALLOC in
  if non_null data then
    let* context := initGEOS_r in
    if non_null context then
      let* wrapped_globals := rb_const_get_at klass "INTERNAL_CGLOBALS" in
      let* globals := DATA_PTR wrapped_globals in
      let* flags := NUM2INT rb_to_integer flags in
      let* srid := NUM2INT rb_to_integer srid in
      let* buffer_resolution := NUM2INT rb_to_integer buffer_resolution in
      store data (CFactoryData
        {| globals := globals;
           f_geos_context := context;
           flags := flags;
           srid := srid;
           buffer_resolution := buffer_resolution;
           wkt_reader := NULL;
           wkb_reader := NULL;
           wkt_writer := NULL;
           wkb_writer := NULL |});;;
      Data_Wrap_Struct klass FP_NULL FP_destroy_factory_func data
    else
      free data;;; ret Qnil
  else ret Qnil.

End Construction.

(** The [switch] of [rgeo_wrap_geos_geometry]: the class registered for a
    geometry type id, and whether the id is one of a collection. *)
Definition inferred_klass (globals : RGeo_Globals) (type_id : Z)
    : VALUE * bool :=
  match type_id with
  | 0 => (geos_point globals, false)
  | 1 => (geos_line_string globals, false)
  | 2 => (geos_linear_ring globals, false)
  | 3 => (geos_polygon globals, false)
  | 4 => (geos_multi_point globals, true)
  | 5 => (geos_multi_line_string globals, true)
  | 6 => (geos_multi_polygon globals, true)
  | 7 => (geos_geometry_collection globals, true)
  | _ => (geos_geometry globals, false)
  end.

Definition rgeo_wrap_geos_geometry (factory : VALUE) (geom : pointer)
    (klass : VALUE) : M VALUE :=
  if non_null geom || negb (NIL_P klass) then
    let* factory_data :=
      (if NIL_P factory then ret NULL else RGEO_FACTORY_DATA_PTR factory) in
    let* factory_context :=
      (if non_null factory_data
       then let* d := load_factory factory_data in ret (f_geos_context d)
       else ret NULL) in
    let* ty := TYPE klass in
    let* '(klass, klasses) :=
      (if decide (ty ≠ T_CLASS) then
         let* d := load_factory factory_data in
         let* globals := load_globals (globals d) in
         let* type_id := GEOSGeomTypeId_r factory_context geom in
         let '(inferred, is_collection) := inferred_klass globals type_id in
         let* ty := TYPE klass in
         ret (inferred,
              if bool_decide (ty = T_ARRAY) && is_collection
              then klass else Qnil)
       else ret (klass, Qnil)) in
    let* data := ALLOC in
    if non_null data then
      (if non_null geom
       then let* d := load_factory factory_data in
            GEOSSetSRID_r factory_context geom (srid d)
       else ret tt);;;
      store data (CGeometryData
        {| geom := geom;
           geos_context := factory_context;
           factory := factory;
           klasses := klasses |});;;
      Data_Wrap_Struct klass FP_mark_geometry_func FP_destroy_geometry_func
        data
    else ret Qnil
  else ret Qnil.

Definition set_wkt_reader (r : pointer) (d : RGeo_FactoryData)
    : RGeo_FactoryData :=
  {| globals := globals d; f_geos_context := f_geos_context d;
     flags := flags d; srid := srid d;
     buffer_resolution := buffer_resolution d;
     wkt_reader := r; wkb_reader := wkb_reader d;
     wkt_writer := wkt_writer d; wkb_writer := wkb_writer d |}.

Definition set_wkb_reader (r : pointer) (d : RGeo_FactoryData)
    : RGeo_FactoryData :=
  {| globals := globals d; f_geos_context := f_geos_context d;
     flags := flags d; srid := srid d;
     buffer_resolution := buffer_resolution d;
     wkt_reader := wkt_reader d; wkb_reader := r;
     wkt_writer := wkt_writer d; wkb_writer := wkb_writer d |}.

Definition strip (d : RGeo_GeometryData) : RGeo_GeometryData :=
  {| geom := NULL; geos_context := NULL; factory := Qnil; klasses := Qnil |}.

Section Collaborators.

(** The grammars of the engine's two readers, and the method dispatch of
    the Ruby runtime, which runs code this file does not contain. *)
Variable wkt_grammar : string → option geometry.
Variable wkb_grammar : string → option geometry.
Variable rb_funcall : VALUE → string → list VALUE → M VALUE.

Definition GEOSWKTReader_read_r (context reader : pointer) (text : string)
    : M pointer :=
  read_with WKTReader wkt_grammar context reader text
    (E_WKTReader_read context reader text).

Definition GEOSWKBReader_read_r (context reader : pointer) (bytes : string)
    : M pointer :=
  read_with WKBReader wkb_grammar context reader bytes
    (E_WKBReader_read context reader bytes).

Definition method_factory_parse_wkt (self str : VALUE) : M VALUE :=
  Check_Type str T_STRING;;;
  let* self_data := RGEO_FACTORY_DATA_PTR self in
  let* d := load_factory self_data in
  let self_context := f_geos_context d in
  let* wkt_reader :=
    (if negb (non_null (wkt_reader d)) then
       let* r := GEOSWKTReader_create_r self_context in
       store self_data (CFactoryData (set_wkt_reader r d));;;
       ret r
     else ret (wkt_reader d)) in
  if non_null wkt_reader then
    let* s := RSTRING str in
    let* geom := GEOSWKTReader_read_r self_context wkt_reader (c_str s) in
    if non_null geom
    then rgeo_wrap_geos_geometry self geom Qnil
    else ret Qnil
  else ret Qnil.

Definition method_factory_parse_wkb (self str : VALUE) : M VALUE :=
  Check_Type str T_STRING;;;
  let* self_data := RGEO_FACTORY_DATA_PTR self in
  let* d := load_factory self_data in
  let self_context := f_geos_context d in
  let* wkb_reader :=
    (if negb (non_null (wkb_reader d)) then
       let* r := GEOSWKBReader_create_r self_context in
       store self_data (CFactoryData (set_wkb_reader r d));;;
       ret r
     else ret (wkb_reader d)) in
  if non_null wkb_reader then
    let* s := RSTRING str in
    let* geom := GEOSWKBReader_read_r self_context wkb_reader s in
    if non_null geom
    then rgeo_wrap_geos_geometry self geom Qnil
    else ret Qnil
  else ret Qnil.

(** The out-parameter [VALUE* klasses] is passed as the content of the
    caller's variable, [None] when the caller passes the null pointer, and
    handed back with the result. *)
Definition rgeo_convert_to_detached_geos_geometry (obj factory type : VALUE)
    (klasses_out : option VALUE) : M (pointer * option VALUE) :=
  let klasses_out :=
    match klasses_out with Some _ => Some Qnil | None => None end in
  let* factory_data := RGEO_FACTORY_DATA_PTR factory in
  let* fd := load_factory factory_data in
  let* globals := load_globals (globals fd) in
  let* object :=
    rb_funcall (feature_module globals) "cast"
      [obj; factory; type; Symbol "force_new"; Symbol "keep_subtype"] in
  if negb (NIL_P object) then
    let* object_data := RGEO_GEOMETRY_DATA_PTR object in
    let* od := load_geometry object_data in
    let geom := geom od in
    let* klasses_out :=
      match klasses_out with
      | Some _ =>
        if NIL_P (klasses od)
        then let* c := CLASS_OF object in ret (Some c)
        else ret (Some (klasses od))
      | None => ret None
      end in
    store object_data (CGeometryData (strip od));;;
    ret (geom, klasses_out)
  else ret (NULL, klasses_out).

End Collaborators.

(** ** Vocabulary of the statements *)

(** [self] is a wrapped factory: a [T_DATA] object whose data pointer [p]
    holds the factory struct [d]. *)
Definition wraps_factory (w : world) (self : VALUE) (p : positive)
    (d : RGeo_FactoryData) : Prop :=
  ∃ a k m f,
    self = Object a
    ∧ objs w !! a = Some {| basic_klass := k; body := BData m f (Some p) |}
    ∧ cmem w !! p = Some (CFactoryData d).

(** A helper handle of a factory is either absent or a live handle of its
    kind. *)
Definition helper_ok (w : world) (kind : helper_kind) (h : pointer) : Prop :=
  match h with
  | Some a => helpers (geos w) !! a = Some kind
  | None => True
  end.

(** The call made for a handle when it is present. *)
Definition call_if_present (ev : pointer → event) (h : pointer)
    : list event :=
  match h with Some _ => [ev h] | None => [] end.

Definition release (h : pointer) (m : gmap positive helper_kind)
    : gmap positive helper_kind :=
  match h with Some a => delete a m | None => m end.

(** The world after the guarded destruction of one helper handle. *)
Definition after_release (ev : pointer → event) (h : pointer) (w : world)
    : world :=
  match h with
  | Some _ => set_geos (set_helpers (release h)) (log (ev h) w)
  | None => w
  end.

(** The next [n] fallible allocations succeed. *)
Definition allocations_succeed (n : nat) (w : world) : Prop :=
  Forall (λ b, b = true) (take n (fates w)).

(** [v] is a [T_DATA] object. *)
Definition is_data (w : world) (v : VALUE) (p : pointer) : Prop :=
  ∃ a k m f,
    v = Object a
    ∧ objs w !! a = Some {| basic_klass := k; body := BData m f p |}.

(** A call that leaves the world as it found it, whatever it returns. *)
Definition pure_call {A} (m : M A) : Prop :=
  ∀ w, match m w with
       | Ok _ w' => w' = w
       | Raise _ _ => False
       | Fault => True
       end.

(** A factory ready for use: wrapped, with a live context and a registry. *)
Definition factory_ready (w : world) (self : VALUE) (p : positive)
    (d : RGeo_FactoryData) (c : positive) (g : RGeo_Globals) : Prop :=
  wraps_factory w self p d
  ∧ f_geos_context d = Some c
  ∧ c ∈ contexts (geos w)
  ∧ ∃ gp, globals d = Some gp ∧ cmem w !! gp = Some (CGlobals g).

(** The Process Registry as the specification presents it: a table from
    geometry kinds to classes. *)
Inductive geometry_kind :=
  | Point | LineString | LinearRing | Polygon
  | MultiPoint | MultiLineString | MultiPolygon | GeometryCollection
  | Generic.

Definition kind_of_type_id (t : Z) : geometry_kind :=
  if t =? GEOS_POINT then Point
  else if t =? GEOS_LINESTRING then LineString
  else if t =? GEOS_LINEARRING then LinearRing
  else if t =? GEOS_POLYGON then Polygon
  else if t =? GEOS_MULTIPOINT then MultiPoint
  else if t =? GEOS_MULTILINESTRING then MultiLineString
  else if t =? GEOS_MULTIPOLYGON then MultiPolygon
  else if t =? GEOS_GEOMETRYCOLLECTION then GeometryCollection
  else Generic.

Definition registered_class (g : RGeo_Globals) (k : geometry_kind) : VALUE :=
  match k with
  | Point => geos_point g
  | LineString => geos_line_string g
  | LinearRing => geos_linear_ring g
  | Polygon => geos_polygon g
  | MultiPoint => geos_multi_point g
  | MultiLineString => geos_multi_line_string g
  | MultiPolygon => geos_multi_polygon g
  | GeometryCollection => geos_geometry_collection g
  | Generic => geos_geometry g
  end.

Definition collection_kind (k : geometry_kind) : bool :=
  match k with
  | MultiPoint | MultiLineString | MultiPolygon | GeometryCollection => true
  | _ => false
  end.

(** The wrapper object and struct that [rgeo_wrap_geos_geometry] builds. *)
Definition wrapper_object (klass : VALUE) (q : positive) : robject :=
  {| basic_klass := klass;
     body := BData FP_mark_geometry_func FP_destroy_geometry_func (Some q) |}.

Definition is_SetSRID (ev : event) : bool :=
  match ev with E_SetSRID _ _ _ => true | _ => false end.

(** Every way out of [m] other than undefined behaviour relates the world
    it started in to the world it leaves. *)
Definition preserves {A} (R : world → world → Prop) (m : M A) : Prop :=
  ∀ w, match m w with
       | Ok _ w' | Raise _ w' => R w w'
       | Fault => True
       end.

(** No geometry changed and no [GEOSSetSRID_r] call was made. *)
Definition no_srid_assignment (w w' : world) : Prop :=
  geoms (geos w') = geoms (geos w)
  ∧ List.filter is_SetSRID (trace w') = List.filter is_SetSRID (trace w).


(** [rgeo_wrap_geos_geometry] from its [ALLOC] on, once the class and the
    member classes are settled. *)
Definition wrap_tail (factory : VALUE)
    (geom factory_data factory_context : pointer) (klass klasses : VALUE)
    : M VALUE :=
  let* data := ALLOC in
  if non_null data then
    (if non_null geom
     then let* d := load_factory factory_data in
          GEOSSetSRID_r factory_context geom (srid d)
     else ret tt);;;
    store data (CGeometryData
      {| geom := geom;
         geos_context := factory_context;
         factory := factory;
         klasses := klasses |});;;
    Data_Wrap_Struct klass FP_mark_geometry_func FP_destroy_geometry_func
      data
  else ret Qnil.

(** The arguments of the coercion that
    [rgeo_convert_to_detached_geos_geometry] delegates to. *)
Definition cast_args (obj factory type : VALUE) : list VALUE :=
  [obj; factory; type; Symbol "force_new"; Symbol "keep_subtype"].

(** [v] is a Ruby string with bytes [s]. *)
Definition is_string (w : world) (v : VALUE) (s : string) : Prop :=
  ∃ a k,
    v = Object a
    ∧ objs w !! a = Some {| basic_klass := k; body := BString s |}.

Definition is_reader_create (ev : event) : bool :=
  match ev with
  | E_WKTReader_create _ _ | E_WKBReader_create _ _ => true
  | _ => false
  end.

(** From [w] to [w'] objects and structs were only added, the contexts and
    helper handles are the same, and no reader was created. *)
Definition grows (w w' : world) : Prop :=
  objs w ⊆ objs w'
  ∧ cmem w ⊆ cmem w'
  ∧ contexts (geos w') = contexts (geos w)
  ∧ helpers (geos w') = helpers (geos w)
  ∧ List.filter is_reader_create (trace w')
    = List.filter is_reader_create (trace w)
  ∧ (∀ ev, ev ∈ trace w → ev ∈ trace w').

(** The common shape of [method_factory_parse_wkt] and
    [method_factory_parse_wkb]: they differ in the kind of reader, the
    field that caches it, the events they log and the input they hand to
    the reader. *)
Definition parse_with_reader (kind : helper_kind)
    (grammar : string → option geometry)
    (reader_of : RGeo_FactoryData → pointer)
    (set_reader : pointer → RGeo_FactoryData → RGeo_FactoryData)
    (create_ev : pointer → pointer → event)
    (read_ev : pointer → pointer → string → pointer → event)
    (input_of : string → string) (self str : VALUE) : M VALUE :=
  Check_Type str T_STRING;;;
  let* self_data := RGEO_FACTORY_DATA_PTR self in
  let* d := load_factory self_data in
  let self_context := f_geos_context d in
  let* reader :=
    (if negb (non_null (reader_of d)) then
       let* r := create_helper kind self_context (create_ev self_context) in
       store self_data (CFactoryData (set_reader r d));;;
       ret r
     else ret (reader_of d)) in
  if non_null reader then
    let* s := RSTRING str in
    let* geom :=
      read_with kind grammar self_context reader (input_of s)
        (read_ev self_context reader (input_of s)) in
    if non_null geom
    then rgeo_wrap_geos_geometry self geom Qnil
    else ret Qnil
  else ret Qnil.

(** The reader and the world once a parse method has settled its reader:
    as they were when a reader is cached; otherwise the created reader (or
    the failure to create one) is logged and stored in the factory. *)
Definition settled (kind : helper_kind)
    (reader_of : RGeo_FactoryData → pointer)
    (set_reader : pointer → RGeo_FactoryData → RGeo_FactoryData)
    (create_ev : pointer → pointer → event)
    (w : world) (p c : positive) (d : RGeo_FactoryData) : pointer * world :=
  match reader_of d with
  | Some r => (Some r, w)
  | None =>
    let w0 := set_fates (tail (fates w)) w in
    let r := if next_fate w
             then Some (fresh (dom (helpers (geos w)))) else NULL in
    let w1 := match r with
              | Some h =>
                log (create_ev (Some c) r)
                  (set_geos (set_helpers <[h := kind]>) w0)
              | None => log (create_ev (Some c) r) w0
              end in
    (r, set_cmem <[p := CFactoryData (set_reader r d)]> w1)
  end.

(** The factory struct once the reader [r] is settled. *)
Definition cached_data (reader_of : RGeo_FactoryData → pointer)
    (set_reader : pointer → RGeo_FactoryData → RGeo_FactoryData)
    (r : pointer) (d : RGeo_FactoryData) : RGeo_FactoryData :=
  match reader_of d with Some _ => d | None => set_reader r d end.

(** The geometry handle and the world once the input is read with the
    reader [r]. *)
Definition after_read (grammar : string → option geometry)
    (read_ev : pointer → pointer → string → pointer → event)
    (w1 : world) (c : positive) (r : pointer) (input : string)
    : pointer * world :=
  match grammar input with
  | None => (NULL, log (read_ev (Some c) r input NULL) w1)
  | Some gm =>
    let h := fresh (dom (geoms (geos w1))) in
    (Some h,
     log (read_ev (Some c) r input (Some h))
       (set_geos (set_geoms <[h := gm]>) w1))
  end.

(** The call ends in the world [w'] with a value or with the
    [NoMemoryError] of a failed [ALLOC]; it does not fault and raises
    nothing else. *)
Definition ends_in {A} (o : outcome A) (w' : world) : Prop :=
  (∃ v, o = Ok v w') ∨ o = Raise "NoMemoryError" w'.

(** What the specification promises of a parse method [parse] that caches
    its reader in the field read by [reader_of]. *)
Definition parse_contract (parse : VALUE → VALUE → M VALUE)
    (kind : helper_kind) (grammar : string → option geometry)
    (reader_of : RGeo_FactoryData → pointer)
    (set_reader : pointer → RGeo_FactoryData → RGeo_FactoryData)
    (create_ev : pointer → pointer → event)
    (read_ev : pointer → pointer → string → pointer → event)
    (input_of : string → string) : Prop :=
  ∀ w self str p d c g text,
    factory_ready w self p d c g →
    helper_ok w kind (reader_of d) →
    is_string w str text →
    let input := input_of text in
    (* the reader and the world once the reader is settled, the geometry
       and the world once the input is read: all functions of [w] *)
    let reader := (settled kind reader_of set_reader create_ev w p c d).1 in
    let w_settled :=
      (settled kind reader_of set_reader create_ev w p c d).2 in
    let gh := (after_read grammar read_ev w_settled c reader input).1 in
    let w_read := (after_read grammar read_ev w_settled c reader input).2 in
    (* no reader yet and none can be created: nil, and nothing is cached *)
    (reader_of d = NULL → next_fate w = false →
     ∃ w', parse self str w = Ok Qnil w'
           ∧ factory_ready w' self p (set_reader NULL d) c g)
    (* the engine cannot parse the input: nil *)
    ∧ (grammar input = None → ∃ w', parse self str w = Ok Qnil w')
    (* no reader yet: one is created and cached in the factory *)
    ∧ (reader_of d = NULL → next_fate w = true →
       ∃ r w',
         ends_in (parse self str w) w'
         ∧ helpers (geos w) !! r = None
         ∧ factory_ready w' self p (set_reader (Some r) d) c g
         ∧ helper_ok w' kind (Some r)
         ∧ objs w ⊆ objs w'
         ∧ List.filter is_reader_create (trace w')
           = List.filter is_reader_create (trace w)
             ++ [create_ev (Some c) (Some r)])
    (* a cached reader is used, and no reader is created *)
    ∧ (∀ r, reader_of d = Some r →
       ∃ w' gh,
         ends_in (parse self str w) w'
         ∧ factory_ready w' self p d c g
         ∧ helper_ok w' kind (Some r)
         ∧ objs w ⊆ objs w'
         ∧ List.filter is_reader_create (trace w')
           = List.filter is_reader_create (trace w)
         ∧ read_ev (Some c) (Some r) input gh ∈ trace w')
    (* two calls in a row: the second reads with the reader the first
       created *)
    ∧ (reader_of d = NULL → next_fate w = true →
       ∀ str2 text2, is_string w str2 text2 →
       ∃ r w1 w2 gh,
         ends_in (parse self str w) w1
         ∧ ends_in (parse self str2 w1) w2
         ∧ List.filter is_reader_create (trace w2)
           = List.filter is_reader_create (trace w)
             ++ [create_ev (Some c) (Some r)]
         ∧ read_ev (Some c) (Some r) (input_of text2) gh ∈ trace w2)
    (* the engine parses the input: the call is the wrap, with no class
       hint, of the geometry read, in the world the read left; the wrap
       allocates with the first of the coming allocations that is left
       once the reader is settled, and gives a new wrapper of the inferred
       class when that allocation succeeds and [NoMemoryError] when not *)
    ∧ (∀ gm, grammar input = Some gm →
       (reader_of d = NULL → next_fate w = true) →
       ∃ h,
         gh = Some h
         ∧ parse self str w
           = rgeo_wrap_geos_geometry self (Some h) Qnil w_read
         ∧ geoms (geos w) !! h = None
         ∧ geoms (geos w_read) !! h = Some gm
         ∧ fates w_read
           = match reader_of d with
             | Some _ => fates w
             | None => tail (fates w)
             end
         ∧ (next_fate w_read = true →
            ∃ a q od w',
              parse self str w = Ok (Object a) w'
              ∧ objs w !! a = None
              ∧ objs w' !! a
                = Some (wrapper_object
                          (registered_class g (kind_of_type_id (g_type gm)))
                          q)
              ∧ cmem w' !! q = Some (CGeometryData od)
              ∧ geom od = Some h
              ∧ factory od = self
              ∧ klasses od = Qnil)
         ∧ (next_fate w_read = false →
            ∃ w', parse self str w = Raise "NoMemoryError" w'
                  ∧ objs w' = objs w)).

(** ** A small world to run the functions in *)

Definition demo_globals : RGeo_Globals :=
  {| feature_module := Object 20;
     geos_module := Object 21;
     geos_geometry := Object 10;
     geos_point := Object 11;
     geos_line_string := Object 12;
     geos_linear_ring := Object 13;
     geos_polygon := Object 14;
     geos_geometry_collection := Object 15;
     geos_multi_point := Object 16;
     geos_multi_line_string := Object 17;
     geos_multi_polygon := Object 18 |}.

(** A factory with SRID 4326 that has created a WKT reader and a WKB
    writer, and one that has created no helper yet. *)
Definition demo_factory_data : RGeo_FactoryData :=
  {| globals := Some 1%positive; f_geos_context := Some 1%positive;
     flags := 3; srid := 4326; buffer_resolution := 8;
     wkt_reader := Some 1%positive; wkb_reader := NULL;
     wkt_writer := NULL; wkb_writer := Some 2%positive |}.

Definition demo_fresh_factory_data : RGeo_FactoryData :=
  {| globals := Some 1%positive; f_geos_context := Some 1%positive;
     flags := 0; srid := 3857; buffer_resolution := 4;
     wkt_reader := NULL; wkb_reader := NULL;
     wkt_writer := NULL; wkb_writer := NULL |}.

Definition d_one : double := S754_finite false 1 0.
Definition d_two : double := S754_finite false 1 1.

(** POINT (1 2), and the same point with a Z that cannot be read. *)
Definition demo_point_seq : coord_seq :=
  {| cs_size := Some 1%N;
     cs_x := λ _, Some d_one; cs_y := λ _, Some d_two;
     cs_z := λ _, Some S754_nan |}.

Definition demo_flat_seq : coord_seq :=
  {| cs_size := Some 1%N;
     cs_x := λ _, Some d_one; cs_y := λ _, Some d_two;
     cs_z := λ _, None |}.

Definition demo_pair_seq : coord_seq :=
  {| cs_size := Some 2%N;
     cs_x := λ _, Some d_one; cs_y := λ _, Some d_two;
     cs_z := λ _, None |}.

Definition demo_point : geometry :=
  {| g_type := GEOS_POINT; g_srid := 0; g_coord_seq := Some demo_point_seq |}.

Definition demo_flat_point : geometry :=
  {| g_type := GEOS_POINT; g_srid := 0; g_coord_seq := Some demo_flat_seq |}.

Definition demo_multi_point : geometry :=
  {| g_type := GEOS_MULTIPOINT; g_srid := 27700;
     g_coord_seq := Some demo_pair_seq |}.

Definition demo_class : robject :=
  {| basic_klass := BuiltinClass T_CLASS; body := BClass ∅ |}.

Definition demo_objs : gmap positive robject :=
  list_to_map
    [ (1%positive,
       {| basic_klass := BuiltinClass T_CLASS;
          body := BClass {[ "INTERNAL_CGLOBALS" := Object 2 ]} |});
      (2%positive,
       {| basic_klass := BuiltinClass T_OBJECT;
          body := BData FP_mark_globals_func FP_destroy_globals_func
                    (Some 1%positive) |});
      (3%positive,
       {| basic_klass := Object 1;
          body := BData FP_NULL FP_destroy_factory_func
                    (Some 2%positive) |});
      (4%positive,
       {| basic_klass := Object 1;
          body := BData FP_NULL FP_destroy_factory_func
                    (Some 4%positive) |});
      (5%positive,
       {| basic_klass := Object 11;
          body := BData FP_mark_geometry_func FP_destroy_geometry_func
                    (Some 3%positive) |});
      (10%positive, demo_class); (11%positive, demo_class);
      (12%positive, demo_class); (13%positive, demo_class);
      (14%positive, demo_class); (15%positive, demo_class);
      (16%positive, demo_class); (17%positive, demo_class);
      (18%positive, demo_class);
      (20%positive, {| basic_klass := BuiltinClass T_MODULE;
                       body := BModule |});
      (21%positive, {| basic_klass := BuiltinClass T_MODULE;
                       body := BModule |});
      (30%positive, {| basic_klass := BuiltinClass T_STRING;
                       body := BString "POINT (1 2)" |});
      (31%positive, {| basic_klass := BuiltinClass T_STRING;
                       body := BString "NOT WKT" |});
      (32%positive, {| basic_klass := BuiltinClass T_ARRAY;
                       body := BArray [Object 11; Object 11] |}) ].

Definition demo_cmem : gmap positive cblock :=
  list_to_map
    [ (1%positive, CGlobals demo_globals);
      (2%positive, CFactoryData demo_factory_data);
      (3%positive,
       CGeometryData {| geom := Some 1%positive;
                        geos_context := Some 1%positive;
                        factory := Object 3; klasses := Qnil |});
      (4%positive, CFactoryData demo_fresh_factory_data) ].

Definition demo_geos : geos_state :=
  {| contexts := {[ 1%positive ]};
     helpers := list_to_map [ (1%positive, WKTReader);
                              (2%positive, WKBWriter) ];
     geoms := list_to_map [ (1%positive, demo_point);
                            (2%positive, demo_multi_point);
                            (3%positive, demo_flat_point) ] |}.

Definition demo_world : world :=
  {| objs := demo_objs; cmem := demo_cmem; geos := demo_geos;
     fates := []; trace := [] |}.

(** The same world when the next allocation fails. *)
Definition demo_world_oom : world := set_fates [false] demo_world.

Definition demo_wkt_grammar (s : string) : option geometry :=
  if String.eqb s "POINT (1 2)" then Some demo_point else None.

Definition demo_wkb_grammar (s : string) : option geometry := None.

(** A runtime in which no value has a [to_int]. *)
Definition demo_to_integer (v : VALUE) : M VALUE := rb_raise "TypeError".

(** A coercion that hands back the object it is given. *)
Definition demo_funcall (recv : VALUE) (meth : string) (args : list VALUE)
    : M VALUE :=
  match args with
  | obj :: _ => ret obj
  | [] => ret Qnil
  end.

(** ** The other functions of factory.c *)

(** [GEOSGeom_destroy_r] deletes the geometry and looks at the context only
    to report an error; deleting the null geometry does nothing, deleting
    one that is not alive is undefined behaviour. *)
Definition GEOSGeom_destroy_r (context g : pointer) : M unit := λ w,
  match g with
  | None => Ok tt w
  | Some h =>
    match geoms (geos w) !! h with
    | Some _ => Ok tt (set_geos (set_geoms (delete h)) w)
    | None => Fault
    end
  end.

(** [GEOSGeom_clone_r]: a copy of a live geometry under a handle of its
    own, or null when the copy cannot be allocated. *)
Definition GEOSGeom_clone_r (context g : pointer) : M pointer :=
  with_context context NULL (λ _ w,
    match g with
    | None => Fault
    | Some h =>
      match geoms (geos w) !! h with
      | Some gm =>
        let w' := set_fates (tail (fates w)) w in
        if next_fate w
        then let h' := fresh (dom (geoms (geos w))) in
             Ok (Some h') (set_geos (set_geoms <[h' := gm]>) w')
        else Ok NULL w'
      | None => Fault
      end
    end).

(** [RDATA(v)->dfree], an unchecked read like [DATA_PTR]. *)
Definition RDATA_dfree (v : VALUE) : M funcptr := λ w,
  match v with
  | Object a =>
    match objs w !! a with
    | Some {| body := BData _ f _ |} => Ok f w
    | _ => Fault
    end
  | _ => Fault
  end.

(** [rb_obj_class(v)]; the heap has no singleton classes, so this is the
    class of the object. *)
Definition rb_obj_class (v : VALUE) : M VALUE := CLASS_OF v.

Definition destroy_geometry_func (data : pointer) : M unit :=
  let* d := load_geometry data in
  (if non_null (geom d)
   then GEOSGeom_destroy_r (geos_context d) (geom d) else ret tt);;;
  free data.

(** The mark functions hand values to [rb_gc_mark]; they return the values
    they hand over, in order. *)
Definition mark_geometry_func (data : pointer) : M (list VALUE) :=
  let* d := load_geometry data in
  let marked := if negb (NIL_P (factory d)) then [factory d] else [] in
  let marked :=
    if negb (NIL_P (klasses d)) then marked ++ [klasses d] else marked in
  ret marked.

Definition destroy_globals_func (data : pointer) : M unit := free data.

Definition mark_globals_func (data : pointer) : M (list VALUE) := ret [].

Definition rgeo_wrap_geos_geometry_clone (factory : VALUE) (geom : pointer)
    (klass : VALUE) : M VALUE :=
  if non_null geom then
    let* factory_data := RGEO_FACTORY_DATA_PTR factory in
    let* d := load_factory factory_data in
    let* clone_geom := GEOSGeom_clone_r (f_geos_context d) geom in
    if non_null clone_geom
    then rgeo_wrap_geos_geometry factory clone_geom klass
    else ret Qnil
  else ret Qnil.

(** The result is a C [char], 1 or 0. *)
Definition rgeo_is_geos_object (obj : VALUE) : M Z :=
  let* ty := TYPE obj in
  if decide (ty = T_DATA) then
    let* f := RDATA_dfree obj in
    ret (if decide (f = FP_destroy_geometry_func) then 1 else 0)
  else ret 0.

Definition rgeo_get_geos_geometry_safe (obj : VALUE) : M pointer :=
  let* ty := TYPE obj in
  if decide (ty = T_DATA) then
    let* f := RDATA_dfree obj in
    if decide (f = FP_destroy_geometry_func) then
      let* p := RGEO_GEOMETRY_DATA_PTR obj in
      let* d := load_geometry p in
      ret (geom d)
    else ret NULL
  else ret NULL.

Section Dispatch.

Variable rb_funcall : VALUE → string → list VALUE → M VALUE.

Definition rgeo_convert_to_geos_geometry (factory obj type : VALUE)
    : M pointer :=
  let cast :=
    let* factory_data := RGEO_FACTORY_DATA_PTR factory in
    let* fd := load_factory factory_data in
    let* globals := load_globals (globals fd) in
    rb_funcall (feature_module globals) "cast" [obj; factory; type] in
  let* object :=
    (if NIL_P type then
       let* obj_data := RGEO_GEOMETRY_DATA_PTR obj in
       let* od := load_geometry obj_data in
       let '{| factory := obj_factory |} := od in
       if decide (obj_factory = factory) then ret obj else cast
     else cast) in
  if negb (NIL_P object) then
    let* object_data := RGEO_GEOMETRY_DATA_PTR object in
    let* od := load_geometry object_data in
    ret (geom od)
  else ret NULL.

Definition rgeo_geos_klasses_and_factories_eql (obj1 obj2 : VALUE)
    : M VALUE :=
  let* c1 := rb_obj_class obj1 in
  let* c2 := rb_obj_class obj2 in
  if decide (c1 ≠ c2) then ret Qfalse
  else
    let* p1 := RGEO_GEOMETRY_DATA_PTR obj1 in
    let* d1 := load_geometry p1 in
    let* p2 := RGEO_GEOMETRY_DATA_PTR obj2 in
    let* d2 := load_geometry p2 in
    rb_funcall (factory d1) "eql?" [factory d2].

End Dispatch.

(** ** Vocabulary for the other functions *)

(** [v] is a geometry wrapper: a [T_DATA] object freed by
    [destroy_geometry_func] whose data pointer [q] holds the struct [od]. *)
Definition is_wrapper (w : world) (v : VALUE) (q : positive)
    (od : RGeo_GeometryData) : Prop :=
  ∃ a k m,
    v = Object a
    ∧ objs w !! a
      = Some {| basic_klass := k;
                body := BData m FP_destroy_geometry_func (Some q) |}
    ∧ cmem w !! q = Some (CGeometryData od).

(** Every object freed by [destroy_geometry_func] points to a geometry
    struct. *)
Definition wrappers_ok (w : world) : Prop :=
  ∀ a k m p,
    objs w !! a
    = Some {| basic_klass := k; body := BData m FP_destroy_geometry_func p |} →
    ∃ q od, p = Some q ∧ cmem w !! q = Some (CGeometryData od).

(** [v] is an immediate or refers to an object of the heap. *)
Definition live_value (w : world) (v : VALUE) : Prop :=
  match v with
  | Object a => is_Some (objs w !! a)
  | _ => True
  end.

(** The struct a factory has right after [cmethod_factory_create]. *)
Definition new_factory_data (globals context : pointer) (fl sr br : Z)
    : RGeo_FactoryData :=
  {| globals := globals; f_geos_context := context;
     flags := fl; srid := sr; buffer_resolution := br;
     wkt_reader := NULL; wkb_reader := NULL;
     wkt_writer := NULL; wkb_writer := NULL |}.

(** Values on which [NUM2INT] raises without converting anything: nil, an
    integer outside the range of a C [int], a float whose integer part, if
    it has one, is outside it. *)
Definition not_an_int (v : VALUE) : Prop :=
  v = Qnil
  ∨ (∃ z, v = Integer z ∧ ¬ (INT_MIN ≤ z ≤ INT_MAX))
  ∨ (∃ f, v = Flonum f
          ∧ ∀ z, double_truncate f = Some z → ¬ (INT_MIN ≤ z ≤ INT_MAX)).

(** The two heaps are the same in both worlds. *)
Definition same_heaps (w w' : world) : Prop :=
  objs w' = objs w ∧ cmem w' = cmem w.

(** A string with a zero byte in it, and an engine with a point whose Z can
    be read. *)
Definition demo_world_nul : world :=
  set_objs <[40%positive :=
               {| basic_klass := BuiltinClass T_STRING;
                  body := BString ("POINT (1 2)"
                                   +:+ String Ascii.zero "junk") |}]>
    demo_world.

Definition demo_solid_seq : coord_seq :=
  {| cs_size := Some 1%N;
     cs_x := λ _, Some d_one; cs_y := λ _, Some d_two;
     cs_z := λ _, Some d_one |}.

Definition demo_geos_3d : geos_state :=
  {| contexts := {[ 1%positive ]};
     helpers := ∅;
     geoms := list_to_map
                [ (1%positive,
                   {| g_type := GEOS_POINT; g_srid := 0;
                      g_coord_seq := Some demo_solid_seq |});
                  (2%positive,
                   {| g_type := GEOS_POINT; g_srid := 4326;
                      g_coord_seq := Some demo_solid_seq |}) ] |}.

(** A dispatch that answers [Qtrue] to everything. *)
Definition demo_agree (recv : VALUE) (meth : string) (args : list VALUE)
    : M VALUE := ret Qtrue.

(** * Properties *)

(** ** Deep coordinate equality *)

Lemma double_eq_sym (a b : double) : double_eq a b = double_eq b a.
Proof.
  unfold double_eq, SFeqb.
  destruct a as [sa|sa| |sa ma ea], b as [sb|sb| |sb mb eb]; simpl;
    try reflexivity; try (destruct sa, sb; reflexivity);
    try (destruct sa; reflexivity); try (destruct sb; reflexivity).
  destruct sa, sb; try reflexivity;
    rewrite (Z.compare_antisym ea eb);
    destruct (ea ?= eb)%Z; simpl; try reflexivity;
    change (Pos.compare_cont Eq mb ma) with (mb ?= ma)%positive;
    change (Pos.compare_cont Eq ma mb) with (ma ?= mb)%positive;
    rewrite (Pos.compare_antisym ma mb);
    destruct (ma ?= mb)%positive; reflexivity.
Qed.

Lemma coords_loop_sym e context cs1 cs2 check_z remaining i :
  coords_loop e context cs1 cs2 check_z remaining i
  = coords_loop e context cs2 cs1 check_z remaining i.
Proof.
  revert i. induction remaining as [|n IH]; intros i; [reflexivity|].
  cbn [coords_loop]. rewrite IH.
  destruct (GEOSCoordSeq_getX_r e context cs1 i) as [x1|],
           (GEOSCoordSeq_getX_r e context cs2 i) as [x2|]; try reflexivity.
  rewrite (double_eq_sym x2 x1). destruct (double_eq x1 x2); [|reflexivity].
  destruct (GEOSCoordSeq_getY_r e context cs1 i) as [y1|],
           (GEOSCoordSeq_getY_r e context cs2 i) as [y2|]; try reflexivity.
  rewrite (double_eq_sym y2 y1). destruct (double_eq y1 y2); [|reflexivity].
  destruct check_z; [|reflexivity].
  destruct (GEOSCoordSeq_getZ_r e context cs1 i) as [z1|],
           (GEOSCoordSeq_getZ_r e context cs2 i) as [z2|]; try reflexivity.
  rewrite (double_eq_sym z2 z1). reflexivity.
Qed.

(** The loop is the first verdict over the components it still has to
    visit. *)
Lemma components_succ check_z i n :
  components check_z i (S n)
  = map (pair i) (axes check_z) ++ components check_z (N.succ i) n.
Proof.
  unfold components. cbn [seq flat_map]. rewrite N.add_0_r. f_equal.
  rewrite <- seq_shift, flat_map_concat_map, map_map, <- flat_map_concat_map.
  apply flat_map_ext. intros k. do 2 f_equal. lia.
Qed.

Lemma coords_loop_first_verdict e context cs1 cs2 check_z remaining i :
  coords_loop e context cs1 cs2 check_z remaining i
  = first_verdict (map (compare_component e context cs1 cs2)
                       (components check_z i remaining)).
Proof.
  revert i. induction remaining as [|n IH]; intros i; [reflexivity|].
  rewrite components_succ, map_app. cbn [coords_loop]. rewrite IH.
  destruct check_z; cbn [axes map app first_verdict];
    match goal with
    | |- context [first_verdict ?l] => generalize (first_verdict l)
    end;
    intros rest; unfold compare_component, read_axis; cbn [fst snd];
    repeat (match goal with
            | |- context [match ?x with Some _ => _ | None => _ end] =>
              destruct x
            | |- context [if double_eq ?a ?b then _ else _] =>
              destruct (double_eq a b)
            end; cbn [negb]; try reflexivity).
Qed.

Lemma first_verdict_true (l : list verdict) :
  first_verdict l = Qtrue ↔ Forall (λ v, v = Same) l.
Proof.
  induction l as [|v l IH]; simpl.
  - split; [constructor | reflexivity].
  - destruct v.
    + rewrite IH. split; intros H; [constructor; auto | inversion H; auto].
    + split; [discriminate | intros H; inversion H; discriminate].
    + split; [discriminate | intros H; inversion H; discriminate].
Qed.

Lemma first_verdict_false (l : list verdict) :
  first_verdict l = Qfalse
  ↔ ∃ l1 l2, l = l1 ++ Differ :: l2 ∧ Forall (λ v, v = Same) l1.
Proof.
  induction l as [|v l IH]; simpl.
  - split; [discriminate|]. intros (l1 & l2 & H & _).
    destruct l1; discriminate.
  - destruct v.
    + rewrite IH. split.
      * intros (l1 & l2 & -> & H). exists (Same :: l1), l2. split; auto.
      * intros (l1 & l2 & H & HF). destruct l1 as [|v1 l1].
        -- discriminate.
        -- injection H as -> ->. inversion HF; subst. eauto.
    + split; [|reflexivity]. intros _. exists [], l. split; auto.
    + split; [discriminate|]. intros (l1 & l2 & H & HF).
      destruct l1 as [|v1 l1]; [discriminate|].
      injection H as <- _. inversion HF; subst. discriminate.
Qed.

Lemma first_verdict_nil (l : list verdict) :
  first_verdict l = Qnil
  ↔ ∃ l1 l2, l = l1 ++ Unreadable :: l2 ∧ Forall (λ v, v = Same) l1.
Proof.
  induction l as [|v l IH]; simpl.
  - split; [discriminate|]. intros (l1 & l2 & H & _).
    destruct l1; discriminate.
  - destruct v.
    + rewrite IH. split.
      * intros (l1 & l2 & -> & H). exists (Same :: l1), l2. split; auto.
      * intros (l1 & l2 & H & HF). destruct l1 as [|v1 l1].
        -- discriminate.
        -- injection H as -> ->. inversion HF; subst. eauto.
    + split; [discriminate|]. intros (l1 & l2 & H & HF).
      destruct l1 as [|v1 l1]; [discriminate|].
      injection H as <- _. inversion HF; subst. discriminate.
    + split; [|reflexivity]. intros _. exists [], l. split; auto.
Qed.

(** C1. [rgeo_geos_coordseqs_eql] compares the two coordinate sequences
    component by component.  It is the comparison the specification words
    ([coordinatesEqual]): a null geometry, a missing coordinate sequence or
    a size that cannot be read gives the indeterminate [Qnil]; sizes that
    differ give [Qfalse] whatever the coordinates are; with equal sizes the
    components are visited index by index, X then Y then (under [check_z])
    Z, and the first one that is not equal on both sides decides: [Qfalse]
    when both reads succeeded and the doubles differ under [==], [Qnil] when
    a read failed.  The result is [Qtrue] only when every visited component
    was read on both sides and found equal. *)
Theorem coordseqs_eql_componentwise e context geom1 geom2 check_z :
  let result := rgeo_geos_coordseqs_eql e context geom1 geom2 check_z in
  result = coordinatesEqual e context geom1 geom2 check_z
  ∧ (geom1 = NULL ∨ geom2 = NULL → result = Qnil)
  ∧ (∀ g1 g2, geom1 = Some g1 → geom2 = Some g2 →
       GEOSGeom_getCoordSeq_r e context g1 = None
       ∨ GEOSGeom_getCoordSeq_r e context g2 = None →
       result = Qnil)
  ∧ (∀ g1 g2 cs1 cs2,
       geom1 = Some g1 → geom2 = Some g2 →
       GEOSGeom_getCoordSeq_r e context g1 = Some cs1 →
       GEOSGeom_getCoordSeq_r e context g2 = Some cs2 →
       (GEOSCoordSeq_getSize_r e context cs1 = None
        ∨ GEOSCoordSeq_getSize_r e context cs2 = None → result = Qnil)
       ∧ ∀ len1 len2,
           GEOSCoordSeq_getSize_r e context cs1 = Some len1 →
           GEOSCoordSeq_getSize_r e context cs2 = Some len2 →
           (len1 ≠ len2 → result = Qfalse)
           ∧ (len1 = len2 →
              let vs := map (compare_component e context cs1 cs2)
                            (components check_z 0 (N.to_nat len1)) in
              (result = Qtrue ↔ Forall (λ v, v = Same) vs)
              ∧ (result = Qfalse
                 ↔ ∃ l1 l2, vs = l1 ++ Differ :: l2
                            ∧ Forall (λ v, v = Same) l1)
              ∧ (result = Qnil
                 ↔ ∃ l1 l2, vs = l1 ++ Unreadable :: l2
                            ∧ Forall (λ v, v = Same) l1)))
  ∧ (result = Qtrue →
     ∃ g1 g2 cs1 cs2 len,
       geom1 = Some g1 ∧ geom2 = Some g2
       ∧ GEOSGeom_getCoordSeq_r e context g1 = Some cs1
       ∧ GEOSGeom_getCoordSeq_r e context g2 = Some cs2
       ∧ GEOSCoordSeq_getSize_r e context cs1 = Some len
       ∧ GEOSCoordSeq_getSize_r e context cs2 = Some len
       ∧ ∀ c, c ∈ components check_z 0 (N.to_nat len) →
           ∃ a b, read_axis e context cs1 c = Some a
                  ∧ read_axis e context cs2 c = Some b
                  ∧ double_eq a b = true).
Proof.
  cbv zeta. split; [|split; [|split; [|split]]].
  - unfold rgeo_geos_coordseqs_eql, coordinatesEqual.
    destruct geom1 as [g1|], geom2 as [g2|]; try reflexivity.
    destruct (GEOSGeom_getCoordSeq_r e context g1) as [cs1|],
             (GEOSGeom_getCoordSeq_r e context g2) as [cs2|];
      try reflexivity.
    destruct (GEOSCoordSeq_getSize_r e context cs1) as [len1|],
             (GEOSCoordSeq_getSize_r e context cs2) as [len2|];
      try reflexivity.
    destruct (len1 =? len2)%N; [|reflexivity].
    apply coords_loop_first_verdict.
  - unfold rgeo_geos_coordseqs_eql. intros [-> | ->]; [reflexivity|].
    destruct geom1; reflexivity.
  - unfold rgeo_geos_coordseqs_eql. intros g1 g2 -> -> [H | H]; rewrite H.
    + reflexivity.
    + destruct (GEOSGeom_getCoordSeq_r e context g1); reflexivity.
  - unfold rgeo_geos_coordseqs_eql.
    intros g1 g2 cs1 cs2 -> -> -> ->. split.
    + intros [H | H]; rewrite H; [reflexivity|].
      destruct (GEOSCoordSeq_getSize_r e context cs1); reflexivity.
    + intros len1 len2 -> ->. split.
      * intros Hne. apply N.eqb_neq in Hne. rewrite Hne. reflexivity.
      * intros <-. rewrite N.eqb_refl, coords_loop_first_verdict.
        cbv zeta. split; [apply first_verdict_true|].
        split; [apply first_verdict_false | apply first_verdict_nil].
  - unfold rgeo_geos_coordseqs_eql.
    destruct geom1 as [g1|], geom2 as [g2|]; try discriminate.
    destruct (GEOSGeom_getCoordSeq_r e context g1) as [cs1|] eqn:E1,
             (GEOSGeom_getCoordSeq_r e context g2) as [cs2|] eqn:E2;
      try discriminate.
    destruct (GEOSCoordSeq_getSize_r e context cs1) as [len1|] eqn:S1,
             (GEOSCoordSeq_getSize_r e context cs2) as [len2|] eqn:S2;
      try discriminate.
    destruct (len1 =? len2)%N eqn:El; [|discriminate].
    apply N.eqb_eq in El. subst len2.
    rewrite coords_loop_first_verdict, first_verdict_true, Forall_map.
    intros Hall. exists g1, g2, cs1, cs2, len1.
    repeat (split; [reflexivity || assumption|]).
    intros c Hc. rewrite Forall_forall in Hall.
    specialize (Hall c Hc). unfold compare_component in Hall.
    destruct (read_axis e context cs1 c) as [a|]; [|discriminate].
    destruct (read_axis e context cs2 c) as [b|]; [|discriminate].
    exists a, b. destruct (double_eq a b); [auto | discriminate].
Qed.

(** C8. [rgeo_geos_coordseqs_eql] is symmetric in its two geometries, for
    each of the three results [Qtrue], [Qfalse] and [Qnil]. *)
Theorem coordseqs_eql_symmetric e context geom1 geom2 check_z :
  rgeo_geos_coordseqs_eql e context geom1 geom2 check_z
  = rgeo_geos_coordseqs_eql e context geom2 geom1 check_z.
Proof.
  unfold rgeo_geos_coordseqs_eql.
  destruct geom1 as [g1|], geom2 as [g2|]; try reflexivity.
  destruct (GEOSGeom_getCoordSeq_r e context g1) as [cs1|],
           (GEOSGeom_getCoordSeq_r e context g2) as [cs2|]; try reflexivity.
  destruct (GEOSCoordSeq_getSize_r e context cs1) as [len1|],
           (GEOSCoordSeq_getSize_r e context cs2) as [len2|];
    try reflexivity.
  rewrite (N.eqb_sym len2 len1).
  destruct (len1 =? len2)%N eqn:El; [|reflexivity].
  apply N.eqb_eq in El. subst len2. apply coords_loop_sym.
Qed.

(** ** Running the monad *)

Lemma bind_Ok {A B} (m : M A) (k : A → M B) w a w' :
  m w = Ok a w' → bind m k w = k a w'.
Proof. unfold bind. intros ->. reflexivity. Qed.

Lemma with_context_live {A} c (gave_up : A) k w :
  c ∈ contexts (geos w) → with_context (Some c) gave_up k w = k c w.
Proof. intros H. unfold with_context. rewrite decide_True; auto. Qed.

Lemma destroy_helper_run kind c h w :
  c ∈ contexts (geos w) → helper_ok w kind h →
  destroy_helper kind (Some c) h w
  = Ok tt (set_geos (set_helpers (release h)) w).
Proof.
  intros Hc Hh. unfold destroy_helper. rewrite with_context_live by done.
  destruct h as [a|]; simpl in *.
  - rewrite decide_True; auto.
  - destruct w as [? ? [] ? ?]; reflexivity.
Qed.

Lemma helper_ok_release w k1 k2 h1 h2 f :
  k1 ≠ k2 → helper_ok w k1 h1 → helper_ok w k2 h2 →
  helpers (geos (f w)) = release h1 (helpers (geos w)) →
  helper_ok (f w) k2 h2.
Proof.
  intros Hk H1 H2 Hf. destruct h2 as [b|]; [|exact I].
  simpl in *. rewrite Hf. destruct h1 as [a|]; simpl in *; [|done].
  rewrite lookup_delete_ne; [done|]. intros ->. congruence.
Qed.

(** ** Destruction of a factory *)

Lemma guarded_destroy_run kind (ev : pointer → pointer → event) c h w :
  c ∈ contexts (geos w) → helper_ok w kind h →
  (if non_null h
   then emit (ev (Some c) h);;; destroy_helper kind (Some c) h
   else ret tt) w
  = Ok tt (after_release (ev (Some c)) h w).
Proof.
  intros Hc Hh. destruct h as [a|]; [|reflexivity].
  cbn [non_null after_release]. unfold bind, emit.
  apply (destroy_helper_run kind c (Some a) (log _ w)); assumption.
Qed.

Lemma after_release_trace ev h w :
  trace (after_release ev h w) = trace w ++ call_if_present ev h.
Proof. destruct h; simpl; [reflexivity | by rewrite app_nil_r]. Qed.

Lemma after_release_helpers ev h w :
  helpers (geos (after_release ev h w)) = release h (helpers (geos w)).
Proof. destruct h; reflexivity. Qed.

Lemma after_release_frame ev h w :
  contexts (geos (after_release ev h w)) = contexts (geos w)
  ∧ geoms (geos (after_release ev h w)) = geoms (geos w)
  ∧ cmem (after_release ev h w) = cmem w
  ∧ objs (after_release ev h w) = objs w
  ∧ fates (after_release ev h w) = fates w.
Proof. destruct h; simpl; auto. Qed.

(** C7. Destroying a factory whose four helper handles are each either
    absent or alive does not fault: it destroys exactly the handles that
    are present, in the order WKT reader, WKB reader, WKT writer, WKB
    writer, then finishes the context, then frees the factory struct.
    Nothing else in the world changes. *)
Theorem destroy_factory_releases_in_order w p d c :
  cmem w !! p = Some (CFactoryData d) →
  f_geos_context d = Some c →
  c ∈ contexts (geos w) →
  helper_ok w WKTReader (wkt_reader d) →
  helper_ok w WKBReader (wkb_reader d) →
  helper_ok w WKTWriter (wkt_writer d) →
  helper_ok w WKBWriter (wkb_writer d) →
  ∃ w',
    destroy_factory_func (Some p) w = Ok tt w'
    ∧ trace w'
      = trace w
        ++ call_if_present (E_WKTReader_destroy (Some c)) (wkt_reader d)
        ++ call_if_present (E_WKBReader_destroy (Some c)) (wkb_reader d)
        ++ call_if_present (E_WKTWriter_destroy (Some c)) (wkt_writer d)
        ++ call_if_present (E_WKBWriter_destroy (Some c)) (wkb_writer d)
        ++ [E_finishGEOS (Some c); E_free (Some p)]
    ∧ helpers (geos w')
      = release (wkb_writer d) (release (wkt_writer d)
          (release (wkb_reader d) (release (wkt_reader d)
             (helpers (geos w)))))
    ∧ contexts (geos w') = contexts (geos w) ∖ {[c]}
    ∧ cmem w' = delete p (cmem w)
    ∧ objs w' = objs w
    ∧ geoms (geos w') = geoms (geos w).
Proof.
  intros Hp Hctx Hc H1 H2 H3 H4.
  set (w1 := after_release (E_WKTReader_destroy (Some c)) (wkt_reader d) w).
  set (w2 := after_release (E_WKBReader_destroy (Some c)) (wkb_reader d) w1).
  set (w3 := after_release (E_WKTWriter_destroy (Some c)) (wkt_writer d) w2).
  set (w4 := after_release (E_WKBWriter_destroy (Some c)) (wkb_writer d) w3).
  destruct (after_release_frame (E_WKTReader_destroy (Some c))
              (wkt_reader d) w) as (C1 & G1 & M1 & O1 & _).
  destruct (after_release_frame (E_WKBReader_destroy (Some c))
              (wkb_reader d) w1) as (C2 & G2 & M2 & O2 & _).
  destruct (after_release_frame (E_WKTWriter_destroy (Some c))
              (wkt_writer d) w2) as (C3 & G3 & M3 & O3 & _).
  destruct (after_release_frame (E_WKBWriter_destroy (Some c))
              (wkb_writer d) w3) as (C4 & G4 & M4 & O4 & _).
  fold w1 in C1, G1, M1, O1. fold w2 in C2, G2, M2, O2.
  fold w3 in C3, G3, M3, O3. fold w4 in C4, G4, M4, O4.
  assert (K2 : helper_ok w1 WKBReader (wkb_reader d)).
  { apply (helper_ok_release w WKTReader WKBReader (wkt_reader d));
      [done|done|done|apply after_release_helpers]. }
  assert (K3' : helper_ok w1 WKTWriter (wkt_writer d)).
  { apply (helper_ok_release w WKTReader WKTWriter (wkt_reader d));
      [done|done|done|apply after_release_helpers]. }
  assert (K4' : helper_ok w1 WKBWriter (wkb_writer d)).
  { apply (helper_ok_release w WKTReader WKBWriter (wkt_reader d));
      [done|done|done|apply after_release_helpers]. }
  assert (K3 : helper_ok w2 WKTWriter (wkt_writer d)).
  { apply (helper_ok_release w1 WKBReader WKTWriter (wkb_reader d));
      [done|done|done|apply after_release_helpers]. }
  assert (K4'' : helper_ok w2 WKBWriter (wkb_writer d)).
  { apply (helper_ok_release w1 WKBReader WKBWriter (wkb_reader d));
      [done|done|done|apply after_release_helpers]. }
  assert (K4 : helper_ok w3 WKBWriter (wkb_writer d)).
  { apply (helper_ok_release w2 WKTWriter WKBWriter (wkt_writer d));
      [done|done|done|apply after_release_helpers]. }
  assert (Hc1 : c ∈ contexts (geos w1)) by (rewrite C1; done).
  assert (Hc2 : c ∈ contexts (geos w2)) by (rewrite C2; done).
  assert (Hc3 : c ∈ contexts (geos w3)) by (rewrite C3; done).
  assert (Hc4 : c ∈ contexts (geos w4)) by (rewrite C4; done).
  assert (Hp4 : cmem w4 !! p = Some (CFactoryData d))
    by (rewrite M4, M3, M2, M1; done).
  exists (set_cmem (delete p)
            (log (E_free (Some p))
               (set_geos (set_contexts (λ s, s ∖ {[c]}))
                  (log (E_finishGEOS (Some c)) w4)))).
  split.
  - unfold destroy_factory_func.
    rewrite (bind_Ok _ _ w d w)
      by (unfold load_factory, load, bind; rewrite Hp; reflexivity).
    cbv zeta. rewrite Hctx.
    rewrite (bind_Ok _ _ w tt w1)
      by (apply (guarded_destroy_run WKTReader E_WKTReader_destroy); done).
    rewrite (bind_Ok _ _ w1 tt w2)
      by (apply (guarded_destroy_run WKBReader E_WKBReader_destroy); done).
    rewrite (bind_Ok _ _ w2 tt w3)
      by (apply (guarded_destroy_run WKTWriter E_WKTWriter_destroy); done).
    rewrite (bind_Ok _ _ w3 tt w4)
      by (apply (guarded_destroy_run WKBWriter E_WKBWriter_destroy); done).
    unfold finishGEOS_r, free, bind, emit.
    rewrite with_context_live by done.
    cbn [cmem log set_geos]. rewrite Hp4. reflexivity.
  - cbn [trace set_cmem log set_geos geos helpers contexts set_contexts
           cmem objs geoms].
    unfold w4, w3, w2, w1.
    rewrite !after_release_trace, !after_release_helpers.
    fold w1 w2 w3 w4. rewrite C4, C3, C2, C1, M4, M3, M2, M1.
    rewrite O4, O3, O2, O1, G4, G3, G2, G1.
    rewrite <- !app_assoc. repeat split; reflexivity.
Qed.

(** ** Construction and accessors *)

Lemma allocations_succeed_next n w :
  allocations_succeed (S n) w →
  next_fate w = true
  ∧ allocations_succeed n (set_fates (tail (fates w)) w).
Proof.
  unfold allocations_succeed, next_fate.
  destruct (fates w) as [|b l] eqn:E; simpl.
  - intros _. split; [reflexivity|]. by rewrite take_nil.
  - intros H. inversion H; subst. split; [reflexivity | assumption].
Qed.

Lemma accessor_pure (field : RGeo_FactoryData → Z) self :
  pure_call (let* p := RGEO_FACTORY_DATA_PTR self in
             let* d := load_factory p in
             ret (INT2NUM (field d))).
Proof.
  intros w. unfold bind, RGEO_FACTORY_DATA_PTR, DATA_PTR, load_factory, load.
  destruct self; try exact I.
  destruct (objs w !! a) as [[k []]|]; try exact I.
  unfold bind. destruct data as [q|]; [|exact I].
  destruct (cmem w !! q) as [[]|]; try exact I. reflexivity.
Qed.

Lemma accessor_run (field : RGeo_FactoryData → Z) w self p d :
  wraps_factory w self p d →
  (let* p := RGEO_FACTORY_DATA_PTR self in
   let* d := load_factory p in
   ret (INT2NUM (field d))) w = Ok (Integer (field d)) w.
Proof.
  intros (a & k & m & f & -> & Ho & Hc).
  unfold bind, RGEO_FACTORY_DATA_PTR, DATA_PTR, load_factory, load, bind.
  rewrite Ho. cbn. rewrite Hc. reflexivity.
Qed.

(** C9. For integers that fit a C [int], when the two allocations of
    [cmethod_factory_create] succeed and the class carries its
    [INTERNAL_CGLOBALS] constant, the call returns a factory on which
    [_flags], [_srid] and [_buffer_resolution] return exactly the three
    inputs; and the three accessors never change the world. *)
Theorem create_then_accessors (rb_to_integer : VALUE → M VALUE)
    w klass a k consts wrapped gp (fl sr br : Z) :
  klass = Object a →
  objs w !! a = Some {| basic_klass := k; body := BClass consts |} →
  consts !! "INTERNAL_CGLOBALS" = Some wrapped →
  is_data w wrapped gp →
  INT_MIN ≤ fl ≤ INT_MAX → INT_MIN ≤ sr ≤ INT_MAX →
  INT_MIN ≤ br ≤ INT_MAX →
  allocations_succeed 2 w →
  (∃ self w' p d,
     cmethod_factory_create rb_to_integer klass (Integer fl) (Integer sr)
       (Integer br) w
     = Ok self w'
     ∧ wraps_factory w' self p d
     ∧ method_factory_flags self w' = Ok (Integer fl) w'
     ∧ method_factory_srid self w' = Ok (Integer sr) w'
     ∧ method_factory_buffer_resolution self w' = Ok (Integer br) w')
  ∧ (∀ self, pure_call (method_factory_flags self)
             ∧ pure_call (method_factory_srid self)
             ∧ pure_call (method_factory_buffer_resolution self)).
Proof.
  intros -> Ha Hconst (g & kg & mg & fg & -> & Hg) Hfl Hsr Hbr Halloc.
  split; [|intros self; repeat split; apply accessor_pure].
  apply allocations_succeed_next in Halloc as [F1 Halloc].
  apply allocations_succeed_next in Halloc as [F2 _].
  unfold cmethod_factory_create.
  set (p := fresh (dom (cmem w))).
  set (w1 := set_cmem <[p := CRaw]> (set_fates (tail (fates w)) w)).
  rewrite (bind_Ok _ _ w (Some p) w1)
    by (unfold ALLOC; rewrite F1; reflexivity).
  cbn [non_null].
  set (c := fresh (contexts (geos w1))).
  set (w2 := log (E_initGEOS (Some c))
               (set_geos (set_contexts (union {[c]}))
                  (set_fates (tail (fates w1)) w1))).
  rewrite (bind_Ok _ _ w1 (Some c) w2)
    by (unfold initGEOS_r; fold c;
        change (next_fate w1) with
          (next_fate (set_fates (tail (fates w)) w));
        rewrite F2; reflexivity).
  cbn [non_null].
  rewrite (bind_Ok _ _ w2 (Object g) w2)
    by (unfold rb_const_get_at; cbn; rewrite Ha, Hconst; reflexivity).
  rewrite (bind_Ok _ _ w2 gp w2)
    by (unfold DATA_PTR; cbn; rewrite Hg; reflexivity).
  unfold NUM2INT, check_int. rewrite !decide_True by done.
  rewrite (bind_Ok _ _ w2 fl w2) by reflexivity.
  rewrite (bind_Ok _ _ w2 sr w2) by reflexivity.
  rewrite (bind_Ok _ _ w2 br w2) by reflexivity.
  set (d := {| globals := gp; f_geos_context := Some c; flags := fl;
               srid := sr; buffer_resolution := br; wkt_reader := NULL;
               wkb_reader := NULL; wkt_writer := NULL;
               wkb_writer := NULL |}).
  set (w3 := set_cmem <[p := CFactoryData d]> w2).
  rewrite (bind_Ok _ _ w2 tt w3)
    by (unfold store; cbn; rewrite lookup_insert_eq; reflexivity).
  set (self := fresh (dom (objs w3))).
  assert (Hw : wraps_factory
                 (set_objs <[self := {| basic_klass := Object a;
                                        body := BData FP_NULL
                                          FP_destroy_factory_func
                                          (Some p) |}]> w3)
                 (Object self) p d).
  { exists self, (Object a), FP_NULL, FP_destroy_factory_func.
    split; [reflexivity|]. cbn. rewrite !lookup_insert_eq. done. }
  eexists (Object self), _, p, d. split; [reflexivity|].
  split; [exact Hw|].
  split; [exact (accessor_run flags _ _ _ _ Hw)|].
  split; [exact (accessor_run srid _ _ _ _ Hw)|].
  exact (accessor_run buffer_resolution _ _ _ _ Hw).
Qed.

(** ** Wrapping a native geometry *)

Lemma bind_inv {A B} (m : M A) (k : A → M B) w b w2 :
  bind m k w = Ok b w2 → ∃ a w1, m w = Ok a w1 ∧ k a w1 = Ok b w2.
Proof.
  unfold bind. destruct (m w) as [a w1| |]; try discriminate. eauto.
Qed.

Lemma pure_call_Ok {A} (m : M A) w a w' :
  pure_call m → m w = Ok a w' → w' = w.
Proof. intros H E. specialize (H w). rewrite E in H. exact H. Qed.

Lemma TYPE_pure v : pure_call (TYPE v).
Proof.
  intros w. destruct v; try reflexivity. simpl.
  destruct (objs w !! a); [reflexivity | exact I].
Qed.

Lemma DATA_PTR_pure v : pure_call (DATA_PTR v).
Proof.
  intros w. destruct v; try exact I. simpl.
  destruct (objs w !! a) as [[k []]|]; try exact I. reflexivity.
Qed.

Lemma load_pure p : pure_call (load p).
Proof.
  intros w. destruct p as [a|]; [|exact I]. simpl.
  destruct (cmem w !! a); [reflexivity | exact I].
Qed.

Lemma load_factory_pure p : pure_call (load_factory p).
Proof.
  intros w. unfold load_factory, bind. pose proof (load_pure p w) as H.
  destruct (load p w) as [b w'| |]; try done. subst w'.
  destruct b; try exact I. reflexivity.
Qed.

Lemma load_globals_pure p : pure_call (load_globals p).
Proof.
  intros w. unfold load_globals, bind. pose proof (load_pure p w) as H.
  destruct (load p w) as [b w'| |]; try done. subst w'.
  destruct b; try exact I. reflexivity.
Qed.

Lemma TYPE_frame v w w1 ty :
  objs w1 = objs w → TYPE v w = Ok ty w → TYPE v w1 = Ok ty w1.
Proof.
  intros Ho. destruct v; simpl; try (intros [= <-]; reflexivity).
  rewrite Ho. destruct (objs w !! a); [|discriminate].
  intros [= <-]. reflexivity.
Qed.

Lemma DATA_PTR_run w v p :
  is_data w v p → DATA_PTR v w = Ok p w.
Proof. intros (a & k & m & f & -> & Ho). simpl. rewrite Ho. reflexivity. Qed.

Lemma load_factory_run w p d :
  cmem w !! p = Some (CFactoryData d) → load_factory (Some p) w = Ok d w.
Proof. intros H. unfold load_factory, load, bind. rewrite H. reflexivity. Qed.

Lemma load_globals_run w p g :
  cmem w !! p = Some (CGlobals g) → load_globals (Some p) w = Ok g w.
Proof. intros H. unfold load_globals, load, bind. rewrite H. reflexivity. Qed.

Lemma wraps_factory_is_data w self p d :
  wraps_factory w self p d → is_data w self (Some p).
Proof. intros (a & k & m & f & -> & Ho & _). exists a, k, m, f. auto. Qed.

Lemma inferred_klass_registry g t :
  inferred_klass g t
  = (registered_class g (kind_of_type_id t),
     collection_kind (kind_of_type_id t)).
Proof.
  destruct t as [|q|q]; try reflexivity.
  destruct q as [[[q|q|]|[q|q|]|]|[[q|q|]|[q|q|]|]|]; reflexivity.
Qed.

(** The tail of the wrap on a live geometry when the allocation
    succeeds. *)
Lemma wrap_tail_run w self p d c h gm klass klasses :
  cmem w !! p = Some (CFactoryData d) →
  c ∈ contexts (geos w) →
  geoms (geos w) !! h = Some gm →
  next_fate w = true →
  ∃ a q w',
    wrap_tail self (Some h) (Some p) (Some c) klass klasses w
    = Ok (Object a) w'
    ∧ objs w !! a = None
    ∧ cmem w !! q = None
    ∧ objs w' = <[a := wrapper_object klass q]> (objs w)
    ∧ cmem w'
      = <[q := CGeometryData
                 {| geom := Some h; geos_context := Some c;
                    factory := self; klasses := klasses |}]> (cmem w)
    ∧ geoms (geos w') = <[h := with_srid (srid d) gm]> (geoms (geos w))
    ∧ contexts (geos w') = contexts (geos w)
    ∧ helpers (geos w') = helpers (geos w)
    ∧ fates w' = tail (fates w)
    ∧ trace w' = trace w ++ [E_SetSRID (Some c) (Some h) (srid d)].
Proof.
  intros Hp Hc Hh Hfate. unfold wrap_tail.
  set (q := fresh (dom (cmem w))).
  assert (Hq : cmem w !! q = None)
    by (apply not_elem_of_dom, is_fresh).
  assert (Hqp : q ≠ p) by (intros ->; congruence).
  set (w1 := set_cmem <[q := CRaw]> (set_fates (tail (fates w)) w)).
  rewrite (bind_Ok _ _ w (Some q) w1)
    by (unfold ALLOC; rewrite Hfate; reflexivity).
  cbn [non_null].
  set (w2 := set_geos (set_geoms <[h := with_srid (srid d) gm]>)
               (log (E_SetSRID (Some c) (Some h) (srid d)) w1)).
  rewrite (bind_Ok _ _ w1 tt w2).
  2:{ rewrite (bind_Ok _ _ w1 d w1)
        by (apply load_factory_run; cbn; rewrite lookup_insert_ne; done).
      unfold GEOSSetSRID_r, bind, emit.
      rewrite with_context_live by done. cbn. rewrite Hh. reflexivity. }
  set (od := {| geom := Some h; geos_context := Some c; factory := self;
                klasses := klasses |}).
  set (w3 := set_cmem <[q := CGeometryData od]> w2).
  rewrite (bind_Ok _ _ w2 tt w3)
    by (unfold store; cbn; rewrite lookup_insert_eq; reflexivity).
  set (a := fresh (dom (objs w))).
  exists a, q, (set_objs <[a := wrapper_object klass q]> w3).
  split; [reflexivity|].
  split; [apply not_elem_of_dom, is_fresh|].
  split; [exact Hq|].
  cbn. rewrite insert_insert_eq. repeat split; reflexivity.
Qed.

(** The tail of the wrap when the allocation fails: [NoMemoryError], and
    nothing but the used-up allocation changes. *)
Lemma wrap_tail_fail w self geom fdp fctx klass klasses :
  next_fate w = false →
  wrap_tail self geom fdp fctx klass klasses w
  = Raise "NoMemoryError" (set_fates (tail (fates w)) w).
Proof.
  intros Hfate. unfold wrap_tail, bind, ALLOC. rewrite Hfate. reflexivity.
Qed.

(** Up to its [ALLOC], the wrap of a live geometry settles the class and
    the member classes, asking the engine for the kind unless the hint is
    a class. *)
Lemma wrap_prefix_run w self p d c g klass ty h gm :
  factory_ready w self p d c g →
  TYPE klass w = Ok ty w →
  geoms (geos w) !! h = Some gm →
  let k := kind_of_type_id (g_type gm) in
  let inferring := bool_decide (ty ≠ T_CLASS) in
  rgeo_wrap_geos_geometry self (Some h) klass w
  = wrap_tail self (Some h) (Some p) (Some c)
      (if inferring then registered_class g k else klass)
      (if inferring && bool_decide (ty = T_ARRAY) && collection_kind k
       then klass else Qnil)
      (if inferring then log (E_GeomTypeId (Some c) (Some h)) w else w).
Proof.
  intros (Hw & Hctx & Hc & gp & Hgp & Hg) Hty Hh k inferring.
  pose proof (wraps_factory_is_data _ _ _ _ Hw) as Hdata.
  destruct Hw as (a0 & k0 & m0 & f0 & -> & Ho & Hp).
  unfold rgeo_wrap_geos_geometry. cbn [non_null orb NIL_P].
  rewrite (bind_Ok _ _ w (Some p) w) by (apply DATA_PTR_run; done).
  cbn [non_null].
  rewrite (bind_Ok _ _ w (Some c) w)
    by (rewrite (bind_Ok _ _ w d w) by (apply load_factory_run; done);
        unfold ret; rewrite Hctx; reflexivity).
  rewrite (bind_Ok _ _ w ty w) by exact Hty.
  subst inferring. destruct (decide (ty ≠ T_CLASS)) as [Hn|Hn].
  - rewrite bool_decide_true by done. cbn [andb].
    set (w1 := log (E_GeomTypeId (Some c) (Some h)) w).
    rewrite (bind_Ok _ _ w
               (registered_class g k,
                if bool_decide (ty = T_ARRAY) && collection_kind k
                then klass else Qnil) w1); [reflexivity|].
    rewrite (bind_Ok _ _ w d w) by (apply load_factory_run; done).
    rewrite Hgp.
    rewrite (bind_Ok _ _ w g w) by (apply load_globals_run; done).
    rewrite (bind_Ok _ _ w (g_type gm) w1).
    2:{ unfold GEOSGeomTypeId_r, bind, emit.
        rewrite with_context_live by done. cbn. rewrite Hh.
        reflexivity. }
    rewrite inferred_klass_registry.
    rewrite (bind_Ok _ _ w1 ty w1) by (apply (TYPE_frame _ w); done).
    reflexivity.
  - rewrite bool_decide_false by done. cbn [andb].
    rewrite (bind_Ok _ _ w (klass, Qnil) w) by reflexivity.
    reflexivity.
Qed.

(** The successful path of [rgeo_wrap_geos_geometry] on a live geometry. *)
Lemma wrap_run w self p d c g klass ty h gm :
  factory_ready w self p d c g →
  TYPE klass w = Ok ty w →
  geoms (geos w) !! h = Some gm →
  next_fate w = true →
  let k := kind_of_type_id (g_type gm) in
  let inferring := bool_decide (ty ≠ T_CLASS) in
  ∃ a q w',
    rgeo_wrap_geos_geometry self (Some h) klass w = Ok (Object a) w'
    ∧ objs w !! a = None
    ∧ cmem w !! q = None
    ∧ objs w'
      = <[a := wrapper_object
                 (if inferring then registered_class g k else klass) q]>
          (objs w)
    ∧ cmem w'
      = <[q := CGeometryData
                 {| geom := Some h; geos_context := Some c;
                    factory := self;
                    klasses :=
                      if inferring && bool_decide (ty = T_ARRAY)
                         && collection_kind k
                      then klass else Qnil |}]> (cmem w)
    ∧ geoms (geos w') = <[h := with_srid (srid d) gm]> (geoms (geos w))
    ∧ contexts (geos w') = contexts (geos w)
    ∧ helpers (geos w') = helpers (geos w)
    ∧ fates w' = tail (fates w)
    ∧ trace w'
      = trace w
        ++ (if inferring then [E_GeomTypeId (Some c) (Some h)] else [])
        ++ [E_SetSRID (Some c) (Some h) (srid d)].
Proof.
  intros Hf Hty Hh Hfate k inferring.
  rewrite (wrap_prefix_run w self p d c g klass ty h gm Hf Hty Hh).
  destruct Hf as ((a0 & k0 & m0 & f0 & -> & Ho & Hp) & Hctx & Hc & _).
  fold k inferring.
  destruct inferring.
  - destruct (wrap_tail_run (log (E_GeomTypeId (Some c) (Some h)) w)
                (Object a0) p d c h gm (registered_class g k)
                (if true && bool_decide (ty = T_ARRAY) && collection_kind k
                 then klass else Qnil))
      as (a & q & w' & E & Ha & Hq & Eo & Em & Eg & Ec & Eh & Ef & Et);
      try done.
    exists a, q, w'. split; [exact E|]. rewrite Et.
    cbn [trace log]. rewrite <- app_assoc. repeat split; done.
  - destruct (wrap_tail_run w (Object a0) p d c h gm klass Qnil)
      as (a & q & w' & E & Hrest); try done.
    exists a, q, w'. split; [exact E|]. exact Hrest.
Qed.

(** The wrap of a live geometry when the allocation fails. *)
Lemma wrap_fail_run w self p d c g klass ty h gm :
  factory_ready w self p d c g →
  TYPE klass w = Ok ty w →
  geoms (geos w) !! h = Some gm →
  next_fate w = false →
  ∃ w',
    rgeo_wrap_geos_geometry self (Some h) klass w = Raise "NoMemoryError" w'
    ∧ objs w' = objs w ∧ cmem w' = cmem w ∧ geos w' = geos w
    ∧ fates w' = tail (fates w)
    ∧ trace w'
      = trace w ++ (if bool_decide (ty ≠ T_CLASS)
                    then [E_GeomTypeId (Some c) (Some h)] else []).
Proof.
  intros Hf Hty Hh Hfate.
  rewrite (wrap_prefix_run w self p d c g klass ty h gm Hf Hty Hh).
  cbv zeta. rewrite wrap_tail_fail
    by (destruct (bool_decide (ty ≠ T_CLASS)); exact Hfate).
  eexists. split; [reflexivity|].
  destruct (bool_decide (ty ≠ T_CLASS)); cbn;
    rewrite ?app_nil_r; repeat split; reflexivity.
Qed.

Section Preservation.

Context (R : world → world → Prop).
Hypothesis R_refl : ∀ w, R w w.
Hypothesis R_trans : ∀ w1 w2 w3, R w1 w2 → R w2 w3 → R w1 w3.

Lemma preserves_ret {A} (a : A) : preserves R (ret a).
Proof. intros w. apply R_refl. Qed.

Lemma preserves_fault {A} : preserves R (@fault A).
Proof. intros w. exact I. Qed.

Lemma preserves_pure {A} (m : M A) : pure_call m → preserves R m.
Proof.
  intros H w. specialize (H w). destruct (m w); try done.
  subst. apply R_refl.
Qed.

Lemma preserves_bind {A B} (m : M A) (k : A → M B) :
  preserves R m → (∀ a, preserves R (k a)) → preserves R (bind m k).
Proof.
  intros Hm Hk w. unfold bind. specialize (Hm w).
  destruct (m w) as [a w1|exc w1|]; try done.
  specialize (Hk a w1). destruct (k a w1); try done; eauto.
Qed.

Lemma preserves_Ok {A} (m : M A) w a w' :
  preserves R m → m w = Ok a w' → R w w'.
Proof. intros H E. specialize (H w). rewrite E in H. exact H. Qed.

End Preservation.

Lemma no_srid_assignment_refl w : no_srid_assignment w w.
Proof. split; reflexivity. Qed.

Lemma no_srid_assignment_trans w1 w2 w3 :
  no_srid_assignment w1 w2 → no_srid_assignment w2 w3 →
  no_srid_assignment w1 w3.
Proof. intros [A1 B1] [A2 B2]. split; congruence. Qed.



Lemma GEOSGeomTypeId_r_log context g w t w' :
  GEOSGeomTypeId_r context g w = Ok t w' →
  w' = log (E_GeomTypeId context g) w.
Proof.
  unfold GEOSGeomTypeId_r, bind, emit, with_context.
  destruct context as [c|]; [|intros [= _ <-]; reflexivity].
  destruct (decide _); [|discriminate].
  destruct g as [h|]; [|discriminate]. cbn.
  destruct (geoms (geos w) !! h); [|discriminate].
  intros [= _ <-]. reflexivity.
Qed.

Lemma GEOSGeomTypeId_r_preserves R context g :
  (∀ w, R w (log (E_GeomTypeId context g) w)) →
  preserves R (GEOSGeomTypeId_r context g).
Proof.
  intros HR w.
  destruct (GEOSGeomTypeId_r context g w) as [t w'|exc w'|] eqn:E;
    [|exfalso|exact I].
  - apply GEOSGeomTypeId_r_log in E as ->. apply HR.
  - revert E. unfold GEOSGeomTypeId_r, bind, emit, with_context.
    destruct context as [c|]; [|discriminate].
    destruct (decide _); [|discriminate].
    destruct g as [h|]; [|discriminate]. cbn.
    destruct (geoms (geos w) !! h); discriminate.
Qed.

Lemma ALLOC_no_srid_assignment : preserves no_srid_assignment ALLOC.
Proof. intros w. unfold ALLOC. destruct (next_fate w); split; reflexivity. Qed.

Lemma store_no_srid_assignment p b : preserves no_srid_assignment (store p b).
Proof.
  intros w. unfold store. destruct p as [a|]; [|exact I].
  destruct (cmem w !! a); [split; reflexivity | exact I].
Qed.

Lemma Data_Wrap_Struct_no_srid_assignment k m f p :
  preserves no_srid_assignment (Data_Wrap_Struct k m f p).
Proof. intros w. split; reflexivity. Qed.


(** C3. When the class hint is not a class, the wrapper made for a live
    geometry gets the class registered for the geometry's kind, the kind
    being asked of the engine: the classes of Point, LineString,
    LinearRing, Polygon, MultiPoint, MultiLineString, MultiPolygon and
    GeometryCollection for their type ids, the generic class for any other
    id.  A hint that is an array is kept as the wrapper's member classes
    exactly when the kind is one of the four collection kinds; otherwise
    the member classes are nil. *)
Theorem wrap_infers_class w self p d c g klass ty h gm :
  factory_ready w self p d c g →
  TYPE klass w = Ok ty w →
  ty ≠ T_CLASS →
  geoms (geos w) !! h = Some gm →
  next_fate w = true →
  let t := g_type gm in
  ∃ a q od w',
    rgeo_wrap_geos_geometry self (Some h) klass w = Ok (Object a) w'
    ∧ objs w !! a = None
    ∧ objs w' !! a
      = Some (wrapper_object (registered_class g (kind_of_type_id t)) q)
    ∧ cmem w' !! q = Some (CGeometryData od)
    ∧ geom od = Some h
    ∧ factory od = self
    ∧ E_GeomTypeId (Some c) (Some h) ∈ trace w'
    ∧ (let K := registered_class g (kind_of_type_id t) in
       (t = GEOS_POINT → K = geos_point g)
       ∧ (t = GEOS_LINESTRING → K = geos_line_string g)
       ∧ (t = GEOS_LINEARRING → K = geos_linear_ring g)
       ∧ (t = GEOS_POLYGON → K = geos_polygon g)
       ∧ (t = GEOS_MULTIPOINT → K = geos_multi_point g)
       ∧ (t = GEOS_MULTILINESTRING → K = geos_multi_line_string g)
       ∧ (t = GEOS_MULTIPOLYGON → K = geos_multi_polygon g)
       ∧ (t = GEOS_GEOMETRYCOLLECTION → K = geos_geometry_collection g)
       ∧ (t < GEOS_POINT ∨ GEOS_GEOMETRYCOLLECTION < t →
          K = geos_geometry g))
    ∧ (ty = T_ARRAY →
       (klasses od = klass
        ↔ t ∈ [GEOS_MULTIPOINT; GEOS_MULTILINESTRING; GEOS_MULTIPOLYGON;
               GEOS_GEOMETRYCOLLECTION]))
    ∧ (klasses od ≠ klass → klasses od = Qnil)
    ∧ (ty ≠ T_ARRAY → klasses od = Qnil).
Proof.
  intros Hf Hty Hn Hh Hfate t.
  destruct (wrap_run w self p d c g klass ty h gm Hf Hty Hh Hfate)
    as (a & q & w' & E & Ha & Hq & Eo & Em & _ & _ & _ & _ & Et).
  rewrite !bool_decide_true in * by done. cbn [andb] in *.
  fold t in Eo, Em.
  eexists a, q, _, w'. split; [exact E|]. split; [exact Ha|].
  split; [rewrite Eo, lookup_insert_eq; reflexivity|].
  split; [rewrite Em, lookup_insert_eq; reflexivity|].
  cbn [geom factory klasses].
  split; [reflexivity|]. split; [reflexivity|].
  split; [rewrite Et; set_solver|].
  split.
  { cbv zeta. unfold GEOS_POINT, GEOS_GEOMETRYCOLLECTION.
    repeat split; try (intros ->; reflexivity).
    intros Ht. unfold kind_of_type_id.
    repeat match goal with
           | |- context [(t =? ?x)] =>
             destruct (Z.eqb_spec t x) as [He|_];
             [unfold GEOS_POINT, GEOS_LINESTRING, GEOS_LINEARRING,
                GEOS_POLYGON, GEOS_MULTIPOINT, GEOS_MULTILINESTRING,
                GEOS_MULTIPOLYGON, GEOS_GEOMETRYCOLLECTION in He; lia|]
           end.
    reflexivity. }
  assert (Hcoll : collection_kind (kind_of_type_id t) = true
                  ↔ t ∈ [GEOS_MULTIPOINT; GEOS_MULTILINESTRING;
                         GEOS_MULTIPOLYGON; GEOS_GEOMETRYCOLLECTION]).
  { rewrite !elem_of_cons, elem_of_nil. unfold kind_of_type_id.
    unfold GEOS_POINT, GEOS_LINESTRING, GEOS_LINEARRING,
      GEOS_POLYGON, GEOS_MULTIPOINT, GEOS_MULTILINESTRING,
      GEOS_MULTIPOLYGON, GEOS_GEOMETRYCOLLECTION.
    repeat match goal with
           | |- context [(t =? ?x)] => destruct (Z.eqb_spec t x)
           end; cbn [collection_kind]; split; intros H;
      try discriminate; try lia; auto 6. }
  split; [|split].
  - intros ->. rewrite bool_decide_true by done. cbn [andb].
    rewrite <- Hcoll. destruct (collection_kind _); [done|].
    split; [|discriminate]. intros <-. discriminate Hty.
  - destruct (_ && _); [congruence | reflexivity].
  - intros Hna. rewrite bool_decide_false by done. reflexivity.
Qed.

Lemma log_no_srid_assignment ev w :
  is_SetSRID ev = false → no_srid_assignment w (log ev w).
Proof.
  intros H. split; [reflexivity|]. cbn [trace log].
  rewrite List.filter_app. cbn [List.filter]. rewrite H.
  apply app_nil_r.
Qed.

Lemma wrap_null_no_srid_assignment factory klass :
  preserves no_srid_assignment (rgeo_wrap_geos_geometry factory NULL klass).
Proof.
  pose proof no_srid_assignment_refl as Hr.
  pose proof no_srid_assignment_trans as Ht.
  unfold rgeo_wrap_geos_geometry. cbn [non_null orb].
  destruct (negb (NIL_P klass)); [|by apply preserves_ret].
  apply preserves_bind; [done| |intros factory_data].
  { destruct (NIL_P factory); [by apply preserves_ret|].
    apply preserves_pure; [done | apply DATA_PTR_pure]. }
  apply preserves_bind; [done| |intros factory_context].
  { destruct (non_null factory_data); [|by apply preserves_ret].
    apply preserves_bind; [done| |intros d; by apply preserves_ret].
    apply preserves_pure; [done | apply load_factory_pure]. }
  apply preserves_bind; [done| |intros ty].
  { apply preserves_pure; [done | apply TYPE_pure]. }
  apply preserves_bind; [done| |intros [k ks]].
  { destruct (decide (ty ≠ T_CLASS)); [|by apply preserves_ret].
    apply preserves_bind; [done| |intros d].
    { apply preserves_pure; [done | apply load_factory_pure]. }
    apply preserves_bind; [done| |intros gl].
    { apply preserves_pure; [done | apply load_globals_pure]. }
    apply preserves_bind; [done| |intros t].
    { apply GEOSGeomTypeId_r_preserves. intros w.
      by apply log_no_srid_assignment. }
    destruct (inferred_klass gl t).
    apply preserves_bind; [done| |intros t'; by apply preserves_ret].
    apply preserves_pure; [done | apply TYPE_pure]. }
  apply preserves_bind; [done|apply ALLOC_no_srid_assignment|intros data].
  destruct (non_null data); [|by apply preserves_ret].
  apply preserves_bind; [done|by apply preserves_ret|intros _].
  apply preserves_bind; [done|apply store_no_srid_assignment|intros _].
  apply Data_Wrap_Struct_no_srid_assignment.
Qed.

(** C5. Wrapping a live geometry for a ready factory sets the geometry's
    SRID to the SRID of the wrapping factory, whatever it was, by a
    [GEOSSetSRID_r] call that is the last engine call of the wrap; the rest
    of the geometry is untouched.  This holds of every call that returns:
    a call returns exactly when its storage is allocated, and the only
    other way out is the [NoMemoryError] of [ALLOC], raised before the
    assignment, which leaves the engine as it was.  Wrapping the null
    handle changes no geometry and calls [GEOSSetSRID_r] not at all,
    whichever way the call ends. *)
Theorem wrap_sets_factory_srid w self p d c g klass ty h gm :
  factory_ready w self p d c g →
  TYPE klass w = Ok ty w →
  geoms (geos w) !! h = Some gm →
  (next_fate w = true →
   ∃ a w' gm',
     rgeo_wrap_geos_geometry self (Some h) klass w = Ok (Object a) w'
     ∧ geoms (geos w') !! h = Some gm'
     ∧ g_srid gm' = srid d
     ∧ g_type gm' = g_type gm
     ∧ g_coord_seq gm' = g_coord_seq gm
     ∧ last (trace w') = Some (E_SetSRID (Some c) (Some h) (srid d)))
  ∧ (∀ v w',
       rgeo_wrap_geos_geometry self (Some h) klass w = Ok v w' →
       geoms (geos w') !! h = Some (with_srid (srid d) gm)
       ∧ last (trace w') = Some (E_SetSRID (Some c) (Some h) (srid d)))
  ∧ (next_fate w = false →
     ∃ w',
       rgeo_wrap_geos_geometry self (Some h) klass w
       = Raise "NoMemoryError" w'
       ∧ geos w' = geos w)
  ∧ (∀ factory klass,
       preserves no_srid_assignment
         (rgeo_wrap_geos_geometry factory NULL klass)).
Proof.
  intros Hf Hty Hh.
  assert (Hrun : next_fate w = true →
            ∃ a w',
              rgeo_wrap_geos_geometry self (Some h) klass w
              = Ok (Object a) w'
              ∧ geoms (geos w') !! h = Some (with_srid (srid d) gm)
              ∧ last (trace w')
                = Some (E_SetSRID (Some c) (Some h) (srid d))).
  { intros Hfate.
    destruct (wrap_run w self p d c g klass ty h gm Hf Hty Hh Hfate)
      as (a & q & w' & E & _ & _ & _ & _ & Eg & _ & _ & _ & Et).
    exists a, w'. split; [exact E|].
    split; [rewrite Eg; apply lookup_insert_eq|].
    rewrite Et, app_assoc. apply last_snoc. }
  assert (Hfail : next_fate w = false →
            ∃ w',
              rgeo_wrap_geos_geometry self (Some h) klass w
              = Raise "NoMemoryError" w'
              ∧ geos w' = geos w).
  { intros Hfate.
    destruct (wrap_fail_run w self p d c g klass ty h gm Hf Hty Hh Hfate)
      as (w' & E & _ & _ & Eg & _).
    exists w'. split; [exact E | exact Eg]. }
  split; [|split; [|split; [exact Hfail
                           |apply wrap_null_no_srid_assignment]]].
  - intros Hfate. destruct (Hrun Hfate) as (a & w' & E & Hg & Ht).
    exists a, w', (with_srid (srid d) gm). split; [exact E|].
    split; [exact Hg|]. repeat (split; [reflexivity|]). exact Ht.
  - intros v w' E. destruct (next_fate w) eqn:Hfate.
    + destruct (Hrun eq_refl) as (a & w1 & E1 & Hg & Ht).
      rewrite E1 in E. injection E as <- <-. split; [exact Hg | exact Ht].
    + destruct (Hfail eq_refl) as (w1 & E1 & _).
      rewrite E1 in E. discriminate E.
Qed.




(** ** Detaching a native geometry *)

Section Detach.

Context (rb_funcall : VALUE → string → list VALUE → M VALUE).

(** C2. When the coercion yields a wrapped geometry, the call returns the
    wrapper's native handle and reports, if the caller asked for them, the
    wrapper's member classes, or the wrapper's own class when the member
    classes are nil; it leaves the wrapper's struct with a null handle, a
    null context, a nil factory and nil member classes, and changes
    nothing else in the world the coercion left. *)
Theorem detach_strips_wrapper w w1 obj self type klasses_out
    p d gp g a k m f q od :
  wraps_factory w self p d →
  globals d = Some gp →
  cmem w !! gp = Some (CGlobals g) →
  rb_funcall (feature_module g) "cast" (cast_args obj self type) w
  = Ok (Object a) w1 →
  objs w1 !! a = Some {| basic_klass := k; body := BData m f (Some q) |} →
  cmem w1 !! q = Some (CGeometryData od) →
  ∃ w',
    rgeo_convert_to_detached_geos_geometry rb_funcall obj self type
      klasses_out w
    = Ok (geom od,
          match klasses_out with
          | Some _ => Some (if NIL_P (klasses od) then k else klasses od)
          | None => None
          end) w'
    ∧ cmem w'
      = <[q := CGeometryData
                 {| geom := NULL; geos_context := NULL;
                    factory := Qnil; klasses := Qnil |}]> (cmem w1)
    ∧ objs w' = objs w1
    ∧ geos w' = geos w1
    ∧ fates w' = fates w1
    ∧ trace w' = trace w1.
Proof.
  intros Hw Hgp Hg Hcast Ha Hq.
  pose proof (wraps_factory_is_data _ _ _ _ Hw) as Hdata.
  destruct Hw as (a0 & k0 & m0 & f0 & -> & Ho & Hp).
  unfold rgeo_convert_to_detached_geos_geometry.
  rewrite (bind_Ok _ _ w (Some p) w) by (apply DATA_PTR_run; done).
  rewrite (bind_Ok _ _ w d w) by (apply load_factory_run; done).
  rewrite Hgp.
  rewrite (bind_Ok _ _ w g w) by (apply load_globals_run; done).
  rewrite (bind_Ok _ _ w (Object a) w1) by exact Hcast.
  cbn [NIL_P negb].
  rewrite (bind_Ok _ _ w1 (Some q) w1)
    by (unfold RGEO_GEOMETRY_DATA_PTR, DATA_PTR; rewrite Ha; reflexivity).
  rewrite (bind_Ok _ _ w1 od w1)
    by (unfold load_geometry, load, bind; rewrite Hq; reflexivity).
  cbv zeta.
  eexists. split.
  - rewrite (bind_Ok _ _ w1
               (match klasses_out with
                | Some _ => Some (if NIL_P (klasses od) then k
                                  else klasses od)
                | None => None
                end) w1).
    2:{ destruct klasses_out; [|reflexivity].
        destruct (NIL_P (klasses od)); [|reflexivity].
        unfold bind, CLASS_OF. rewrite Ha. reflexivity. }
    unfold bind, store. rewrite Hq. reflexivity.
  - cbn. repeat split; reflexivity.
Qed.

(** C10. When the coercion yields nil, the call returns the null handle;
    the caller's member-classes variable, if there is one, holds nil
    whatever it held before; and the world is the one the coercion left:
    no wrapper is stripped. *)
Theorem detach_coercion_failed w w1 obj self type klasses_out p d gp g :
  wraps_factory w self p d →
  globals d = Some gp →
  cmem w !! gp = Some (CGlobals g) →
  rb_funcall (feature_module g) "cast" (cast_args obj self type) w
  = Ok Qnil w1 →
  rgeo_convert_to_detached_geos_geometry rb_funcall obj self type
    klasses_out w
  = Ok (NULL, match klasses_out with Some _ => Some Qnil | None => None end)
       w1.
Proof.
  intros Hw Hgp Hg Hcast.
  pose proof (wraps_factory_is_data _ _ _ _ Hw) as Hdata.
  destruct Hw as (a0 & k0 & m0 & f0 & -> & Ho & Hp).
  unfold rgeo_convert_to_detached_geos_geometry.
  rewrite (bind_Ok _ _ w (Some p) w) by (apply DATA_PTR_run; done).
  rewrite (bind_Ok _ _ w d w) by (apply load_factory_run; done).
  rewrite Hgp.
  rewrite (bind_Ok _ _ w g w) by (apply load_globals_run; done).
  rewrite (bind_Ok _ _ w Qnil w1) by exact Hcast.
  reflexivity.
Qed.

End Detach.

(** ** Parsing *)

Lemma factory_ready_grows w w' self p d c g :
  grows w w' → factory_ready w self p d c g → factory_ready w' self p d c g.
Proof.
  intros (Ho & Hm & Hc & _ & _ & _)
         ((a & k & m & f & -> & Ha & Hp) & Hctx & Hlive & gp & Hgp & Hg).
  split; [|split; [exact Hctx|split]].
  - exists a, k, m, f. split; [reflexivity|].
    split; eapply lookup_weaken; eauto.
  - rewrite Hc. exact Hlive.
  - exists gp. split; [exact Hgp|]. eapply lookup_weaken; eauto.
Qed.

Lemma is_string_weaken w w' v s :
  objs w ⊆ objs w' → is_string w v s → is_string w' v s.
Proof.
  intros Ho (a & k & -> & Ha). exists a, k. split; [reflexivity|].
  eapply lookup_weaken; eauto.
Qed.

(** Wrapping a live geometry for a ready factory never faults: it returns,
    or [ALLOC] raises; either way the world only grows. *)
Lemma wrap_total w self p d c g klass ty h gm :
  factory_ready w self p d c g →
  TYPE klass w = Ok ty w →
  geoms (geos w) !! h = Some gm →
  ∃ w', ends_in (rgeo_wrap_geos_geometry self (Some h) klass w) w'
        ∧ grows w w'.
Proof.
  intros Hf Hty Hh. destruct (next_fate w) eqn:Hfate.
  - destruct (wrap_run w self p d c g klass ty h gm Hf Hty Hh Hfate)
      as (a & q & w' & E & Ha & Hq & Eo & Em & _ & Ec & Ehp & _ & Et).
    exists w'. split; [left; exists (Object a); exact E|].
    split; [rewrite Eo; by apply insert_subseteq|].
    split; [rewrite Em; by apply insert_subseteq|].
    split; [exact Ec|]. split; [exact Ehp|].
    rewrite Et, !List.filter_app.
    split; [|intros ev Hev; apply elem_of_app; auto].
    destruct (bool_decide (ty ≠ T_CLASS)); cbn; by rewrite ?app_nil_r.
  - destruct (wrap_fail_run w self p d c g klass ty h gm Hf Hty Hh Hfate)
      as (w' & E & Eo & Em & Eg & _ & Et).
    exists w'. split; [right; exact E|].
    split; [by rewrite Eo|]. split; [by rewrite Em|].
    rewrite Eg. split; [reflexivity|]. split; [reflexivity|].
    rewrite Et, List.filter_app.
    split; [|intros ev Hev; apply elem_of_app; auto].
    destruct (bool_decide (ty ≠ T_CLASS)); cbn; by rewrite ?app_nil_r.
Qed.

Section Parse.

Context (kind : helper_kind) (grammar : string → option geometry)
  (reader_of : RGeo_FactoryData → pointer)
  (set_reader : pointer → RGeo_FactoryData → RGeo_FactoryData)
  (create_ev : pointer → pointer → event)
  (read_ev : pointer → pointer → string → pointer → event)
  (input_of : string → string).

Hypothesis reader_of_set : ∀ r d, reader_of (set_reader r d) = r.
Hypothesis context_set :
  ∀ r d, f_geos_context (set_reader r d) = f_geos_context d.
Hypothesis globals_set : ∀ r d, globals (set_reader r d) = globals d.
Hypothesis create_ev_create : ∀ c r, is_reader_create (create_ev c r) = true.
Hypothesis read_ev_no_create :
  ∀ c r s gh, is_reader_create (read_ev c r s gh) = false.

Abbreviation parse_ :=
  (parse_with_reader kind grammar reader_of set_reader create_ev read_ev
     input_of).
Abbreviation settled_ := (settled kind reader_of set_reader create_ev).
Abbreviation after_read_ := (after_read grammar read_ev).
Abbreviation cached_data_ := (cached_data reader_of set_reader).

Lemma parse_run w self str p d c g text :
  factory_ready w self p d c g →
  helper_ok w kind (reader_of d) →
  is_string w str text →
  parse_ self str w
  = let '(r, w1) := settled_ w p c d in
    if non_null r then
      let '(gh, w2) := after_read_ w1 c r (input_of text) in
      if non_null gh
      then rgeo_wrap_geos_geometry self gh Qnil w2
      else Ok Qnil w2
    else Ok Qnil w1.
Proof.
  intros (Hw & Hctx & Hc & gp & Hgp & Hg) Hh (s & ks & -> & Hs).
  pose proof (wraps_factory_is_data _ _ _ _ Hw) as Hdata.
  destruct Hw as (a0 & k0 & m0 & f0 & -> & Ho & Hp).
  unfold parse_with_reader.
  rewrite (bind_Ok _ _ w tt w)
    by (unfold Check_Type, bind, TYPE; rewrite Hs; reflexivity).
  rewrite (bind_Ok _ _ w (Some p) w) by (apply DATA_PTR_run; done).
  rewrite (bind_Ok _ _ w d w) by (apply load_factory_run; done).
  cbv zeta. rewrite Hctx.
  assert (Hsettle :
    (if negb (non_null (reader_of d))
     then let* r := create_helper kind (Some c) (create_ev (Some c)) in
          store (Some p) (CFactoryData (set_reader r d));;; ret r
     else ret (reader_of d)) w
    = Ok (settled_ w p c d).1 (settled_ w p c d).2).
  { unfold settled. destruct (reader_of d) as [r|]; [reflexivity|].
    cbn [non_null negb]. unfold bind, create_helper.
    rewrite with_context_live by done.
    destruct (next_fate w); cbn; unfold store; cbn; rewrite Hp;
      reflexivity. }
  rewrite (bind_Ok _ _ _ _ _ Hsettle).
  assert (Hfacts :
    objs (settled_ w p c d).2 = objs w
    ∧ contexts (geos (settled_ w p c d).2) = contexts (geos w)
    ∧ helper_ok (settled_ w p c d).2 kind (settled_ w p c d).1).
  { unfold settled. destruct (reader_of d) as [r|] eqn:Er; [done|].
    destruct (next_fate w); cbn; [|done].
    repeat split. apply lookup_insert_eq. }
  destruct (settled_ w p c d) as [r w1]. cbn [fst snd] in *.
  destruct Hfacts as (Eo & Ec & Hr).
  destruct r as [r|]; [|reflexivity]. cbn [non_null].
  rewrite (bind_Ok _ _ w1 text w1)
    by (unfold RSTRING; rewrite Eo, Hs; reflexivity).
  assert (Hread :
    read_with kind grammar (Some c) (Some r) (input_of text)
      (read_ev (Some c) (Some r) (input_of text)) w1
    = Ok (after_read_ w1 c (Some r) (input_of text)).1
         (after_read_ w1 c (Some r) (input_of text)).2).
  { unfold read_with, after_read.
    rewrite with_context_live by (rewrite Ec; done).
    rewrite decide_True by exact Hr.
    destruct (grammar (input_of text)); reflexivity. }
  rewrite (bind_Ok _ _ _ _ _ Hread).
  destruct (after_read_ w1 c (Some r) (input_of text)) as [gh w2].
  cbn [fst snd]. destruct gh; reflexivity.
Qed.

Lemma settled_facts w self p d c g :
  factory_ready w self p d c g →
  helper_ok w kind (reader_of d) →
  let r := (settled_ w p c d).1 in
  let w1 := (settled_ w p c d).2 in
  factory_ready w1 self p (cached_data_ r d) c g
  ∧ reader_of (cached_data_ r d) = r
  ∧ helper_ok w1 kind r
  ∧ objs w1 = objs w
  ∧ geoms (geos w1) = geoms (geos w)
  ∧ (∀ ev, ev ∈ trace w → ev ∈ trace w1)
  ∧ (∀ r', reader_of d = Some r' → r = Some r' ∧ w1 = w)
  ∧ (reader_of d = NULL →
     fates w1 = tail (fates w)
     ∧ List.filter is_reader_create (trace w1)
       = List.filter is_reader_create (trace w) ++ [create_ev (Some c) r]
     ∧ if next_fate w
       then ∃ h, r = Some h ∧ helpers (geos w) !! h = None
       else r = NULL).
Proof.
  intros Hf Hh. unfold settled, cached_data.
  destruct (reader_of d) as [r0|] eqn:Er; cbn [fst snd].
  { do 5 (split; [done|]). split; [auto|].
    split; [intros r' [= <-]; done | discriminate]. }
  destruct Hf as ((a & k & m & f & -> & Ha & Hp) & Hctx & Hc & gp & Hgp & Hg).
  assert (Hne : gp ≠ p) by (intros ->; congruence).
  set (r := if next_fate w
            then Some (fresh (dom (helpers (geos w)))) else NULL).
  assert (Hready : ∀ w1,
            objs w1 = objs w → contexts (geos w1) = contexts (geos w) →
            cmem w1 = <[p := CFactoryData (set_reader r d)]> (cmem w) →
            factory_ready w1 (Object a) p (set_reader r d) c g).
  { intros w1 Eo Ec Em. split; [|split; [|split]].
    - exists a, k, m, f. rewrite Eo, Em, lookup_insert_eq. done.
    - rewrite context_set. exact Hctx.
    - rewrite Ec. exact Hc.
    - exists gp. rewrite globals_set, Em, lookup_insert_ne by done. done. }
  split; [apply Hready; subst r; destruct (next_fate w); reflexivity|].
  split; [apply reader_of_set|].
  assert (Hfilter : ∀ l ev,
            is_reader_create ev = true →
            List.filter is_reader_create (l ++ [ev])
            = List.filter is_reader_create l ++ [ev]).
  { intros l ev Hev. rewrite List.filter_app. cbn. by rewrite Hev. }
  subst r. destruct (next_fate w); cbn.
  - split; [apply lookup_insert_eq|].
    do 2 (split; [reflexivity|]).
    split; [intros ev Hev; apply elem_of_app; auto|].
    split; [discriminate|]. intros _.
    split; [reflexivity|]. split; [apply Hfilter, create_ev_create|].
    eexists. split; [reflexivity|]. apply not_elem_of_dom, is_fresh.
  - split; [exact I|].
    do 2 (split; [reflexivity|]).
    split; [intros ev Hev; apply elem_of_app; auto|].
    split; [discriminate|]. intros _.
    split; [reflexivity|]. split; [apply Hfilter, create_ev_create|].
    reflexivity.
Qed.

Lemma after_read_facts w1 self p d c g r input :
  factory_ready w1 self p d c g →
  let gh := (after_read_ w1 c r input).1 in
  let w2 := (after_read_ w1 c r input).2 in
  factory_ready w2 self p d c g
  ∧ objs w2 = objs w1
  ∧ helpers (geos w2) = helpers (geos w1)
  ∧ fates w2 = fates w1
  ∧ List.filter is_reader_create (trace w2)
    = List.filter is_reader_create (trace w1)
  ∧ (∀ ev, ev ∈ trace w1 → ev ∈ trace w2)
  ∧ read_ev (Some c) r input gh ∈ trace w2
  ∧ match grammar input with
    | None => gh = NULL
    | Some gm => ∃ h, gh = Some h ∧ geoms (geos w1) !! h = None
                      ∧ geoms (geos w2) !! h = Some gm
    end.
Proof.
  intros Hf. unfold after_read.
  assert (Hready : ∀ w2,
            objs w2 = objs w1 → cmem w2 = cmem w1 →
            contexts (geos w2) = contexts (geos w1) →
            factory_ready w2 self p d c g).
  { intros w2 Eo Em Ec.
    destruct Hf as ((a & k & m & f & -> & Ha & Hp) & Hctx & Hc
                    & gp & Hgp & Hg).
    split; [|split; [|split]].
    - exists a, k, m, f. rewrite Eo, Em. done.
    - exact Hctx.
    - rewrite Ec. exact Hc.
    - exists gp. rewrite Em. done. }
  assert (Hfilter : ∀ l ev,
            is_reader_create ev = false →
            List.filter is_reader_create (l ++ [ev])
            = List.filter is_reader_create l).
  { intros l ev Hev. rewrite List.filter_app. cbn.
    by rewrite Hev, app_nil_r. }
  destruct (grammar input) as [gm|]; cbn [fst snd].
  - split; [by apply Hready|].
    do 3 (split; [reflexivity|]).
    split; [apply Hfilter, read_ev_no_create|].
    split; [intros ev Hev; apply elem_of_app; auto|].
    split; [apply elem_of_app; right; apply list_elem_of_singleton;
            reflexivity|].
    eexists. split; [reflexivity|].
    split; [apply not_elem_of_dom, is_fresh | apply lookup_insert_eq].
  - split; [by apply Hready|].
    do 3 (split; [reflexivity|]).
    split; [apply Hfilter, read_ev_no_create|].
    split; [intros ev Hev; apply elem_of_app; auto|].
    split; [apply elem_of_app; right; apply list_elem_of_singleton;
            reflexivity|].
    reflexivity.
Qed.

(** No call of a parse method on a ready factory faults: it returns, or
    the [ALLOC] of the wrap raises. *)
Lemma parse_total w self str p d c g text :
  factory_ready w self p d c g →
  helper_ok w kind (reader_of d) →
  is_string w str text →
  let r := (settled_ w p c d).1 in
  let w1 := (settled_ w p c d).2 in
  ∃ w',
    ends_in (parse_ self str w) w'
    ∧ factory_ready w' self p (cached_data_ r d) c g
    ∧ helper_ok w' kind r
    ∧ objs w ⊆ objs w'
    ∧ List.filter is_reader_create (trace w')
      = List.filter is_reader_create (trace w1)
    ∧ (∀ rr, r = Some rr →
       ∃ gh, read_ev (Some c) r (input_of text) gh ∈ trace w')
    ∧ (r = NULL ∨ grammar (input_of text) = None →
       parse_ self str w = Ok Qnil w').
Proof.
  intros Hf Hh Hs.
  rewrite (parse_run w self str p d c g text Hf Hh Hs).
  pose proof (settled_facts w self p d c g Hf Hh) as Hsettled.
  destruct (settled_ w p c d) as [r w1]. cbn [fst snd] in *.
  destruct Hsettled as (Hf1 & Hrd & Hh1 & Eo1 & _ & _ & _ & _).
  destruct r as [rr|]; cbn [non_null].
  2:{ exists w1. split; [left; exists Qnil; reflexivity|].
      split; [exact Hf1|]. split; [exact I|].
      split; [by rewrite Eo1|]. split; [reflexivity|].
      split; [discriminate | reflexivity]. }
  pose proof (after_read_facts w1 self p _ c g (Some rr) (input_of text) Hf1)
    as Hread.
  destruct (after_read_ w1 c (Some rr) (input_of text)) as [gh w2].
  cbn [fst snd] in Hread.
  destruct Hread as (Hf2 & Eo2 & Eh2 & _ & Et2 & Hsub2 & Hev & Hgh).
  destruct (grammar (input_of text)) as [gm|] eqn:Eg.
  - destruct Hgh as (h & -> & _ & Hh2). cbn [non_null].
    destruct (wrap_total w2 self p _ c g Qnil T_NIL h gm Hf2 eq_refl Hh2)
      as (w' & E & Hgrow).
    exists w'. split; [exact E|].
    split; [exact (factory_ready_grows _ _ _ _ _ _ _ Hgrow Hf2)|].
    destruct Hgrow as (Ho & _ & _ & Ehp & Et & Hsub).
    split; [unfold helper_ok; rewrite Ehp, Eh2; exact Hh1|].
    split; [rewrite <- Eo1, <- Eo2; exact Ho|].
    split; [rewrite Et; exact Et2|].
    split; [intros _ _; eexists; apply Hsub, Hev|].
    intros [H | H]; discriminate H.
  - subst gh. cbn [non_null]. exists w2.
    split; [left; exists Qnil; reflexivity|].
    split; [exact Hf2|].
    split; [unfold helper_ok; rewrite Eh2; exact Hh1|].
    split; [by rewrite Eo2, Eo1|]. split; [exact Et2|].
    split; [intros _ _; eexists; exact Hev | reflexivity].
Qed.

Lemma parse_first_call w self str p d c g text :
  factory_ready w self p d c g →
  is_string w str text →
  reader_of d = NULL → next_fate w = true →
  ∃ r w',
    ends_in (parse_ self str w) w'
    ∧ helpers (geos w) !! r = None
    ∧ factory_ready w' self p (set_reader (Some r) d) c g
    ∧ helper_ok w' kind (Some r)
    ∧ objs w ⊆ objs w'
    ∧ List.filter is_reader_create (trace w')
      = List.filter is_reader_create (trace w)
        ++ [create_ev (Some c) (Some r)].
Proof.
  intros Hf Hs Er Hfate.
  assert (Hh : helper_ok w kind (reader_of d)) by (rewrite Er; exact I).
  destruct (parse_total w self str p d c g text Hf Hh Hs)
    as (w' & E & Hf' & Hh' & Ho & Et & _).
  pose proof (settled_facts w self p d c g Hf Hh) as Hsettled.
  cbv zeta in Hsettled.
  destruct Hsettled as (_ & _ & _ & _ & _ & _ & _ & Hnew).
  destruct (Hnew Er) as (_ & Etr & Hr). rewrite Hfate in Hr.
  destruct Hr as (h & Eh & Hfresh).
  rewrite Eh in *. unfold cached_data in Hf'. rewrite Er in Hf'.
  exists h, w'. rewrite Et, Etr. done.
Qed.

Lemma parse_cached_call w self str p d c g text r :
  factory_ready w self p d c g →
  helper_ok w kind (reader_of d) →
  is_string w str text →
  reader_of d = Some r →
  ∃ w' gh,
    ends_in (parse_ self str w) w'
    ∧ factory_ready w' self p d c g
    ∧ helper_ok w' kind (Some r)
    ∧ objs w ⊆ objs w'
    ∧ List.filter is_reader_create (trace w')
      = List.filter is_reader_create (trace w)
    ∧ read_ev (Some c) (Some r) (input_of text) gh ∈ trace w'.
Proof.
  intros Hf Hh Hs Er.
  destruct (parse_total w self str p d c g text Hf Hh Hs)
    as (w' & E & Hf' & Hh' & Ho & Et & Hread & _).
  pose proof (settled_facts w self p d c g Hf Hh) as Hsettled.
  cbv zeta in Hsettled.
  destruct Hsettled as (_ & _ & _ & _ & _ & _ & Hold & _).
  destruct (Hold r Er) as (E1 & E2). rewrite E1, E2 in *.
  unfold cached_data in Hf'. rewrite Er in Hf'.
  destruct (Hread r eq_refl) as (gh & Hgh).
  exists w', gh. done.
Qed.

Lemma parse_with_reader_contract :
  parse_contract parse_ kind grammar reader_of set_reader create_ev read_ev
    input_of.
Proof.
  intros w self str p d c g text Hf Hh Hs input reader w_settled gh w_read.
  split; [|split; [|split; [|split; [|split]]]].
  - intros Er Hfate.
    destruct (parse_total w self str p d c g text Hf Hh Hs)
      as (w' & _ & Hf' & _ & _ & _ & _ & Hnil).
    pose proof (settled_facts w self p d c g Hf Hh) as Hsettled.
    cbv zeta in Hsettled.
    destruct Hsettled as (_ & _ & _ & _ & _ & _ & _ & Hnew).
    destruct (Hnew Er) as (_ & _ & Hr). rewrite Hfate in Hr.
    rewrite Hr in *. unfold cached_data in Hf'. rewrite Er in Hf'.
    exists w'. split; [apply Hnil; left; reflexivity | exact Hf'].
  - intros Eg.
    destruct (parse_total w self str p d c g text Hf Hh Hs)
      as (w' & _ & _ & _ & _ & _ & _ & Hnil).
    exists w'. apply Hnil. right. exact Eg.
  - intros Er Hfate. by apply (parse_first_call w self str p d c g text).
  - intros r Er. by apply (parse_cached_call w self str p d c g text).
  - intros Er Hfate str2 text2 Hs2.
    destruct (parse_first_call w self str p d c g text Hf Hs Er Hfate)
      as (r & w1 & E1 & _ & Hf1 & Hh1 & Ho1 & Et1).
    destruct (parse_cached_call w1 self str2 p (set_reader (Some r) d) c g
                text2 r Hf1)
      as (w2 & gh2 & E2 & _ & _ & _ & Et2 & Hread);
      [by rewrite reader_of_set
      |by apply (is_string_weaken w)
      |apply reader_of_set|].
    exists r, w1, w2, gh2. rewrite Et2, Et1. done.
  - intros gm Eg Havail. subst input reader w_settled gh w_read.
    rewrite (parse_run w self str p d c g text Hf Hh Hs).
    pose proof (settled_facts w self p d c g Hf Hh) as Hsettled.
    destruct (settled_ w p c d) as [r w1]. cbn [fst snd] in *.
    destruct Hsettled as (Hf1 & _ & _ & Eo1 & Eg1 & _ & Hold & Hnew).
    assert (Hfates : fates w1 = match reader_of d with
                                | Some _ => fates w
                                | None => tail (fates w)
                                end).
    { destruct (reader_of d) as [r0|] eqn:Er.
      - by destruct (Hold r0 eq_refl) as (_ & ->).
      - by destruct (Hnew eq_refl) as (-> & _). }
    assert (∃ rr, r = Some rr) as (rr & ->).
    { destruct (reader_of d) as [r0|] eqn:Er.
      - exists r0. by destruct (Hold r0 eq_refl).
      - destruct (Hnew eq_refl) as (_ & _ & Hr).
        rewrite (Havail eq_refl) in Hr. destruct Hr as (h & -> & _).
        by exists h. }
    cbn [non_null].
    pose proof (after_read_facts w1 self p _ c g (Some rr) (input_of text)
                  Hf1) as Hread.
    destruct (after_read_ w1 c (Some rr) (input_of text)) as [gh w2].
    cbn [fst snd] in Hread |- *.
    destruct Hread as (Hf2 & Eo2 & _ & Ef2 & _ & _ & _ & Hgh).
    rewrite Eg in Hgh.
    destruct Hgh as (h & -> & Hfresh & Hh2). cbn [non_null].
    exists h. split; [reflexivity|]. split; [reflexivity|].
    split; [by rewrite <- Eg1|]. split; [exact Hh2|].
    split; [by rewrite Ef2|].
    split.
    + intros Hfate2.
      destruct (wrap_run w2 self p _ c g Qnil T_NIL h gm Hf2 eq_refl Hh2
                  Hfate2)
        as (a & q & w' & E & Ha & _ & Eo & Em & Egm & _).
      rewrite bool_decide_true in Eo, Em by discriminate.
      rewrite bool_decide_false in Em by discriminate.
      eexists a, q, _, w'. split; [exact E|].
      split; [by rewrite <- Eo1, <- Eo2|].
      split; [rewrite Eo; apply lookup_insert_eq|].
      split; [rewrite Em; apply lookup_insert_eq|].
      repeat split; reflexivity.
    + intros Hfate2.
      destruct (wrap_fail_run w2 self p _ c g Qnil T_NIL h gm Hf2 eq_refl Hh2
                  Hfate2)
        as (w' & E & Eo & _).
      exists w'. split; [exact E|]. by rewrite Eo, Eo2, Eo1.
Qed.

End Parse.

(** C6. [method_factory_parse_wkt] and [method_factory_parse_wkb], called
    on a ready factory with a Ruby string, never fault.  They return nil,
    raising nothing, when the reader does not exist and cannot be created,
    and when the engine does not parse the input.  A call that finds no
    cached reader creates one and stores it in the factory; a call that
    finds one reads with it and creates none, so that of two calls in a
    row the second reads with the reader the first created.  When the
    engine parses the input, the call is [rgeo_wrap_geos_geometry] on the
    new geometry with no class hint, in the world the read left: it
    returns a new wrapper of the class inferred from the geometry's kind
    whenever the wrapper's storage is allocated, and ends in the
    [NoMemoryError] of [ALLOC] when it is not. *)
Theorem parse_methods_contract
    (wkt_grammar wkb_grammar : string → option geometry) :
  parse_contract (method_factory_parse_wkt wkt_grammar)
    WKTReader wkt_grammar wkt_reader set_wkt_reader
    E_WKTReader_create E_WKTReader_read c_str
  ∧ parse_contract (method_factory_parse_wkb wkb_grammar)
      WKBReader wkb_grammar wkb_reader set_wkb_reader
      E_WKBReader_create E_WKBReader_read (λ s, s).
Proof.
  split.
  - apply (parse_with_reader_contract WKTReader wkt_grammar wkt_reader
             set_wkt_reader E_WKTReader_create E_WKTReader_read c_str);
      reflexivity.
  - apply (parse_with_reader_contract WKBReader wkb_grammar wkb_reader
             set_wkb_reader E_WKBReader_create E_WKBReader_read (λ s, s));
      reflexivity.
Qed.

(** ** The functions at work in the small world *)

Example coordseqs_eql_same_point :
  rgeo_geos_coordseqs_eql demo_geos (Some 1%positive)
    (Some 1%positive) (Some 3%positive) false = Qtrue.
Proof. vm_compute. reflexivity. Qed.

Example coordseqs_eql_nan_differs :
  rgeo_geos_coordseqs_eql demo_geos (Some 1%positive)
    (Some 1%positive) (Some 1%positive) true = Qfalse.
Proof. vm_compute. reflexivity. Qed.

Example coordseqs_eql_unreadable_z :
  rgeo_geos_coordseqs_eql demo_geos (Some 1%positive)
    (Some 1%positive) (Some 3%positive) true = Qnil.
Proof. vm_compute. reflexivity. Qed.

Example coordseqs_eql_lengths_differ :
  rgeo_geos_coordseqs_eql demo_geos (Some 1%positive)
    (Some 1%positive) (Some 2%positive) false = Qfalse.
Proof. vm_compute. reflexivity. Qed.

Example coordseqs_eql_null :
  rgeo_geos_coordseqs_eql demo_geos (Some 1%positive)
    NULL (Some 2%positive) false = Qnil.
Proof. reflexivity. Qed.

Example srid_of_demo_factory :
  method_factory_srid (Object 3) demo_world = Ok (Integer 4326) demo_world.
Proof. vm_compute. reflexivity. Qed.

Example parse_wkt_point :
  ∃ a w', method_factory_parse_wkt demo_wkt_grammar (Object 3) (Object 30)
            demo_world = Ok (Object a) w'
          ∧ basic_klass <$> objs w' !! a = Some (Object 11)
          ∧ g_srid <$> geoms (geos w') !! 4%positive = Some 4326
          ∧ trace w'
            = [E_WKTReader_read (Some 1%positive) (Some 1%positive)
                 "POINT (1 2)" (Some 4%positive);
               E_GeomTypeId (Some 1%positive) (Some 4%positive);
               E_SetSRID (Some 1%positive) (Some 4%positive) 4326].
Proof.
  eexists _, _. split; [vm_compute; reflexivity|].
  repeat split; vm_compute; reflexivity.
Qed.

Example parse_wkt_garbage :
  ∃ w', method_factory_parse_wkt demo_wkt_grammar (Object 3) (Object 31)
          demo_world = Ok Qnil w'.
Proof. eexists. vm_compute. reflexivity. Qed.

Lemma demo_factory_ready :
  factory_ready demo_world (Object 3) 2 demo_factory_data 1 demo_globals.
Proof.
  split; [|split; [reflexivity|split]].
  - exists 3%positive, (Object 1), FP_NULL, FP_destroy_factory_func.
    repeat split; vm_compute; reflexivity.
  - vm_compute. reflexivity.
  - exists 1%positive. split; vm_compute; reflexivity.
Defined.

Lemma demo_factory_ready_oom :
  factory_ready demo_world_oom (Object 3) 2 demo_factory_data 1 demo_globals.
Proof. exact demo_factory_ready. Defined.

(** A run of C2: detaching the wrapped point of the small world. *)
Lemma detach_strips_wrapper_witness :
  ∃ w',
    rgeo_convert_to_detached_geos_geometry demo_funcall
      (Object 5) (Object 3) Qnil (Some Qtrue) demo_world
    = Ok (Some 1%positive, Some (Object 11)) w'
    ∧ cmem w' !! 3%positive
      = Some (CGeometryData {| geom := NULL; geos_context := NULL;
                               factory := Qnil; klasses := Qnil |}).
Proof.
  destruct (detach_strips_wrapper demo_funcall demo_world demo_world
              (Object 5) (Object 3) Qnil (Some Qtrue)
              2 demo_factory_data 1 demo_globals
              5 (Object 11) FP_mark_geometry_func FP_destroy_geometry_func
              3 {| geom := Some 1%positive; geos_context := Some 1%positive;
                   factory := Object 3; klasses := Qnil |})
    as (w' & E & Em & _);
    try (vm_compute; reflexivity).
  { destruct demo_factory_ready as (H & _). exact H. }
  exists w'. split; [exact E|]. rewrite Em. apply lookup_insert_eq.
Defined.

(** A run of C10: the coercion of nil yields nil. *)
Lemma detach_coercion_failed_witness :
  rgeo_convert_to_detached_geos_geometry demo_funcall
    Qnil (Object 3) Qnil (Some Qtrue) demo_world
  = Ok (NULL, Some Qnil) demo_world.
Proof.
  apply (detach_coercion_failed demo_funcall demo_world demo_world
           Qnil (Object 3) Qnil (Some Qtrue)
           2 demo_factory_data 1 demo_globals);
    try (vm_compute; reflexivity).
  destruct demo_factory_ready as (H & _). exact H.
Defined.

(** A run of C3: a multi-point wrapped with an array as hint. *)
Lemma wrap_infers_class_witness :
  ∃ a q od w',
    rgeo_wrap_geos_geometry (Object 3) (Some 2%positive) (Object 32)
      demo_world = Ok (Object a) w'
    ∧ objs w' !! a = Some (wrapper_object (Object 16) q)
    ∧ cmem w' !! q = Some (CGeometryData od)
    ∧ klasses od = Object 32.
Proof.
  destruct (wrap_infers_class demo_world (Object 3) 2 demo_factory_data 1
              demo_globals (Object 32) T_ARRAY 2 demo_multi_point
              demo_factory_ready eq_refl ltac:(discriminate) eq_refl eq_refl)
    as (a & q & od & w' & E & _ & Ho & Hm & _ & _ & _ & _ & Hk & _).
  exists a, q, od, w'. split; [exact E|]. split; [exact Ho|].
  split; [exact Hm|]. apply (Hk eq_refl).
  apply list_elem_of_here.
Defined.

(** A run of C5: the wrapped point takes the SRID of the factory. *)
Lemma wrap_sets_factory_srid_witness :
  ∃ a w' gm',
    rgeo_wrap_geos_geometry (Object 3) (Some 1%positive) (Object 11)
      demo_world = Ok (Object a) w'
    ∧ geoms (geos w') !! 1%positive = Some gm'
    ∧ g_srid gm' = 4326.
Proof.
  destruct (wrap_sets_factory_srid demo_world (Object 3) 2
              demo_factory_data 1 demo_globals (Object 11) T_CLASS 1
              demo_point demo_factory_ready eq_refl eq_refl)
    as (Hset & _).
  destruct (Hset eq_refl) as (a & w' & gm' & E & Hg & Hs & _).
  exists a, w', gm'. split; [exact E|]. split; [exact Hg | exact Hs].
Defined.

(** Without memory for the wrapper the wrap does not return: the geometry
    keeps the SRID it had, and there is no wrapper to see it through. *)
Example wrap_without_memory_raises :
  ∃ w', rgeo_wrap_geos_geometry (Object 3) (Some 1%positive) (Object 11)
          demo_world_oom = Raise "NoMemoryError" w'
        ∧ geos w' = geos demo_world.
Proof. eexists. split; vm_compute; reflexivity. Qed.



(** A run of C6: parsing with the cached WKT reader of the small world. *)
Lemma parse_methods_contract_witness :
  ∃ a q od w',
    method_factory_parse_wkt demo_wkt_grammar (Object 3) (Object 30)
      demo_world = Ok (Object a) w'
    ∧ objs w' !! a = Some (wrapper_object (Object 11) q)
    ∧ cmem w' !! q = Some (CGeometryData od)
    ∧ factory od = Object 3.
Proof.
  destruct (parse_methods_contract demo_wkt_grammar demo_wkb_grammar)
    as (Hwkt & _).
  destruct (Hwkt demo_world (Object 3) (Object 30) 2%positive
              demo_factory_data 1%positive demo_globals "POINT (1 2)"%string
              demo_factory_ready)
    as (_ & _ & _ & _ & _ & Hparsed).
  { vm_compute. reflexivity. }
  { exists 30%positive, (BuiltinClass T_STRING).
    split; vm_compute; reflexivity. }
  destruct (Hparsed demo_point eq_refl)
    as (h & _ & _ & _ & _ & _ & Hwrapper & _).
  { discriminate. }
  destruct Hwrapper as (a & q & od & w' & E & _ & Ho & Hm & _ & Hfa & _).
  { vm_compute. reflexivity. }
  exists a, q, od, w'. split; [exact E|]. split; [exact Ho|].
  split; [exact Hm | exact Hfa].
Defined.

(** A run of C7: the factory of the small world, which has a WKT reader
    and a WKB writer, is destroyed. *)
Lemma destroy_factory_releases_in_order_witness :
  ∃ w',
    destroy_factory_func (Some 2%positive) demo_world = Ok tt w'
    ∧ trace w'
      = [E_WKTReader_destroy (Some 1%positive) (Some 1%positive);
         E_WKBWriter_destroy (Some 1%positive) (Some 2%positive);
         E_finishGEOS (Some 1%positive);
         E_free (Some 2%positive)].
Proof.
  destruct (destroy_factory_releases_in_order demo_world 2
              demo_factory_data 1)
    as (w' & E & Et & _);
    try (vm_compute; reflexivity).
  exists w'. split; [exact E | exact Et].
Defined.

(** A run of C9: a factory created in the small world. *)
Lemma create_then_accessors_witness :
  ∃ self w',
    cmethod_factory_create demo_to_integer (Object 1) (Integer 1)
      (Integer 4326) (Integer 8) demo_world = Ok self w'
    ∧ method_factory_flags self w' = Ok (Integer 1) w'
    ∧ method_factory_srid self w' = Ok (Integer 4326) w'
    ∧ method_factory_buffer_resolution self w' = Ok (Integer 8) w'.
Proof.
  destruct (create_then_accessors demo_to_integer demo_world (Object 1) 1
              (BuiltinClass T_CLASS) {[ "INTERNAL_CGLOBALS" := Object 2 ]}
              (Object 2) (Some 1%positive) 1 4326 8)
    as ((self & w' & p & d & E & _ & Hf & Hs & Hb) & _);
    try (vm_compute; reflexivity).
  { exists 2%positive, (BuiltinClass T_OBJECT), FP_mark_globals_func,
      FP_destroy_globals_func. split; vm_compute; reflexivity. }
  { unfold INT_MIN, INT_MAX. lia. }
  { unfold INT_MIN, INT_MAX. lia. }
  { unfold INT_MIN, INT_MAX. lia. }
  { constructor. }
  exists self, w'. split; [exact E|]. split; [exact Hf|].
  split; [exact Hs | exact Hb].
Defined.

Example parse_wkt_twice :
  ∃ v1 w1 w2,
    method_factory_parse_wkt demo_wkt_grammar (Object 4) (Object 30)
      demo_world = Ok v1 w1
    ∧ method_factory_parse_wkt demo_wkt_grammar (Object 4) (Object 31) w1
      = Ok Qnil w2
    ∧ List.filter is_reader_create (trace w2)
      = [E_WKTReader_create (Some 1%positive) (Some 3%positive)]
    ∧ last (trace w2)
      = Some (E_WKTReader_read (Some 1%positive) (Some 3%positive)
                "NOT WKT" NULL).
Proof.
  eexists _, _, _. split; [vm_compute; reflexivity|].
  repeat split; vm_compute; reflexivity.
Qed.

Example create_without_context_frees_the_struct :
  ∃ w', cmethod_factory_create demo_to_integer (Object 1) (Integer 1)
          (Integer 4326) (Integer 8) (set_fates [true; false] demo_world)
        = Ok Qnil w'
        ∧ cmem w' = cmem demo_world
        ∧ contexts (geos w') = contexts (geos demo_world).
Proof.
  eexists. split; [vm_compute; reflexivity|].
  split; vm_compute; reflexivity.
Qed.

Example create_rejects_wide_integer :
  ∃ w', cmethod_factory_create demo_to_integer (Object 1) (Integer 1)
          (Integer (2 ^ 31)) (Integer 8) demo_world
        = Raise "RangeError" w'.
Proof. eexists. vm_compute. reflexivity. Qed.

Example destroy_factory_without_helpers :
  ∃ w', destroy_factory_func (Some 4%positive) demo_world = Ok tt w'
        ∧ trace w' = [E_finishGEOS (Some 1%positive);
                      E_free (Some 4%positive)].
Proof. eexists. split; vm_compute; reflexivity. Qed.

Example destroy_factory_twice_faults :
  ∃ w', destroy_factory_func (Some 2%positive) demo_world = Ok tt w'
        ∧ destroy_factory_func (Some 2%positive) w' = Fault.
Proof. eexists. split; vm_compute; reflexivity. Qed.

(** * Further properties *)

(** ** Equality of doubles and of coordinate sequences *)

(** [==] on doubles holds between two zeros of any sign and between a
    value that is no NaN and itself, and nowhere else. *)
Lemma double_eq_true_iff (a b : double) :
  double_eq a b = true
  ↔ (∃ s t, a = S754_zero s ∧ b = S754_zero t)
    ∨ (a = b ∧ a ≠ S754_nan).
Proof.
  unfold double_eq, SFeqb.
  destruct a as [sa|sa| |sa ma ea], b as [sb|sb| |sb mb eb]; simpl.
  all: try (split; [discriminate|];
            intros [(s & t & H1 & H2) | (H1 & H2)]; congruence).
  all: try (destruct sa; split; try discriminate;
            intros [(s & t & H1 & H2) | (H1 & H2)]; congruence).
  all: try (destruct sb; split; try discriminate;
            intros [(s & t & H1 & H2) | (H1 & H2)]; congruence).
  - split; [intros _; left; eauto | reflexivity].
  - destruct sa, sb; split; try discriminate; try (intros _; right; done);
      intros [(s & t & H1 & H2) | (H1 & H2)]; congruence.
  - change (Pos.compare_cont Eq ma mb) with (ma ?= mb)%positive.
    destruct sa, sb;
      try (split; [discriminate|];
           intros [(s & t & H1 & _) | (H1 & _)]; discriminate);
      destruct (Z.compare_spec ea eb) as [->|Hlt|Hgt];
      try destruct (Pos.compare_spec ma mb) as [->|Hm|Hm];
      simpl; split; try discriminate; try (intros _; right; done);
      intros [(s & t & H1 & _) | (H1 & _)]; try discriminate;
      try reflexivity; injection H1; intros; subst; lia.
Qed.

Lemma double_eq_refl_iff (a : double) :
  double_eq a a = true ↔ a ≠ S754_nan.
Proof.
  rewrite double_eq_true_iff. split.
  - intros [(s & t & -> & _) | (_ & H)]; [discriminate | exact H].
  - intros H. right. done.
Qed.

Lemma double_eq_trans (a b c : double) :
  double_eq a b = true → double_eq b c = true → double_eq a c = true.
Proof.
  rewrite !double_eq_true_iff.
  intros [(s & t & Ha & Hb) | (Hab & Hna)]
         [(s' & t' & Hb' & Hc) | (Hbc & Hnb)]; subst.
  - left. eauto.
  - left. eauto.
  - left. eauto.
  - right. done.
Qed.

(** What a [Qtrue] of [rgeo_geos_coordseqs_eql] means. *)
Lemma coordseqs_eql_true_iff e context geom1 geom2 check_z :
  rgeo_geos_coordseqs_eql e context geom1 geom2 check_z = Qtrue
  ↔ ∃ g1 g2 cs1 cs2 len,
      geom1 = Some g1 ∧ geom2 = Some g2
      ∧ GEOSGeom_getCoordSeq_r e context g1 = Some cs1
      ∧ GEOSGeom_getCoordSeq_r e context g2 = Some cs2
      ∧ GEOSCoordSeq_getSize_r e context cs1 = Some len
      ∧ GEOSCoordSeq_getSize_r e context cs2 = Some len
      ∧ ∀ c, c ∈ components check_z 0 (N.to_nat len) →
          ∃ a b, read_axis e context cs1 c = Some a
                 ∧ read_axis e context cs2 c = Some b
                 ∧ double_eq a b = true.
Proof.
  unfold rgeo_geos_coordseqs_eql. split.
  - destruct geom1 as [g1|], geom2 as [g2|]; try discriminate.
    destruct (GEOSGeom_getCoordSeq_r e context g1) as [cs1|] eqn:E1,
             (GEOSGeom_getCoordSeq_r e context g2) as [cs2|] eqn:E2;
      try discriminate.
    destruct (GEOSCoordSeq_getSize_r e context cs1) as [len1|] eqn:S1,
             (GEOSCoordSeq_getSize_r e context cs2) as [len2|] eqn:S2;
      try discriminate.
    destruct (len1 =? len2)%N eqn:El; [|discriminate].
    apply N.eqb_eq in El. subst len2.
    rewrite coords_loop_first_verdict, first_verdict_true, Forall_map.
    intros Hall. exists g1, g2, cs1, cs2, len1.
    repeat (split; [reflexivity || assumption|]).
    intros c Hc. rewrite Forall_forall in Hall.
    specialize (Hall c Hc). unfold compare_component in Hall.
    destruct (read_axis e context cs1 c) as [a|]; [|discriminate].
    destruct (read_axis e context cs2 c) as [b|]; [|discriminate].
    exists a, b. destruct (double_eq a b); [auto | discriminate].
  - intros (g1 & g2 & cs1 & cs2 & len & -> & -> & E1 & E2 & S1 & S2 & Hall).
    rewrite E1, E2, S1, S2, N.eqb_refl.
    rewrite coords_loop_first_verdict, first_verdict_true, Forall_map.
    apply Forall_forall. intros c Hc.
    destruct (Hall c Hc) as (a & b & Ha & Hb & Hab).
    unfold compare_component. rewrite Ha, Hb, Hab. reflexivity.
Qed.

(** X1. The [Qtrue] answers of [rgeo_geos_coordseqs_eql] are transitive:
    sequences equal to a common third, component by component under [==],
    are equal to each other. *)
Theorem coordseqs_eql_true_transitive e context geomA geomB geomC check_z :
  rgeo_geos_coordseqs_eql e context geomA geomB check_z = Qtrue →
  rgeo_geos_coordseqs_eql e context geomB geomC check_z = Qtrue →
  rgeo_geos_coordseqs_eql e context geomA geomC check_z = Qtrue.
Proof.
  rewrite !coordseqs_eql_true_iff.
  intros (a & b & csA & csB & len & -> & -> & EA & EB & SA & SB & HAB)
         (b' & c & csB' & csC & len' & [= <-] & -> & EB' & EC & SB' & SC
          & HBC).
  rewrite EB in EB'. injection EB' as <-.
  rewrite SB in SB'. injection SB' as <-.
  exists a, c, csA, csC, len. repeat (split; [done|]).
  intros cmp Hcmp.
  destruct (HAB cmp Hcmp) as (x & y & Hx & Hy & Hxy).
  destruct (HBC cmp Hcmp) as (y' & z & Hy' & Hz & Hyz).
  rewrite Hy in Hy'. injection Hy' as <-.
  exists x, z. split; [done|]. split; [done|].
  exact (double_eq_trans x y z Hxy Hyz).
Qed.

(** X2. A geometry is [Qtrue]-equal to itself exactly when its sequence and
    size can be read and every compared coordinate can be read and is no
    NaN: a NaN anywhere makes a geometry differ from itself. *)
Theorem coordseqs_eql_reflexive_iff e context g check_z :
  rgeo_geos_coordseqs_eql e context (Some g) (Some g) check_z = Qtrue
  ↔ ∃ cs len,
      GEOSGeom_getCoordSeq_r e context g = Some cs
      ∧ GEOSCoordSeq_getSize_r e context cs = Some len
      ∧ ∀ c, c ∈ components check_z 0 (N.to_nat len) →
          ∃ a, read_axis e context cs c = Some a ∧ a ≠ S754_nan.
Proof.
  rewrite coordseqs_eql_true_iff. split.
  - intros (g1 & g2 & cs1 & cs2 & len & [= <-] & [= <-] & E1 & E2 & S1 & S2
            & Hall).
    rewrite E1 in E2. injection E2 as <-.
    exists cs1, len. split; [done|]. split; [done|].
    intros c Hc. destruct (Hall c Hc) as (a & b & Ha & Hb & Hab).
    rewrite Ha in Hb. injection Hb as <-.
    exists a. split; [done|]. by apply double_eq_refl_iff.
  - intros (cs & len & E & S & Hall).
    exists g, g, cs, cs, len. repeat (split; [done|]).
    intros c Hc. destruct (Hall c Hc) as (a & Ha & Hnan).
    exists a, a. split; [done|]. split; [done|].
    by apply double_eq_refl_iff.
Qed.

(** ** Destruction of wrappers *)

Lemma load_geometry_run w q od :
  cmem w !! q = Some (CGeometryData od) → load_geometry (Some q) w = Ok od w.
Proof. intros H. unfold load_geometry, load, bind. rewrite H. reflexivity. Qed.

(** [destroy_geometry_func] on a struct whose handle is null or alive. *)
Lemma destroy_geometry_run w q od :
  cmem w !! q = Some (CGeometryData od) →
  match geom od with
  | Some h => is_Some (geoms (geos w) !! h)
  | None => True
  end →
  ∃ w',
    destroy_geometry_func (Some q) w = Ok tt w'
    ∧ cmem w' = delete q (cmem w)
    ∧ geoms (geos w')
      = match geom od with
        | Some h => delete h (geoms (geos w))
        | None => geoms (geos w)
        end
    ∧ contexts (geos w') = contexts (geos w)
    ∧ helpers (geos w') = helpers (geos w)
    ∧ objs w' = objs w
    ∧ trace w' = trace w ++ [E_free (Some q)].
Proof.
  intros Hq Hlive. unfold destroy_geometry_func.
  rewrite (bind_Ok _ _ w od w) by (apply load_geometry_run; done).
  destruct (geom od) as [h|]; cbn [non_null].
  - destruct Hlive as (gm & Hh).
    rewrite (bind_Ok _ _ w tt (set_geos (set_geoms (delete h)) w))
      by (unfold GEOSGeom_destroy_r; rewrite Hh; reflexivity).
    unfold free, bind, emit. cbn. rewrite Hq.
    eexists. split; [reflexivity|]. cbn. done.
  - rewrite (bind_Ok _ _ w tt w) by reflexivity.
    unfold free, bind, emit. cbn. rewrite Hq.
    eexists. split; [reflexivity|]. cbn. done.
Qed.

(** X3. A wrapper owns the geometry it was given: after a successful wrap
    of a live geometry, [destroy_geometry_func] on the wrapper's struct ends
    normally, the geometry is gone from the engine and the C heap is as it
    was before the wrap. *)
Theorem wrap_then_destroy_releases w self p d c g klass ty h gm :
  factory_ready w self p d c g →
  TYPE klass w = Ok ty w →
  geoms (geos w) !! h = Some gm →
  next_fate w = true →
  ∃ a q w1 w2,
    rgeo_wrap_geos_geometry self (Some h) klass w = Ok (Object a) w1
    ∧ DATA_PTR (Object a) w1 = Ok (Some q) w1
    ∧ destroy_geometry_func (Some q) w1 = Ok tt w2
    ∧ cmem w2 = cmem w
    ∧ geoms (geos w2) = delete h (geoms (geos w))
    ∧ contexts (geos w2) = contexts (geos w)
    ∧ helpers (geos w2) = helpers (geos w).
Proof.
  intros Hf Hty Hh Hfate.
  destruct (wrap_run w self p d c g klass ty h gm Hf Hty Hh Hfate)
    as (a & q & w1 & E & Ha & Hq & Eo & Em & Eg & Ec & Ehp & _ & _).
  destruct (destroy_geometry_run w1 q
              {| geom := Some h; geos_context := Some c; factory := self;
                 klasses := if bool_decide (ty ≠ T_CLASS)
                               && bool_decide (ty = T_ARRAY)
                               && collection_kind
                                    (kind_of_type_id (g_type gm))
                            then klass else Qnil |})
    as (w2 & E2 & Em2 & Eg2 & Ec2 & Ehp2 & _ & _).
  { rewrite Em. apply lookup_insert_eq. }
  { cbn. rewrite Eg, lookup_insert_eq. eauto. }
  exists a, q, w1, w2. split; [exact E|].
  split; [unfold DATA_PTR; rewrite Eo, lookup_insert_eq; reflexivity|].
  split; [exact E2|].
  split; [rewrite Em2, Em; by apply delete_insert_id|].
  split; [rewrite Eg2, Eg; cbn; apply delete_insert_eq|].
  split; congruence.
Qed.

(** ** Recognising wrappers *)

Lemma is_geos_object_data w a k m f p :
  objs w !! a = Some {| basic_klass := k; body := BData m f p |} →
  rgeo_is_geos_object (Object a) w
  = Ok (if decide (f = FP_destroy_geometry_func) then 1 else 0) w.
Proof.
  intros Ha. unfold rgeo_is_geos_object.
  rewrite (bind_Ok _ _ w T_DATA w) by (unfold TYPE; rewrite Ha; reflexivity).
  rewrite decide_True by reflexivity.
  rewrite (bind_Ok _ _ w f w)
    by (unfold RDATA_dfree; rewrite Ha; reflexivity).
  reflexivity.
Qed.

Lemma get_geos_geometry_safe_wrapper w v q od :
  is_wrapper w v q od →
  rgeo_get_geos_geometry_safe v w = Ok (geom od) w.
Proof.
  intros (a & k & m & -> & Ha & Hq). unfold rgeo_get_geos_geometry_safe.
  rewrite (bind_Ok _ _ w T_DATA w) by (unfold TYPE; rewrite Ha; reflexivity).
  rewrite decide_True by reflexivity.
  rewrite (bind_Ok _ _ w FP_destroy_geometry_func w)
    by (unfold RDATA_dfree; rewrite Ha; reflexivity).
  rewrite decide_True by reflexivity.
  rewrite (bind_Ok _ _ w (Some q) w)
    by (unfold RGEO_GEOMETRY_DATA_PTR, DATA_PTR; rewrite Ha; reflexivity).
  rewrite (bind_Ok _ _ w od w) by (apply load_geometry_run; done).
  reflexivity.
Qed.

Section AfterDetach.

Context (rb_funcall : VALUE → string → list VALUE → M VALUE).

(** The world [rgeo_convert_to_detached_geos_geometry] leaves when the
    coercion yields a wrapper. *)
Lemma detach_run w w1 obj self type klasses_out p d gp g a k m f q od :
  wraps_factory w self p d →
  globals d = Some gp →
  cmem w !! gp = Some (CGlobals g) →
  rb_funcall (feature_module g) "cast" (cast_args obj self type) w
  = Ok (Object a) w1 →
  objs w1 !! a = Some {| basic_klass := k; body := BData m f (Some q) |} →
  cmem w1 !! q = Some (CGeometryData od) →
  rgeo_convert_to_detached_geos_geometry rb_funcall obj self type
    klasses_out w
  = Ok (geom od,
        match klasses_out with
        | Some _ => Some (if NIL_P (klasses od) then k else klasses od)
        | None => None
        end)
       (set_cmem <[q := CGeometryData (strip od)]> w1).
Proof.
  intros Hw Hgp Hg Hcast Ha Hq.
  pose proof (wraps_factory_is_data _ _ _ _ Hw) as Hdata.
  unfold rgeo_convert_to_detached_geos_geometry.
  rewrite (bind_Ok _ _ w (Some p) w) by (apply DATA_PTR_run; done).
  destruct Hw as (a0 & k0 & m0 & f0 & -> & Ho & Hp).
  rewrite (bind_Ok _ _ w d w) by (apply load_factory_run; done).
  rewrite Hgp.
  rewrite (bind_Ok _ _ w g w) by (apply load_globals_run; done).
  rewrite (bind_Ok _ _ w (Object a) w1) by exact Hcast.
  cbn [NIL_P negb].
  rewrite (bind_Ok _ _ w1 (Some q) w1)
    by (unfold RGEO_GEOMETRY_DATA_PTR, DATA_PTR; rewrite Ha; reflexivity).
  rewrite (bind_Ok _ _ w1 od w1) by (apply load_geometry_run; done).
  cbv zeta.
  rewrite (bind_Ok _ _ w1
             (match klasses_out with
              | Some _ => Some (if NIL_P (klasses od) then k else klasses od)
              | None => None
              end) w1).
  2:{ destruct klasses_out; [|reflexivity].
      destruct (NIL_P (klasses od)); [|reflexivity].
      unfold bind, CLASS_OF. rewrite Ha. reflexivity. }
  unfold bind, store. rewrite Hq. reflexivity.
Qed.

(** X4. Detaching hands the geometry over for good: when the stripped
    wrapper is later destroyed, [destroy_geometry_func] ends normally,
    frees only the struct and destroys no geometry, so the handle the
    caller received stays alive in the engine. *)
Theorem detach_then_destroy_keeps_geometry
    w w1 obj self type klasses_out p d gp g a k m f q od :
  wraps_factory w self p d →
  globals d = Some gp →
  cmem w !! gp = Some (CGlobals g) →
  rb_funcall (feature_module g) "cast" (cast_args obj self type) w
  = Ok (Object a) w1 →
  objs w1 !! a = Some {| basic_klass := k; body := BData m f (Some q) |} →
  cmem w1 !! q = Some (CGeometryData od) →
  ∃ r w' w'',
    rgeo_convert_to_detached_geos_geometry rb_funcall obj self type
      klasses_out w = Ok (geom od, r) w'
    ∧ destroy_geometry_func (Some q) w' = Ok tt w''
    ∧ geoms (geos w'') = geoms (geos w1)
    ∧ cmem w'' = delete q (cmem w1)
    ∧ trace w'' = trace w1 ++ [E_free (Some q)].
Proof.
  intros Hw Hgp Hg Hcast Ha Hq.
  rewrite (detach_run w w1 obj self type klasses_out p d gp g a k m f q od)
    by done.
  destruct (destroy_geometry_run
              (set_cmem <[q := CGeometryData (strip od)]> w1) q (strip od))
    as (w'' & E & Em & Eg & _ & _ & _ & Et).
  { cbn. apply lookup_insert_eq. }
  { exact I. }
  eexists _, _, w''. split; [reflexivity|]. split; [exact E|].
  split; [exact Eg|].
  split; [rewrite Em; cbn; apply delete_insert_eq | exact Et].
Qed.

(** X5. After a detach the wrapper is still recognised as a geometry
    object, but the safe accessor finds no handle in it and its mark
    function marks nothing: the factory is no longer kept alive by it. *)
Theorem detached_wrapper_is_empty
    w w1 obj self type klasses_out p d gp g a k m q od :
  wraps_factory w self p d →
  globals d = Some gp →
  cmem w !! gp = Some (CGlobals g) →
  rb_funcall (feature_module g) "cast" (cast_args obj self type) w
  = Ok (Object a) w1 →
  objs w1 !! a
  = Some {| basic_klass := k;
            body := BData m FP_destroy_geometry_func (Some q) |} →
  cmem w1 !! q = Some (CGeometryData od) →
  ∃ r w',
    rgeo_convert_to_detached_geos_geometry rb_funcall obj self type
      klasses_out w = Ok (geom od, r) w'
    ∧ rgeo_is_geos_object (Object a) w' = Ok 1 w'
    ∧ rgeo_get_geos_geometry_safe (Object a) w' = Ok NULL w'
    ∧ mark_geometry_func (Some q) w' = Ok [] w'.
Proof.
  intros Hw Hgp Hg Hcast Ha Hq.
  rewrite (detach_run w w1 obj self type klasses_out p d gp g a k m
             FP_destroy_geometry_func q od) by done.
  set (w' := set_cmem <[q := CGeometryData (strip od)]> w1).
  assert (Ha' : objs w' !! a
                = Some {| basic_klass := k;
                          body := BData m FP_destroy_geometry_func
                                    (Some q) |}) by exact Ha.
  assert (Hq' : cmem w' !! q = Some (CGeometryData (strip od)))
    by apply lookup_insert_eq.
  eexists _, w'. split; [reflexivity|].
  split; [|split].
  - rewrite (is_geos_object_data w' a k m FP_destroy_geometry_func (Some q))
      by exact Ha'.
    rewrite decide_True by reflexivity. reflexivity.
  - apply (get_geos_geometry_safe_wrapper w' (Object a) q (strip od)).
    exists a, k, m. done.
  - unfold mark_geometry_func.
    rewrite (bind_Ok _ _ w' (strip od) w')
      by (apply load_geometry_run; done).
    reflexivity.
Qed.

End AfterDetach.

Lemma live_wrapper_is_geos_object w v q od :
  is_wrapper w v q od → rgeo_is_geos_object v w = Ok 1 w.
Proof.
  intros (a & k & m & -> & Ha & _).
  rewrite (is_geos_object_data w a k m FP_destroy_geometry_func (Some q))
    by exact Ha.
  rewrite decide_True by reflexivity. reflexivity.
Qed.

(** X7. In a heap where every object freed by [destroy_geometry_func]
    points to a geometry struct, [rgeo_is_geos_object] and
    [rgeo_get_geos_geometry_safe] never fault or raise on a live value and
    leave the world alone; the first answers 1 exactly on geometry
    wrappers, and the second returns the wrapper's handle on those and null
    on everything else, a factory object included. *)
Theorem recognisers_are_safe w obj :
  wrappers_ok w →
  live_value w obj →
  ∃ b hp,
    rgeo_is_geos_object obj w = Ok b w
    ∧ rgeo_get_geos_geometry_safe obj w = Ok hp w
    ∧ (b = 1 ↔ ∃ q od, is_wrapper w obj q od)
    ∧ (b ≠ 1 → b = 0 ∧ hp = NULL)
    ∧ (∀ q od, is_wrapper w obj q od → hp = geom od).
Proof.
  intros Hok Hlive.
  assert (Hnot : ∀ hp,
            (∀ q od, ¬ is_wrapper w obj q od) →
            rgeo_is_geos_object obj w = Ok 0 w →
            rgeo_get_geos_geometry_safe obj w = Ok hp w →
            hp = NULL →
            ∃ b hp,
              rgeo_is_geos_object obj w = Ok b w
              ∧ rgeo_get_geos_geometry_safe obj w = Ok hp w
              ∧ (b = 1 ↔ ∃ q od, is_wrapper w obj q od)
              ∧ (b ≠ 1 → b = 0 ∧ hp = NULL)
              ∧ (∀ q od, is_wrapper w obj q od → hp = geom od)).
  { intros hp Hno E1 E2 ->. exists 0, NULL. split; [exact E1|].
    split; [exact E2|]. split; [|split].
    - split; [discriminate|]. intros (q & od & H). destruct (Hno q od H).
    - done.
    - intros q od H. destruct (Hno q od H). }
  destruct obj as [| | |z|f|s|t|a];
    try (apply (Hnot NULL);
         [intros q od (a' & k & m & E & _); discriminate E
         |reflexivity|reflexivity|reflexivity]).
  destruct Hlive as ([k bd] & Ha).
  destruct bd as [consts| |elems|bytes|m f p|];
    try (apply (Hnot NULL);
         [intros q od (a' & k' & m' & [= <-] & Ha' & _); congruence
         |unfold rgeo_is_geos_object, bind, TYPE; rewrite Ha; reflexivity
         |unfold rgeo_get_geos_geometry_safe, bind, TYPE; rewrite Ha;
          reflexivity
         |reflexivity]).
  destruct (decide (f = FP_destroy_geometry_func)) as [->|Hf].
  - destruct (Hok a k m p Ha) as (q & od & -> & Hq).
    assert (Hw : is_wrapper w (Object a) q od) by (exists a, k, m; done).
    exists 1, (geom od).
    split; [by apply (live_wrapper_is_geos_object w _ q od)|].
    split; [by apply (get_geos_geometry_safe_wrapper w _ q od)|].
    split; [split; eauto|]. split; [done|].
    intros q' od' (a' & k' & m' & [= <-] & Ha' & Hq').
    rewrite Ha in Ha'. injection Ha' as _ _ <-.
    rewrite Hq in Hq'. injection Hq' as <-. reflexivity.
  - apply (Hnot NULL).
    + intros q od (a' & k' & m' & [= <-] & Ha' & _).
      rewrite Ha in Ha'. injection Ha' as _ _ -> _. done.
    + rewrite (is_geos_object_data w a k m f p Ha).
      rewrite decide_False by done. reflexivity.
    + unfold rgeo_get_geos_geometry_safe.
      rewrite (bind_Ok _ _ w T_DATA w)
        by (unfold TYPE; rewrite Ha; reflexivity).
      rewrite decide_True by reflexivity.
      rewrite (bind_Ok _ _ w f w)
        by (unfold RDATA_dfree; rewrite Ha; reflexivity).
      rewrite decide_False by done. reflexivity.
    + reflexivity.
Qed.

Section Unwrap.

Context (rb_funcall : VALUE → string → list VALUE → M VALUE).

(** The same-factory path of [rgeo_convert_to_geos_geometry]. *)
Lemma convert_same_factory w self obj q od :
  is_data w obj (Some q) →
  cmem w !! q = Some (CGeometryData od) →
  factory od = self →
  rgeo_convert_to_geos_geometry rb_funcall self obj Qnil w
  = Ok (geom od) w.
Proof.
  intros Hd Hq Hf. pose proof (DATA_PTR_run w obj (Some q) Hd) as Hptr.
  unfold rgeo_convert_to_geos_geometry. cbv zeta. cbn [NIL_P].
  rewrite (bind_Ok _ _ w obj w).
  2:{ rewrite (bind_Ok _ _ w (Some q) w) by exact Hptr.
      rewrite (bind_Ok _ _ w od w) by (apply load_geometry_run; done).
      destruct od as [gh gc gf gk]. cbn in Hf. subst gf.
      rewrite decide_True by reflexivity. reflexivity. }
  destruct Hd as (a & k & m & f & -> & Ha). cbn [NIL_P negb].
  rewrite (bind_Ok _ _ w (Some q) w) by exact Hptr.
  rewrite (bind_Ok _ _ w od w) by (apply load_geometry_run; done).
  reflexivity.
Qed.

(** X6. Wrap and unwrap round trip: the wrapper a successful wrap returns
    is recognised as a geometry object, the safe accessor and the
    same-factory unwrap with no type both return the handle that was
    wrapped, without any method dispatch and without changing the world,
    and the wrapper's mark function marks the factory. *)
Theorem wrap_then_unwrap w self p d c g klass ty h gm :
  factory_ready w self p d c g →
  TYPE klass w = Ok ty w →
  geoms (geos w) !! h = Some gm →
  next_fate w = true →
  ∃ a q marked w',
    rgeo_wrap_geos_geometry self (Some h) klass w = Ok (Object a) w'
    ∧ rgeo_is_geos_object (Object a) w' = Ok 1 w'
    ∧ rgeo_get_geos_geometry_safe (Object a) w' = Ok (Some h) w'
    ∧ rgeo_convert_to_geos_geometry rb_funcall self (Object a) Qnil w'
      = Ok (Some h) w'
    ∧ mark_geometry_func (Some q) w' = Ok marked w'
    ∧ self ∈ marked.
Proof.
  intros Hf Hty Hh Hfate.
  destruct (wrap_run w self p d c g klass ty h gm Hf Hty Hh Hfate)
    as (a & q & w' & E & _ & _ & Eo & Em & _).
  set (od := {| geom := Some h; geos_context := Some c; factory := self;
                klasses := if bool_decide (ty ≠ T_CLASS)
                              && bool_decide (ty = T_ARRAY)
                              && collection_kind
                                   (kind_of_type_id (g_type gm))
                           then klass else Qnil |}) in *.
  assert (Ha : objs w' !! a = Some (wrapper_object
                 (if bool_decide (ty ≠ T_CLASS)
                  then registered_class g (kind_of_type_id (g_type gm))
                  else klass) q))
    by (rewrite Eo; apply lookup_insert_eq).
  assert (Hq : cmem w' !! q = Some (CGeometryData od))
    by (rewrite Em; apply lookup_insert_eq).
  assert (Hw : is_wrapper w' (Object a) q od).
  { eexists a, _, _. split; [reflexivity|]. split; [exact Ha | exact Hq]. }
  eexists a, q, _, w'. split; [exact E|].
  split; [by apply (live_wrapper_is_geos_object w' _ q od)|].
  split; [by apply (get_geos_geometry_safe_wrapper w' _ q od)|].
  split.
  { apply (convert_same_factory w' self (Object a) q od); [|done|done].
    eexists a, _, _, _. split; [reflexivity | exact Ha]. }
  split.
  { unfold mark_geometry_func.
    rewrite (bind_Ok _ _ w' od w') by (apply load_geometry_run; done).
    reflexivity. }
  destruct Hf as ((a0 & k0 & m0 & f0 & -> & _) & _).
  cbn [od factory klasses NIL_P negb].
  destruct (negb (NIL_P _)); [apply elem_of_app; left|];
    apply list_elem_of_here.
Qed.

(** X9. When a type is asked for, or the object belongs to another
    factory, [rgeo_convert_to_geos_geometry] hands the object, the factory
    and the type to the coercion and returns the handle of what comes
    back, null for nil; the wrapper that comes back keeps its handle, and
    the world is the one the coercion left. *)
Theorem unwrap_delegates w w1 self obj type p d gp g object :
  wraps_factory w self p d →
  globals d = Some gp →
  cmem w !! gp = Some (CGlobals g) →
  (type ≠ Qnil
   ∨ ∃ q od, is_data w obj (Some q)
             ∧ cmem w !! q = Some (CGeometryData od)
             ∧ factory od ≠ self) →
  rb_funcall (feature_module g) "cast" [obj; self; type] w = Ok object w1 →
  (object = Qnil →
   rgeo_convert_to_geos_geometry rb_funcall self obj type w = Ok NULL w1)
  ∧ (∀ q od,
       is_data w1 object (Some q) →
       cmem w1 !! q = Some (CGeometryData od) →
       rgeo_convert_to_geos_geometry rb_funcall self obj type w
       = Ok (geom od) w1).
Proof.
  intros Hw Hgp Hg Hpath Hcast.
  pose proof (wraps_factory_is_data _ _ _ _ Hw) as Hdata.
  destruct Hw as (a0 & k0 & m0 & f0 & -> & Ho & Hp).
  assert (Hcall :
    (let* factory_data := RGEO_FACTORY_DATA_PTR (Object a0) in
     let* fd := load_factory factory_data in
     let* globals := load_globals (globals fd) in
     rb_funcall (feature_module globals) "cast" [obj; Object a0; type]) w
    = Ok object w1).
  { rewrite (bind_Ok _ _ w (Some p) w) by (apply DATA_PTR_run; done).
    rewrite (bind_Ok _ _ w d w) by (apply load_factory_run; done).
    rewrite Hgp.
    rewrite (bind_Ok _ _ w g w) by (apply load_globals_run; done).
    exact Hcast. }
  assert (Hobject :
    (if NIL_P type then
       let* obj_data := RGEO_GEOMETRY_DATA_PTR obj in
       let* od := load_geometry obj_data in
       let '{| factory := obj_factory |} := od in
       if decide (obj_factory = Object a0) then ret obj
       else
         let* factory_data := RGEO_FACTORY_DATA_PTR (Object a0) in
         let* fd := load_factory factory_data in
         let* globals := load_globals (globals fd) in
         rb_funcall (feature_module globals) "cast" [obj; Object a0; type]
     else
       let* factory_data := RGEO_FACTORY_DATA_PTR (Object a0) in
       let* fd := load_factory factory_data in
       let* globals := load_globals (globals fd) in
       rb_funcall (feature_module globals) "cast" [obj; Object a0; type]) w
    = Ok object w1).
  { destruct (NIL_P type) eqn:Etype; [|exact Hcall].
    destruct Hpath as [Hne | (q & od & Hd & Hq & Hfac)].
    { destruct type; try discriminate Etype. done. }
    rewrite (bind_Ok _ _ w (Some q) w) by (apply DATA_PTR_run; done).
    rewrite (bind_Ok _ _ w od w) by (apply load_geometry_run; done).
    destruct od as [gh gc gf gk]. cbn in Hfac.
    rewrite decide_False by done. exact Hcall. }
  unfold rgeo_convert_to_geos_geometry. cbv zeta.
  rewrite (bind_Ok _ _ w object w1) by exact Hobject.
  split.
  - intros ->. reflexivity.
  - intros q od Hd Hq. pose proof (DATA_PTR_run w1 object (Some q) Hd) as E.
    destruct Hd as (a & k & m & f & -> & Ha). cbn [NIL_P negb].
    rewrite (bind_Ok _ _ w1 (Some q) w1) by exact E.
    rewrite (bind_Ok _ _ w1 od w1) by (apply load_geometry_run; done).
    reflexivity.
Qed.

(** X10. [rgeo_geos_klasses_and_factories_eql] answers [Qfalse] for two
    values of different classes without reading either as a wrapper and
    without any dispatch; for two wrappers of one class its answer is that
    of [eql?] sent to the first wrapper's factory with the second's. *)
Theorem klasses_and_factories_eql_gate w obj1 obj2 c1 c2 :
  rb_obj_class obj1 w = Ok c1 w →
  rb_obj_class obj2 w = Ok c2 w →
  (c1 ≠ c2 →
   rgeo_geos_klasses_and_factories_eql rb_funcall obj1 obj2 w
   = Ok Qfalse w)
  ∧ (c1 = c2 →
     ∀ q1 od1 q2 od2,
       is_data w obj1 (Some q1) → cmem w !! q1 = Some (CGeometryData od1) →
       is_data w obj2 (Some q2) → cmem w !! q2 = Some (CGeometryData od2) →
       rgeo_geos_klasses_and_factories_eql rb_funcall obj1 obj2 w
       = rb_funcall (factory od1) "eql?" [factory od2] w).
Proof.
  intros E1 E2. unfold rgeo_geos_klasses_and_factories_eql.
  rewrite (bind_Ok _ _ w c1 w) by exact E1.
  rewrite (bind_Ok _ _ w c2 w) by exact E2.
  split.
  - intros Hne. rewrite decide_True by done. reflexivity.
  - intros -> q1 od1 q2 od2 Hd1 Hq1 Hd2 Hq2.
    rewrite decide_False by (intros H; apply H; reflexivity).
    rewrite (bind_Ok _ _ w (Some q1) w) by (apply DATA_PTR_run; done).
    rewrite (bind_Ok _ _ w od1 w) by (apply load_geometry_run; done).
    rewrite (bind_Ok _ _ w (Some q2) w) by (apply DATA_PTR_run; done).
    rewrite (bind_Ok _ _ w od2 w) by (apply load_geometry_run; done).
    reflexivity.
Qed.

End Unwrap.

(** ** The heap invariant of wrappers *)

Lemma same_heaps_refl w : same_heaps w w.
Proof. split; reflexivity. Qed.

Lemma same_heaps_trans w1 w2 w3 :
  same_heaps w1 w2 → same_heaps w2 w3 → same_heaps w1 w3.
Proof. intros [A1 B1] [A2 B2]. split; congruence. Qed.

Lemma GEOSSetSRID_r_same_heaps context g s :
  preserves same_heaps (GEOSSetSRID_r context g s).
Proof.
  intros w. unfold GEOSSetSRID_r, bind, emit, with_context.
  destruct context as [c|]; [|split; reflexivity].
  destruct (decide _); [|exact I].
  destruct g as [h|]; [|exact I]. cbn.
  destruct (geoms (geos w) !! h); [split; reflexivity | exact I].
Qed.

Lemma wrap_prefix_same_heaps factory_data factory_context geom klass ty :
  preserves same_heaps
    (if decide (ty ≠ T_CLASS) then
       let* d := load_factory factory_data in
       let* globals := load_globals (globals d) in
       let* type_id := GEOSGeomTypeId_r factory_context geom in
       let '(inferred, is_collection) := inferred_klass globals type_id in
       let* ty := TYPE klass in
       ret (inferred,
            if bool_decide (ty = T_ARRAY) && is_collection
            then klass else Qnil)
     else ret (klass, Qnil)).
Proof.
  pose proof same_heaps_refl as Hr. pose proof same_heaps_trans as Ht.
  destruct (decide (ty ≠ T_CLASS)); [|by apply preserves_ret].
  apply preserves_bind; [done| |intros d].
  { apply preserves_pure; [done | apply load_factory_pure]. }
  apply preserves_bind; [done| |intros gl].
  { apply preserves_pure; [done | apply load_globals_pure]. }
  apply preserves_bind; [done| |intros t].
  { apply GEOSGeomTypeId_r_preserves. intros w. split; reflexivity. }
  destruct (inferred_klass gl t).
  apply preserves_bind; [done| |intros t'; by apply preserves_ret].
  apply preserves_pure; [done | apply TYPE_pure].
Qed.

(** X8. [rgeo_wrap_geos_geometry] keeps the heap well formed: whenever it
    returns, with a wrapper or with nil, every object freed by
    [destroy_geometry_func], the new one included, points to a geometry
    struct, provided that was so before. *)
Theorem wrap_keeps_wrappers_ok w self geom klass v w' :
  rgeo_wrap_geos_geometry self geom klass w = Ok v w' →
  wrappers_ok w →
  wrappers_ok w'.
Proof.
  unfold rgeo_wrap_geos_geometry.
  destruct (non_null geom || negb (NIL_P klass)).
  2:{ intros [= _ <-]. done. }
  intros H Hok.
  apply bind_inv in H as (fdp & w1 & E1 & H).
  apply bind_inv in H as (fctx & w2 & E2 & H).
  apply bind_inv in H as (ty & w3 & E3 & H).
  apply bind_inv in H as ([K KS] & w4 & E4 & H).
  apply bind_inv in H as (data & w5 & E5 & H).
  assert (w1 = w) as ->.
  { destruct (NIL_P self); [by injection E1|].
    by apply (pure_call_Ok _ _ _ _ (DATA_PTR_pure self) E1). }
  assert (w2 = w) as ->.
  { destruct (non_null fdp); [|by injection E2].
    apply bind_inv in E2 as (d & w2' & E2 & E2').
    apply (pure_call_Ok _ _ _ _ (load_factory_pure fdp)) in E2 as ->.
    by injection E2'. }
  apply (pure_call_Ok _ _ _ _ (TYPE_pure klass)) in E3 as ->.
  apply (preserves_Ok _ _ _ _ _
           (wrap_prefix_same_heaps fdp fctx geom klass ty)) in E4.
  destruct E4 as [Eo4 Em4].
  unfold ALLOC in E5. destruct (next_fate w4).
  2:{ discriminate E5. }
  injection E5 as <- <-. cbn [non_null] in H.
  set (q := fresh (dom (cmem w4))) in *.
  assert (Hq : cmem w !! q = None)
    by (rewrite <- Em4; apply not_elem_of_dom, is_fresh).
  apply bind_inv in H as ([] & w6 & E6 & H).
  apply bind_inv in H as ([] & w7 & E7 & H).
  assert (Hheaps6 : objs w6 = objs w
                    ∧ cmem w6 = <[q := CRaw]> (cmem w)).
  { assert (same_heaps
              (set_cmem <[q := CRaw]> (set_fates (tail (fates w4)) w4)) w6)
      as [Eo Em].
    { destruct (non_null geom).
      - apply bind_inv in E6 as (d & w5' & E6 & E6').
        apply (pure_call_Ok _ _ _ _ (load_factory_pure fdp)) in E6 as ->.
        exact (preserves_Ok _ _ _ _ _
                 (GEOSSetSRID_r_same_heaps fctx geom (srid d)) E6').
      - injection E6 as <-. apply same_heaps_refl. }
    cbn in Eo, Em. rewrite Eo, Em, Eo4, Em4. done. }
  destruct Hheaps6 as [Eo6 Em6].
  unfold store in E7. rewrite Em6, lookup_insert_eq in E7.
  injection E7 as <-.
  unfold Data_Wrap_Struct in H. injection H as _ <-.
  intros a k m p Ha. cbn [objs cmem set_objs set_cmem] in Ha |- *.
  rewrite Eo6 in Ha. rewrite Em6, insert_insert_eq.
  destruct (decide (a = fresh (dom (objs w)))) as [->|Hne].
  - rewrite lookup_insert_eq in Ha. injection Ha as _ _ <-.
    eexists q, _. split; [reflexivity|]. apply lookup_insert_eq.
  - rewrite lookup_insert_ne in Ha by done.
    destruct (Hok a k m p Ha) as (q' & od & -> & Hq').
    exists q', od. split; [reflexivity|].
    rewrite lookup_insert_ne; [exact Hq'|]. intros <-. congruence.
Qed.

(** ** Wrapping a clone *)

(** X11. [rgeo_wrap_geos_geometry_clone] returns nil for the null handle
    whatever the factory is, and nil when the engine cannot allocate the
    clone, nothing being changed.  When the clone and the wrapper's
    storage are allocated it wraps a new handle: the clone carries the SRID
    of the factory, while the geometry it was cloned from is left as it
    was, SRID included, and still belongs to the caller.  When the clone is
    made but the wrapper's storage cannot be allocated, the call ends in
    [NoMemoryError] and the clone stays in the engine, with the SRID of
    the original, under a handle that no object owns. *)
Theorem wrap_clone_leaves_original w self p d c g klass ty h gm :
  factory_ready w self p d c g →
  TYPE klass w = Ok ty w →
  geoms (geos w) !! h = Some gm →
  (∀ factory klass w0,
     rgeo_wrap_geos_geometry_clone factory NULL klass w0 = Ok Qnil w0)
  ∧ (next_fate w = false →
     ∃ w', rgeo_wrap_geos_geometry_clone self (Some h) klass w = Ok Qnil w'
           ∧ geos w' = geos w ∧ objs w' = objs w ∧ cmem w' = cmem w)
  ∧ (allocations_succeed 2 w →
     ∃ a h' w',
       rgeo_wrap_geos_geometry_clone self (Some h) klass w
       = Ok (Object a) w'
       ∧ h' ≠ h
       ∧ geoms (geos w) !! h' = None
       ∧ geoms (geos w') !! h = Some gm
       ∧ geoms (geos w') !! h' = Some (with_srid (srid d) gm)
       ∧ rgeo_get_geos_geometry_safe (Object a) w' = Ok (Some h') w')
  ∧ (next_fate w = true →
     next_fate (set_fates (tail (fates w)) w) = false →
     ∃ h' w',
       rgeo_wrap_geos_geometry_clone self (Some h) klass w
       = Raise "NoMemoryError" w'
       ∧ geoms (geos w) !! h' = None
       ∧ geoms (geos w') = <[h' := gm]> (geoms (geos w))
       ∧ objs w' = objs w
       ∧ cmem w' = cmem w).
Proof.
  intros Hf Hty Hh. split; [reflexivity|].
  pose proof Hf as ((a0 & k0 & m0 & f0 & -> & Ho & Hp) & Hctx & Hc & _).
  assert (Hstart : ∀ k : pointer → M VALUE,
    (let* factory_data := RGEO_FACTORY_DATA_PTR (Object a0) in
     let* d := load_factory factory_data in
     let* clone_geom := GEOSGeom_clone_r (f_geos_context d) (Some h) in
     k clone_geom) w
    = (let* clone_geom := GEOSGeom_clone_r (Some c) (Some h) in
       k clone_geom) w).
  { intros k.
    rewrite (bind_Ok _ _ w (Some p) w)
      by (unfold RGEO_FACTORY_DATA_PTR, DATA_PTR; rewrite Ho; reflexivity).
    rewrite (bind_Ok _ _ w d w) by (apply load_factory_run; done).
    rewrite Hctx. reflexivity. }
  unfold rgeo_wrap_geos_geometry_clone. cbn [non_null].
  rewrite Hstart. split; [|split].
  - intros Hfate.
    rewrite (bind_Ok _ _ w NULL (set_fates (tail (fates w)) w)).
    2:{ unfold GEOSGeom_clone_r. rewrite with_context_live by done.
        rewrite Hh, Hfate. reflexivity. }
    eexists. split; [reflexivity|]. done.
  - intros Halloc.
    apply allocations_succeed_next in Halloc as [F1 Halloc].
    apply allocations_succeed_next in Halloc as [F2 _].
    set (h' := fresh (dom (geoms (geos w)))).
    assert (Hfresh : geoms (geos w) !! h' = None)
      by (apply not_elem_of_dom, is_fresh).
    assert (Hne : h' ≠ h) by (intros ->; congruence).
    set (w1 := set_geos (set_geoms <[h' := gm]>)
                 (set_fates (tail (fates w)) w)).
    rewrite (bind_Ok _ _ w (Some h') w1).
    2:{ unfold GEOSGeom_clone_r. rewrite with_context_live by done.
        rewrite Hh, F1. reflexivity. }
    cbn [non_null].
    assert (Hf1 : factory_ready w1 (Object a0) p d c g).
    { apply (factory_ready_grows w); [|exact Hf].
      repeat split; try reflexivity. auto. }
    destruct (wrap_run w1 (Object a0) p d c g klass ty h' gm Hf1)
      as (a & q & w' & E & _ & _ & Eo & Em & Eg & _);
      [by apply (TYPE_frame _ w)|apply lookup_insert_eq|exact F2|].
    exists a, h', w'. split; [exact E|]. split; [exact Hne|].
    split; [exact Hfresh|].
    split; [rewrite Eg; cbn; rewrite !lookup_insert_ne by done; exact Hh|].
    split; [rewrite Eg; apply lookup_insert_eq|].
    apply (get_geos_geometry_safe_wrapper w' (Object a) q
             {| geom := Some h'; geos_context := Some c;
                factory := Object a0;
                klasses := if bool_decide (ty ≠ T_CLASS)
                              && bool_decide (ty = T_ARRAY)
                              && collection_kind
                                   (kind_of_type_id (g_type gm))
                           then klass else Qnil |}).
    eexists a, _, _. split; [reflexivity|].
    split; [rewrite Eo; apply lookup_insert_eq
           |rewrite Em; apply lookup_insert_eq].
  - intros F1 F2.
    set (h' := fresh (dom (geoms (geos w)))).
    assert (Hfresh : geoms (geos w) !! h' = None)
      by (apply not_elem_of_dom, is_fresh).
    set (w1 := set_geos (set_geoms <[h' := gm]>)
                 (set_fates (tail (fates w)) w)).
    rewrite (bind_Ok _ _ w (Some h') w1).
    2:{ unfold GEOSGeom_clone_r. rewrite with_context_live by done.
        rewrite Hh, F1. reflexivity. }
    cbn [non_null].
    assert (Hf1 : factory_ready w1 (Object a0) p d c g).
    { apply (factory_ready_grows w); [|exact Hf].
      repeat split; try reflexivity. auto. }
    destruct (wrap_fail_run w1 (Object a0) p d c g klass ty h' gm Hf1)
      as (w' & E & Eo & Em & Eg & _);
      [by apply (TYPE_frame _ w)|apply lookup_insert_eq|exact F2|].
    exists h', w'. split; [exact E|]. split; [exact Hfresh|].
    rewrite Eg, Eo, Em. done.
Qed.

(** ** The life of a factory *)

(** [cmethod_factory_create] on its successful path. *)
Lemma create_run (rb_to_integer : VALUE → M VALUE)
    w klass a k consts wrapped gp (fl sr br : Z) :
  klass = Object a →
  objs w !! a = Some {| basic_klass := k; body := BClass consts |} →
  consts !! "INTERNAL_CGLOBALS" = Some wrapped →
  is_data w wrapped gp →
  INT_MIN ≤ fl ≤ INT_MAX → INT_MIN ≤ sr ≤ INT_MAX →
  INT_MIN ≤ br ≤ INT_MAX →
  allocations_succeed 2 w →
  let p := fresh (dom (cmem w)) in
  let c := fresh (contexts (geos w)) in
  let self := fresh (dom (objs w)) in
  ∃ w',
    cmethod_factory_create rb_to_integer klass (Integer fl) (Integer sr)
      (Integer br) w
    = Ok (Object self) w'
    ∧ objs w'
      = <[self := {| basic_klass := klass;
                     body := BData FP_NULL FP_destroy_factory_func
                               (Some p) |}]> (objs w)
    ∧ cmem w'
      = <[p := CFactoryData (new_factory_data gp (Some c) fl sr br)]>
          (cmem w)
    ∧ contexts (geos w') = {[c]} ∪ contexts (geos w)
    ∧ helpers (geos w') = helpers (geos w)
    ∧ geoms (geos w') = geoms (geos w)
    ∧ trace w' = trace w ++ [E_initGEOS (Some c)].
Proof.
  intros -> Ha Hconst (g & kg & mg & fg & -> & Hg) Hfl Hsr Hbr Halloc
         p c self.
  apply allocations_succeed_next in Halloc as [F1 Halloc].
  apply allocations_succeed_next in Halloc as [F2 _].
  unfold cmethod_factory_create.
  set (w1 := set_cmem <[p := CRaw]> (set_fates (tail (fates w)) w)).
  rewrite (bind_Ok _ _ w (Some p) w1)
    by (unfold ALLOC; rewrite F1; reflexivity).
  cbn [non_null].
  set (w2 := log (E_initGEOS (Some c))
               (set_geos (set_contexts (union {[c]}))
                  (set_fates (tail (fates w1)) w1))).
  rewrite (bind_Ok _ _ w1 (Some c) w2)
    by (unfold initGEOS_r;
        change (next_fate w1) with
          (next_fate (set_fates (tail (fates w)) w));
        rewrite F2; reflexivity).
  cbn [non_null].
  rewrite (bind_Ok _ _ w2 (Object g) w2)
    by (unfold rb_const_get_at; cbn; rewrite Ha, Hconst; reflexivity).
  rewrite (bind_Ok _ _ w2 gp w2)
    by (unfold DATA_PTR; cbn; rewrite Hg; reflexivity).
  unfold NUM2INT, check_int. rewrite !decide_True by done.
  rewrite (bind_Ok _ _ w2 fl w2) by reflexivity.
  rewrite (bind_Ok _ _ w2 sr w2) by reflexivity.
  rewrite (bind_Ok _ _ w2 br w2) by reflexivity.
  fold (new_factory_data gp (Some c) fl sr br).
  set (w3 := set_cmem
               <[p := CFactoryData (new_factory_data gp (Some c) fl sr br)]>
               w2).
  rewrite (bind_Ok _ _ w2 tt w3)
    by (unfold store; cbn; rewrite lookup_insert_eq; reflexivity).
  eexists. split; [reflexivity|]. cbn.
  rewrite insert_insert_eq. done.
Qed.

(** X12. A factory that is created and destroyed right away leaves nothing
    behind: [destroy_factory_func] on the struct of the new factory ends
    normally, and afterwards the C heap, the contexts, the helper handles
    and the geometries are what they were before the construction. *)
Theorem create_then_destroy_leaves_nothing (rb_to_integer : VALUE → M VALUE)
    w klass a k consts wrapped gp (fl sr br : Z) :
  klass = Object a →
  objs w !! a = Some {| basic_klass := k; body := BClass consts |} →
  consts !! "INTERNAL_CGLOBALS" = Some wrapped →
  is_data w wrapped gp →
  INT_MIN ≤ fl ≤ INT_MAX → INT_MIN ≤ sr ≤ INT_MAX →
  INT_MIN ≤ br ≤ INT_MAX →
  allocations_succeed 2 w →
  ∃ self p c w1 w2,
    cmethod_factory_create rb_to_integer klass (Integer fl) (Integer sr)
      (Integer br) w
    = Ok self w1
    ∧ RGEO_FACTORY_DATA_PTR self w1 = Ok (Some p) w1
    ∧ destroy_factory_func (Some p) w1 = Ok tt w2
    ∧ cmem w2 = cmem w
    ∧ contexts (geos w2) = contexts (geos w)
    ∧ helpers (geos w2) = helpers (geos w)
    ∧ geoms (geos w2) = geoms (geos w)
    ∧ trace w2
      = trace w ++ [E_initGEOS (Some c); E_finishGEOS (Some c);
                    E_free (Some p)].
Proof.
  intros Hk Ha Hconst Hdata Hfl Hsr Hbr Halloc.
  destruct (create_run rb_to_integer w klass a k consts wrapped gp fl sr br
              Hk Ha Hconst Hdata Hfl Hsr Hbr Halloc)
    as (w1 & E & Eo & Em & Ec & Ehp & Eg & Et).
  set (p := fresh (dom (cmem w))) in *.
  set (c := fresh (contexts (geos w))) in *.
  set (self := fresh (dom (objs w))) in *.
  assert (Hp : cmem w1 !! p
               = Some (CFactoryData (new_factory_data gp (Some c) fl sr br)))
    by (rewrite Em; apply lookup_insert_eq).
  assert (Hc : c ∈ contexts (geos w1))
    by (rewrite Ec; apply elem_of_union_l, elem_of_singleton; reflexivity).
  assert (Hfresh : c ∉ contexts (geos w)) by apply is_fresh.
  eexists (Object self), p, c, w1, _. split; [exact E|].
  split; [unfold RGEO_FACTORY_DATA_PTR, DATA_PTR;
          rewrite Eo, lookup_insert_eq; reflexivity|].
  split.
  { unfold destroy_factory_func.
    rewrite (bind_Ok _ _ w1 _ w1) by (apply load_factory_run; exact Hp).
    cbn [new_factory_data wkt_reader wkb_reader wkt_writer wkb_writer
           f_geos_context non_null].
    rewrite !(bind_Ok _ _ w1 tt w1) by reflexivity.
    unfold finishGEOS_r, free, bind, emit.
    rewrite with_context_live by exact Hc.
    cbn [cmem log set_geos]. rewrite Hp. reflexivity. }
  cbn [cmem contexts helpers geoms geos trace set_cmem log set_geos
         set_contexts].
  split; [rewrite Em; apply delete_insert_id, not_elem_of_dom, is_fresh|].
  split.
  { rewrite Ec. apply set_eq. intros x.
    rewrite elem_of_difference, elem_of_union, !elem_of_singleton.
    split; [intros [[->|H] Hx]; done|].
    intros H. split; [by right|]. intros ->. done. }
  split; [exact Ehp|]. split; [exact Eg|].
  rewrite Et, <- !app_assoc. reflexivity.
Qed.

(** X13. A construction that cannot complete keeps nothing, whatever its
    arguments are: when the struct cannot be allocated, [ALLOC] raises
    [NoMemoryError] before anything else happens; when the engine cannot
    create the context, the call returns nil and the struct is freed
    again, so that the two heaps and the engine are as they were. *)
Theorem create_failure_keeps_nothing (rb_to_integer : VALUE → M VALUE)
    w klass flags srid buffer_resolution :
  (next_fate w = false →
   cmethod_factory_create rb_to_integer klass flags srid buffer_resolution w
   = Raise "NoMemoryError" (set_fates (tail (fates w)) w))
  ∧ (next_fate w = true →
     next_fate (set_fates (tail (fates w)) w) = false →
     ∃ p w',
       cmethod_factory_create rb_to_integer klass flags srid buffer_resolution w
       = Ok Qnil w'
       ∧ cmem w !! p = None
       ∧ cmem w' = cmem w
       ∧ objs w' = objs w
       ∧ geos w' = geos w
       ∧ trace w' = trace w ++ [E_initGEOS NULL; E_free (Some p)]).
Proof.
  unfold cmethod_factory_create. split.
  - intros F1. unfold bind at 1, ALLOC. rewrite F1. reflexivity.
  - intros F1 F2.
    set (p := fresh (dom (cmem w))).
    assert (Hp : cmem w !! p = None) by apply not_elem_of_dom, is_fresh.
    set (w1 := set_cmem <[p := CRaw]> (set_fates (tail (fates w)) w)).
    rewrite (bind_Ok _ _ w (Some p) w1)
      by (unfold ALLOC; rewrite F1; reflexivity).
    cbn [non_null].
    rewrite (bind_Ok _ _ w1 NULL
               (log (E_initGEOS NULL) (set_fates (tail (fates w1)) w1)))
      by (unfold initGEOS_r;
          change (next_fate w1) with
            (next_fate (set_fates (tail (fates w)) w));
          rewrite F2; reflexivity).
    cbn [non_null]. unfold free, bind, emit. cbn.
    rewrite lookup_insert_eq.
    eexists p, _. split; [reflexivity|]. cbn.
    split; [exact Hp|]. split; [by apply delete_insert_id|].
    rewrite <- app_assoc. done.
Qed.

(** X14. A construction that raises keeps what it has allocated: when the
    flags are nil, an integer that does not fit a C [int], or a float
    whose integer part does not, [NUM2INT] raises after the struct and the
    context were allocated, and the call leaves with both still allocated
    and the Ruby heap as it was, so that no object owns them. *)
Theorem create_raise_keeps_allocations (rb_to_integer : VALUE → M VALUE)
    w klass a k consts wrapped gp flags srid buffer_resolution :
  klass = Object a →
  objs w !! a = Some {| basic_klass := k; body := BClass consts |} →
  consts !! "INTERNAL_CGLOBALS" = Some wrapped →
  is_data w wrapped gp →
  not_an_int flags →
  allocations_succeed 2 w →
  ∃ exc p c w',
    cmethod_factory_create rb_to_integer klass flags srid buffer_resolution w
    = Raise exc w'
    ∧ cmem w !! p = None
    ∧ cmem w' !! p = Some CRaw
    ∧ (c ∉ contexts (geos w))
    ∧ c ∈ contexts (geos w')
    ∧ objs w' = objs w.
Proof.
  intros -> Ha Hconst (g & kg & mg & fg & -> & Hg) Hbad Halloc.
  apply allocations_succeed_next in Halloc as [F1 Halloc].
  apply allocations_succeed_next in Halloc as [F2 _].
  unfold cmethod_factory_create.
  set (p := fresh (dom (cmem w))).
  set (c := fresh (contexts (geos w))).
  set (w1 := set_cmem <[p := CRaw]> (set_fates (tail (fates w)) w)).
  rewrite (bind_Ok _ _ w (Some p) w1)
    by (unfold ALLOC; rewrite F1; reflexivity).
  cbn [non_null].
  set (w2 := log (E_initGEOS (Some c))
               (set_geos (set_contexts (union {[c]}))
                  (set_fates (tail (fates w1)) w1))).
  rewrite (bind_Ok _ _ w1 (Some c) w2)
    by (unfold initGEOS_r;
        change (next_fate w1) with
          (next_fate (set_fates (tail (fates w)) w));
        rewrite F2; reflexivity).
  cbn [non_null].
  rewrite (bind_Ok _ _ w2 (Object g) w2)
    by (unfold rb_const_get_at; cbn; rewrite Ha, Hconst; reflexivity).
  rewrite (bind_Ok _ _ w2 gp w2)
    by (unfold DATA_PTR; cbn; rewrite Hg; reflexivity).
  assert (Hraise : ∃ exc, NUM2INT rb_to_integer flags w2 = Raise exc w2).
  { destruct Hbad as [-> | [(z & -> & Hz) | (f & -> & Hf)]].
    - eexists; reflexivity.
    - unfold NUM2INT, check_int. rewrite decide_False by exact Hz.
      eexists; reflexivity.
    - unfold NUM2INT. destruct (double_truncate f) as [z|] eqn:Ez;
        [|eexists; reflexivity].
      unfold check_int. rewrite decide_False by (apply Hf; reflexivity).
      eexists; reflexivity. }
  destruct Hraise as (exc & Hraise).
  exists exc, p, c, w2. split; [unfold bind; rewrite Hraise; reflexivity|].
  split; [apply not_elem_of_dom, is_fresh|].
  split; [cbn; apply lookup_insert_eq|].
  split; [apply is_fresh|].
  split; [cbn; apply elem_of_union_l, elem_of_singleton; reflexivity|].
  reflexivity.
Qed.

(** ** Parsing: the input *)

(** X15. Both parse methods check their argument first: for anything that
    is no Ruby string they raise [TypeError] and leave the world as it
    was, whatever the receiver is; no reader is created. *)
Theorem parse_rejects_non_string
    (wkt_grammar wkb_grammar : string → option geometry) w self str ty :
  TYPE str w = Ok ty w →
  ty ≠ T_STRING →
  method_factory_parse_wkt wkt_grammar self str w = Raise "TypeError" w
  ∧ method_factory_parse_wkb wkb_grammar self str w = Raise "TypeError" w.
Proof.
  intros Hty Hne.
  assert (Hcheck : Check_Type str T_STRING w = Raise "TypeError" w).
  { unfold Check_Type, bind. rewrite Hty.
    rewrite decide_False by done. reflexivity. }
  unfold method_factory_parse_wkt, method_factory_parse_wkb.
  split; unfold bind at 1; rewrite Hcheck; reflexivity.
Qed.

(** X16. [method_factory_parse_wkt] hands the engine the bytes of the
    string up to the first zero byte only: two strings that agree up to
    there are parsed alike, whatever follows the zero byte. *)
Theorem parse_wkt_stops_at_zero_byte
    (wkt_grammar : string → option geometry) w self p d c g
    str1 text1 str2 text2 :
  factory_ready w self p d c g →
  helper_ok w WKTReader (wkt_reader d) →
  is_string w str1 text1 →
  is_string w str2 text2 →
  c_str text1 = c_str text2 →
  method_factory_parse_wkt wkt_grammar self str1 w
  = method_factory_parse_wkt wkt_grammar self str2 w.
Proof.
  intros Hf Hh Hs1 Hs2 Heq.
  pose proof (parse_run WKTReader wkt_grammar wkt_reader set_wkt_reader
                E_WKTReader_create E_WKTReader_read c_str
                w self str1 p d c g text1 Hf Hh Hs1) as E1.
  pose proof (parse_run WKTReader wkt_grammar wkt_reader set_wkt_reader
                E_WKTReader_create E_WKTReader_read c_str
                w self str2 p d c g text2 Hf Hh Hs2) as E2.
  change (parse_with_reader WKTReader wkt_grammar wkt_reader set_wkt_reader
            E_WKTReader_create E_WKTReader_read c_str)
    with (method_factory_parse_wkt wkt_grammar) in E1, E2.
  rewrite E1, E2, Heq. reflexivity.
Qed.

Lemma c_str_app_zero (s t : string) :
  c_str (s +:+ String Ascii.zero t) = c_str s.
Proof.
  induction s as [|ch s IH]; [reflexivity|].
  change (c_str (String ch (s +:+ String Ascii.zero t))
          = c_str (String ch s)).
  cbn [c_str]. rewrite IH. reflexivity.
Qed.

(** ** More on the comparison and on wrapping *)

Lemma components_without_z_subset c first count :
  c ∈ components false first count → c ∈ components true first count.
Proof.
  unfold components. rewrite !list_elem_of_In, !in_flat_map.
  intros (k & Hk & Hc). exists k. split; [exact Hk|].
  cbn [axes map] in *. destruct Hc as [<-|[<-|[]]]; [left|right; left];
    reflexivity.
Qed.

(** X17. Comparing with Z is the stricter test: two geometries that are
    [Qtrue]-equal with [check_z] are [Qtrue]-equal without it. *)
Theorem coordseqs_eql_with_z_implies_without e context geom1 geom2 :
  rgeo_geos_coordseqs_eql e context geom1 geom2 true = Qtrue →
  rgeo_geos_coordseqs_eql e context geom1 geom2 false = Qtrue.
Proof.
  rewrite !coordseqs_eql_true_iff.
  intros (g1 & g2 & cs1 & cs2 & len & H1 & H2 & E1 & E2 & S1 & S2 & Hall).
  exists g1, g2, cs1, cs2, len. repeat (split; [done|]).
  intros c Hc. apply Hall, components_without_z_subset, Hc.
Qed.

(** X18. The nil factory is tolerated for the null handle only: wrapping a
    handle that is not null for the nil factory dereferences the null
    struct pointer, for the registry when the hint is no class and for the
    SRID once the wrapper's storage is allocated. *)
Theorem wrap_needs_factory_for_handle w h klass ty :
  TYPE klass w = Ok ty w →
  ty ≠ T_CLASS ∨ next_fate w = true →
  rgeo_wrap_geos_geometry Qnil (Some h) klass w = Fault.
Proof.
  intros Hty Hcase.
  unfold rgeo_wrap_geos_geometry. cbn [non_null orb NIL_P].
  rewrite (bind_Ok _ _ w NULL w) by reflexivity. cbn [non_null].
  rewrite (bind_Ok _ _ w NULL w) by reflexivity.
  rewrite (bind_Ok _ _ w ty w) by exact Hty.
  destruct (decide (ty ≠ T_CLASS)) as [Hn|Hn]; [reflexivity|].
  destruct Hcase as [Hc|Hfate]; [done|].
  rewrite (bind_Ok _ _ w (klass, Qnil) w) by reflexivity.
  unfold bind at 1, ALLOC. rewrite Hfate. reflexivity.
Qed.

(** ** From parsing to destruction *)

(** [destroy_factory_func] on a factory whose helper handles are absent or
    alive. *)
Lemma destroy_factory_run w p d c :
  cmem w !! p = Some (CFactoryData d) →
  f_geos_context d = Some c →
  c ∈ contexts (geos w) →
  helper_ok w WKTReader (wkt_reader d) →
  helper_ok w WKBReader (wkb_reader d) →
  helper_ok w WKTWriter (wkt_writer d) →
  helper_ok w WKBWriter (wkb_writer d) →
  ∃ w',
    destroy_factory_func (Some p) w = Ok tt w'
    ∧ trace w'
      = trace w
        ++ call_if_present (E_WKTReader_destroy (Some c)) (wkt_reader d)
        ++ call_if_present (E_WKBReader_destroy (Some c)) (wkb_reader d)
        ++ call_if_present (E_WKTWriter_destroy (Some c)) (wkt_writer d)
        ++ call_if_present (E_WKBWriter_destroy (Some c)) (wkb_writer d)
        ++ [E_finishGEOS (Some c); E_free (Some p)]
    ∧ helpers (geos w')
      = release (wkb_writer d) (release (wkt_writer d)
          (release (wkb_reader d) (release (wkt_reader d)
             (helpers (geos w)))))
    ∧ contexts (geos w') = contexts (geos w) ∖ {[c]}
    ∧ cmem w' = delete p (cmem w)
    ∧ objs w' = objs w
    ∧ geoms (geos w') = geoms (geos w).
Proof.
  intros Hp Hctx Hc H1 H2 H3 H4.
  set (w1 := after_release (E_WKTReader_destroy (Some c)) (wkt_reader d) w).
  set (w2 := after_release (E_WKBReader_destroy (Some c)) (wkb_reader d) w1).
  set (w3 := after_release (E_WKTWriter_destroy (Some c)) (wkt_writer d) w2).
  set (w4 := after_release (E_WKBWriter_destroy (Some c)) (wkb_writer d) w3).
  destruct (after_release_frame (E_WKTReader_destroy (Some c))
              (wkt_reader d) w) as (C1 & G1 & M1 & O1 & _).
  destruct (after_release_frame (E_WKBReader_destroy (Some c))
              (wkb_reader d) w1) as (C2 & G2 & M2 & O2 & _).
  destruct (after_release_frame (E_WKTWriter_destroy (Some c))
              (wkt_writer d) w2) as (C3 & G3 & M3 & O3 & _).
  destruct (after_release_frame (E_WKBWriter_destroy (Some c))
              (wkb_writer d) w3) as (C4 & G4 & M4 & O4 & _).
  fold w1 in C1, G1, M1, O1. fold w2 in C2, G2, M2, O2.
  fold w3 in C3, G3, M3, O3. fold w4 in C4, G4, M4, O4.
  assert (K2 : helper_ok w1 WKBReader (wkb_reader d)).
  { apply (helper_ok_release w WKTReader WKBReader (wkt_reader d));
      [done|done|done|apply after_release_helpers]. }
  assert (K3' : helper_ok w1 WKTWriter (wkt_writer d)).
  { apply (helper_ok_release w WKTReader WKTWriter (wkt_reader d));
      [done|done|done|apply after_release_helpers]. }
  assert (K4' : helper_ok w1 WKBWriter (wkb_writer d)).
  { apply (helper_ok_release w WKTReader WKBWriter (wkt_reader d));
      [done|done|done|apply after_release_helpers]. }
  assert (K3 : helper_ok w2 WKTWriter (wkt_writer d)).
  { apply (helper_ok_release w1 WKBReader WKTWriter (wkb_reader d));
      [done|done|done|apply after_release_helpers]. }
  assert (K4'' : helper_ok w2 WKBWriter (wkb_writer d)).
  { apply (helper_ok_release w1 WKBReader WKBWriter (wkb_reader d));
      [done|done|done|apply after_release_helpers]. }
  assert (K4 : helper_ok w3 WKBWriter (wkb_writer d)).
  { apply (helper_ok_release w2 WKTWriter WKBWriter (wkt_writer d));
      [done|done|done|apply after_release_helpers]. }
  assert (Hc1 : c ∈ contexts (geos w1)) by (rewrite C1; done).
  assert (Hc2 : c ∈ contexts (geos w2)) by (rewrite C2; done).
  assert (Hc3 : c ∈ contexts (geos w3)) by (rewrite C3; done).
  assert (Hc4 : c ∈ contexts (geos w4)) by (rewrite C4; done).
  assert (Hp4 : cmem w4 !! p = Some (CFactoryData d))
    by (rewrite M4, M3, M2, M1; done).
  exists (set_cmem (delete p)
            (log (E_free (Some p))
               (set_geos (set_contexts (λ s, s ∖ {[c]}))
                  (log (E_finishGEOS (Some c)) w4)))).
  split.
  - unfold destroy_factory_func.
    rewrite (bind_Ok _ _ w d w)
      by (unfold load_factory, load, bind; rewrite Hp; reflexivity).
    cbv zeta. rewrite Hctx.
    rewrite (bind_Ok _ _ w tt w1)
      by (apply (guarded_destroy_run WKTReader E_WKTReader_destroy); done).
    rewrite (bind_Ok _ _ w1 tt w2)
      by (apply (guarded_destroy_run WKBReader E_WKBReader_destroy); done).
    rewrite (bind_Ok _ _ w2 tt w3)
      by (apply (guarded_destroy_run WKTWriter E_WKTWriter_destroy); done).
    rewrite (bind_Ok _ _ w3 tt w4)
      by (apply (guarded_destroy_run WKBWriter E_WKBWriter_destroy); done).
    unfold finishGEOS_r, free, bind, emit.
    rewrite with_context_live by done.
    cbn [cmem log set_geos]. rewrite Hp4. reflexivity.
  - cbn [trace set_cmem log set_geos geos helpers contexts set_contexts
           cmem objs geoms].
    unfold w4, w3, w2, w1.
    rewrite !after_release_trace, !after_release_helpers.
    fold w1 w2 w3 w4. rewrite C4, C3, C2, C1, M4, M3, M2, M1.
    rewrite O4, O3, O2, O1, G4, G3, G2, G1.
    rewrite <- !app_assoc. repeat split; reflexivity.
Qed.

Section ParseLifecycle.

Context (kind : helper_kind) (grammar : string → option geometry)
  (reader_of : RGeo_FactoryData → pointer)
  (set_reader : pointer → RGeo_FactoryData → RGeo_FactoryData)
  (create_ev : pointer → pointer → event)
  (read_ev : pointer → pointer → string → pointer → event)
  (input_of : string → string).

Hypothesis reader_of_set : ∀ r d, reader_of (set_reader r d) = r.
Hypothesis context_set :
  ∀ r d, f_geos_context (set_reader r d) = f_geos_context d.
Hypothesis globals_set : ∀ r d, globals (set_reader r d) = globals d.
Hypothesis srid_set : ∀ r d, srid (set_reader r d) = srid d.
Hypothesis create_ev_create : ∀ c r, is_reader_create (create_ev c r) = true.
Hypothesis read_ev_no_create :
  ∀ c r s gh, is_reader_create (read_ev c r s gh) = false.

Abbreviation parse_lc :=
  (parse_with_reader kind grammar reader_of set_reader create_ev read_ev
     input_of).

(** A first parse that succeeds, with everything it adds to the world. *)
Lemma parse_first_success w self str p d c g text gm :
  factory_ready w self p d c g →
  is_string w str text →
  reader_of d = NULL →
  grammar (input_of text) = Some gm →
  allocations_succeed 2 w →
  ∃ a q r h K w',
    parse_lc self str w = Ok (Object a) w'
    ∧ objs w !! a = None
    ∧ cmem w !! q = None
    ∧ helpers (geos w) !! r = None
    ∧ geoms (geos w) !! h = None
    ∧ objs w' = <[a := wrapper_object K q]> (objs w)
    ∧ cmem w'
      = <[q := CGeometryData
                 {| geom := Some h; geos_context := Some c;
                    factory := self; klasses := Qnil |}]>
          (<[p := CFactoryData (set_reader (Some r) d)]> (cmem w))
    ∧ helpers (geos w') = <[r := kind]> (helpers (geos w))
    ∧ geoms (geos w') = <[h := with_srid (srid d) gm]> (geoms (geos w))
    ∧ contexts (geos w') = contexts (geos w).
Proof.
  intros Hf Hs Er Eg Halloc.
  assert (Hh : helper_ok w kind (reader_of d)) by (rewrite Er; exact I).
  apply allocations_succeed_next in Halloc as [F1 Halloc].
  apply allocations_succeed_next in Halloc as [F2 _].
  rewrite (parse_run kind grammar reader_of set_reader create_ev read_ev
             input_of w self str p d c g text Hf Hh Hs).
  pose proof (settled_facts kind reader_of set_reader create_ev
                reader_of_set context_set globals_set create_ev_create
                w self p d c g Hf Hh) as Hsettled.
  unfold settled, cached_data in *. rewrite Er, F1 in *.
  cbn [fst snd] in Hsettled.
  set (r := fresh (dom (helpers (geos w)))) in *.
  set (w1 := set_cmem <[p := CFactoryData (set_reader (Some r) d)]>
               (log (create_ev (Some c) (Some r))
                  (set_geos (set_helpers <[r := kind]>)
                     (set_fates (tail (fates w)) w)))) in *.
  destruct Hsettled as (Hf1 & _ & _ & _ & _ & _ & _ & _).
  cbn [non_null].
  pose proof (after_read_facts grammar read_ev read_ev_no_create
                w1 self p _ c g (Some r) (input_of text) Hf1) as Hread.
  unfold after_read in *. rewrite Eg in *. cbn [fst snd] in Hread.
  set (h := fresh (dom (geoms (geos w1)))) in *.
  set (w2 := log (read_ev (Some c) (Some r) (input_of text) (Some h))
               (set_geos (set_geoms <[h := gm]>) w1)) in *.
  destruct Hread as (Hf2 & _).
  cbn [non_null].
  destruct (wrap_run w2 self p _ c g Qnil T_NIL h gm Hf2 eq_refl)
    as (a & q & w' & E & Ha & Hq & Eo & Em & Egm & Ec & Ehp & _);
    [apply lookup_insert_eq|exact F2|].
  rewrite bool_decide_true in Eo, Em by discriminate.
  rewrite bool_decide_false in Em by discriminate.
  rewrite srid_set in Egm.
  assert (Hp : is_Some (cmem w !! p)).
  { destruct Hf as ((? & ? & ? & ? & _ & _ & Hp) & _). eauto. }
  eexists a, q, r, h, _, w'. split; [exact E|].
  split; [exact Ha|].
  split.
  { cbn in Hq. destruct (decide (q = p)) as [->|Hne].
    - rewrite lookup_insert_eq in Hq. discriminate.
    - by rewrite lookup_insert_ne in Hq. }
  split; [apply not_elem_of_dom, is_fresh|].
  split; [apply not_elem_of_dom, (is_fresh (dom (geoms (geos w))))|].
  split; [exact Eo|]. split; [exact Em|].
  split; [rewrite Ehp; reflexivity|].
  split; [rewrite Egm; cbn; apply insert_insert_eq|].
  rewrite Ec. reflexivity.
Qed.

(** From a first successful parse to the destruction of the wrapper and
    then of the factory. *)
Lemma parse_lifecycle w self str p d c g text gm :
  factory_ready w self p d c g →
  is_string w str text →
  reader_of d = NULL →
  (∀ r, wkt_reader (set_reader r d) = (if decide (kind = WKTReader)
                                       then r else wkt_reader d)) →
  (∀ r, wkb_reader (set_reader r d) = (if decide (kind = WKBReader)
                                       then r else wkb_reader d)) →
  (∀ r, wkt_writer (set_reader r d) = wkt_writer d) →
  (∀ r, wkb_writer (set_reader r d) = wkb_writer d) →
  kind = WKTReader ∨ kind = WKBReader →
  (kind = WKTReader → wkt_reader d = NULL) →
  (kind = WKBReader → wkb_reader d = NULL) →
  helper_ok w WKTReader (wkt_reader d) →
  helper_ok w WKBReader (wkb_reader d) →
  helper_ok w WKTWriter (wkt_writer d) →
  helper_ok w WKBWriter (wkb_writer d) →
  grammar (input_of text) = Some gm →
  allocations_succeed 2 w →
  ∃ a q w1 w2 w3,
    parse_lc self str w = Ok (Object a) w1
    ∧ RGEO_GEOMETRY_DATA_PTR (Object a) w1 = Ok (Some q) w1
    ∧ destroy_geometry_func (Some q) w1 = Ok tt w2
    ∧ destroy_factory_func (Some p) w2 = Ok tt w3
    ∧ geoms (geos w3) = geoms (geos w)
    ∧ cmem w3 = delete p (cmem w)
    ∧ contexts (geos w3) = contexts (geos w) ∖ {[c]}
    ∧ helpers (geos w3)
      = release (wkb_writer d) (release (wkt_writer d)
          (release (wkb_reader d) (release (wkt_reader d)
             (helpers (geos w))))).
Proof.
  intros Hf Hs Er Hwktr Hwkbr Hwktw Hwkbw Hkind Hn1 Hn2 H1 H2 H3 H4 Eg
         Halloc.
  destruct (parse_first_success w self str p d c g text gm Hf Hs Er Eg Halloc)
    as (a & q & r & h & K & w1 & E & Ha & Hq & Hr & Hh & Eo & Em & Ehp
        & Egm & Ec).
  pose proof Hf as ((a0 & k0 & m0 & f0 & -> & Ho & Hp) & Hctx & Hc & _).
  assert (Hqp : q ≠ p) by (intros ->; congruence).
  destruct (destroy_geometry_run w1 q
              {| geom := Some h; geos_context := Some c;
                 factory := Object a0; klasses := Qnil |})
    as (w2 & E2 & Em2 & Eg2 & Ec2 & Ehp2 & _ & _).
  { rewrite Em. apply lookup_insert_eq. }
  { cbn. rewrite Egm, lookup_insert_eq. eauto. }
  cbn [geom] in Eg2.
  assert (Em2' : cmem w2 = <[p := CFactoryData (set_reader (Some r) d)]>
                             (cmem w)).
  { rewrite Em2, Em. apply delete_insert_id.
    by rewrite lookup_insert_ne. }
  assert (Hok : ∀ k' hp, helper_ok w k' hp → helper_ok w2 k' hp).
  { intros k' [hh|] Hk; [|exact I]. cbn in *.
    rewrite Ehp2, Ehp, lookup_insert_ne; [exact Hk|].
    intros <-. congruence. }
  assert (Hnew : helper_ok w2 kind (Some r)).
  { cbn. rewrite Ehp2, Ehp. apply lookup_insert_eq. }
  destruct (destroy_factory_run w2 p (set_reader (Some r) d) c)
    as (w3 & E3 & _ & Ehp3 & Ec3 & Em3 & _ & Eg3).
  { rewrite Em2'. apply lookup_insert_eq. }
  { rewrite context_set. exact Hctx. }
  { rewrite Ec2, Ec. exact Hc. }
  { rewrite Hwktr. destruct (decide (kind = WKTReader)) as [<-|_]; auto. }
  { rewrite Hwkbr. destruct (decide (kind = WKBReader)) as [<-|_]; auto. }
  { rewrite Hwktw. auto. }
  { rewrite Hwkbw. auto. }
  exists a, q, w1, w2, w3. split; [exact E|].
  split; [unfold RGEO_GEOMETRY_DATA_PTR, DATA_PTR;
          rewrite Eo, lookup_insert_eq; reflexivity|].
  split; [exact E2|]. split; [exact E3|].
  split; [rewrite Eg3, Eg2, Egm; by apply delete_insert_id|].
  split; [rewrite Em3, Em2'; apply delete_insert_eq|].
  split; [rewrite Ec3, Ec2, Ec; reflexivity|].
  rewrite Ehp3, Ehp2, Ehp, Hwktr, Hwkbr, Hwktw, Hwkbw.
  assert (Hrel : ∀ hp m, hp ≠ Some r →
            release hp (<[r := kind]> m) = <[r := kind]> (release hp m)).
  { intros [x|] m Hx; [|reflexivity]. cbn.
    apply delete_insert_ne. congruence. }
  assert (Hne : ∀ k' hp, helper_ok w k' hp → hp ≠ Some r).
  { intros k' [x|] Hk; [|discriminate]. cbn in Hk. intros [= ->].
    congruence. }
  assert (Hgone : ∀ m, m !! r = None →
            release (Some r) (<[r := kind]> m) = m).
  { intros m Hm. cbn. by apply delete_insert_id. }
  assert (Hrelnone : ∀ hp m, m !! r = None → release hp m !! r = None).
  { intros [x|] m Hm; [|exact Hm]. cbn.
    destruct (decide (x = r)) as [->|Hx];
      [apply lookup_delete_eq | by rewrite lookup_delete_ne]. }
  destruct Hkind as [Hk|Hk]; subst kind.
  - destruct (decide (WKTReader = WKTReader)); [|done].
    destruct (decide (WKTReader = WKBReader)); [discriminate|].
    rewrite Hgone by exact Hr.
    rewrite (Hn1 eq_refl). reflexivity.
  - destruct (decide (WKBReader = WKBReader)); [|done].
    destruct (decide (WKBReader = WKTReader)); [discriminate|].
    rewrite (Hrel (wkt_reader d)) by (by apply (Hne WKTReader)).
    rewrite Hgone by (by apply Hrelnone).
    rewrite (Hn2 eq_refl). reflexivity.
Qed.

End ParseLifecycle.

(** X19. From the first parse to the end: when a factory without a reader
    parses an input into a wrapper, and the wrapper and then the factory
    are destroyed, both destructions end normally and nothing of what the
    three calls created is left: the geometries are those from before the
    parse, the reader the parse created is destroyed with the factory's
    other helper handles and its context, and of the C heap only the
    factory struct is gone.  This holds for the WKT and for the WKB
    method. *)
Theorem parse_then_destroy_leaves_nothing
    (wkt_grammar wkb_grammar : string → option geometry)
    w self str p d c g text gm :
  factory_ready w self p d c g →
  is_string w str text →
  helper_ok w WKTReader (wkt_reader d) →
  helper_ok w WKBReader (wkb_reader d) →
  helper_ok w WKTWriter (wkt_writer d) →
  helper_ok w WKBWriter (wkb_writer d) →
  allocations_succeed 2 w →
  let released :=
    release (wkb_writer d) (release (wkt_writer d)
      (release (wkb_reader d) (release (wkt_reader d)
         (helpers (geos w))))) in
  (wkt_reader d = NULL → wkt_grammar (c_str text) = Some gm →
   ∃ a q w1 w2 w3,
     method_factory_parse_wkt wkt_grammar self str w = Ok (Object a) w1
     ∧ RGEO_GEOMETRY_DATA_PTR (Object a) w1 = Ok (Some q) w1
     ∧ destroy_geometry_func (Some q) w1 = Ok tt w2
     ∧ destroy_factory_func (Some p) w2 = Ok tt w3
     ∧ geoms (geos w3) = geoms (geos w)
     ∧ cmem w3 = delete p (cmem w)
     ∧ contexts (geos w3) = contexts (geos w) ∖ {[c]}
     ∧ helpers (geos w3) = released)
  ∧ (wkb_reader d = NULL → wkb_grammar text = Some gm →
     ∃ a q w1 w2 w3,
       method_factory_parse_wkb wkb_grammar self str w = Ok (Object a) w1
       ∧ RGEO_GEOMETRY_DATA_PTR (Object a) w1 = Ok (Some q) w1
       ∧ destroy_geometry_func (Some q) w1 = Ok tt w2
       ∧ destroy_factory_func (Some p) w2 = Ok tt w3
       ∧ geoms (geos w3) = geoms (geos w)
       ∧ cmem w3 = delete p (cmem w)
       ∧ contexts (geos w3) = contexts (geos w) ∖ {[c]}
       ∧ helpers (geos w3) = released).
Proof.
  intros Hf Hs H1 H2 H3 H4 Halloc released. split.
  - intros Er Eg.
    apply (parse_lifecycle WKTReader wkt_grammar wkt_reader set_wkt_reader
             E_WKTReader_create E_WKTReader_read c_str)
      with (g := g) (text := text) (gm := gm);
      try reflexivity; try done; auto.
  - intros Er Eg.
    apply (parse_lifecycle WKBReader wkb_grammar wkb_reader set_wkb_reader
             E_WKBReader_create E_WKBReader_read (λ s, s))
      with (g := g) (text := text) (gm := gm);
      try reflexivity; try done; auto.
Qed.

Section ParseGeometries.

Context (kind : helper_kind) (grammar : string → option geometry)
  (reader_of : RGeo_FactoryData → pointer)
  (set_reader : pointer → RGeo_FactoryData → RGeo_FactoryData)
  (create_ev : pointer → pointer → event)
  (read_ev : pointer → pointer → string → pointer → event)
  (input_of : string → string).

Hypothesis reader_of_set : ∀ r d, reader_of (set_reader r d) = r.
Hypothesis context_set :
  ∀ r d, f_geos_context (set_reader r d) = f_geos_context d.
Hypothesis globals_set : ∀ r d, globals (set_reader r d) = globals d.
Hypothesis create_ev_create : ∀ c r, is_reader_create (create_ev c r) = true.
Hypothesis read_ev_no_create :
  ∀ c r s gh, is_reader_create (read_ev c r s gh) = false.

Abbreviation parse_g :=
  (parse_with_reader kind grammar reader_of set_reader create_ev read_ev
     input_of).

(** The geometries after a parse: those from before, and at most one new
    one, which is the geometry read when the engine parsed the input; it
    has no owner when the wrap that follows raises. *)
Lemma parse_geometries w self str p d c g text :
  factory_ready w self p d c g →
  helper_ok w kind (reader_of d) →
  is_string w str text →
  ∃ w',
    ends_in (parse_g self str w) w'
    ∧ geoms (geos w) ⊆ geoms (geos w')
    ∧ (∀ r gm, reader_of d = Some r →
         grammar (input_of text) = Some gm → next_fate w = false →
         parse_g self str w = Raise "NoMemoryError" w'
         ∧ objs w' = objs w
         ∧ ∃ h, geoms (geos w) !! h = None
                ∧ geoms (geos w') = <[h := gm]> (geoms (geos w))).
Proof.
  intros Hf Hh Hs.
  rewrite (parse_run kind grammar reader_of set_reader create_ev read_ev
             input_of w self str p d c g text Hf Hh Hs).
  pose proof (settled_facts kind reader_of set_reader create_ev
                reader_of_set context_set globals_set create_ev_create
                w self p d c g Hf Hh) as Hsettled.
  destruct (settled kind reader_of set_reader create_ev w p c d)
    as [r w1]. cbn [fst snd] in Hsettled.
  destruct Hsettled as (Hf1 & _ & _ & Eo1 & Eg1 & _ & Hold & _).
  destruct r as [rr|]; cbn [non_null].
  2:{ exists w1. split; [left; exists Qnil; reflexivity|].
      split; [by rewrite Eg1|].
      intros r gm Er. destruct (Hold r Er) as [[=] _]. }
  pose proof (after_read_facts grammar read_ev read_ev_no_create
                w1 self p _ c g (Some rr) (input_of text) Hf1) as Hread.
  unfold after_read in *.
  destruct (grammar (input_of text)) as [gm|] eqn:Egr; cbn [fst snd] in *.
  2:{ exists (log (read_ev (Some c) (Some rr) (input_of text) NULL) w1).
      split; [left; exists Qnil; reflexivity|].
      split; [cbn; by rewrite Eg1|].
      intros r gm' _ [=]. }
  set (h := fresh (dom (geoms (geos w1)))) in *.
  set (w2 := log (read_ev (Some c) (Some rr) (input_of text) (Some h))
               (set_geos (set_geoms <[h := gm]>) w1)) in *.
  destruct Hread as (Hf2 & Eo2 & _ & Ef2 & _ & _ & _ & _).
  assert (Hfresh : geoms (geos w) !! h = None)
    by (rewrite <- Eg1; apply not_elem_of_dom, is_fresh).
  assert (Hh2 : geoms (geos w2) !! h = Some gm) by apply lookup_insert_eq.
  assert (Eg2 : geoms (geos w2) = <[h := gm]> (geoms (geos w)))
    by (cbn; by rewrite Eg1).
  cbn [non_null].
  destruct (next_fate w2) eqn:Hfate2.
  - destruct (wrap_run w2 self p _ c g Qnil T_NIL h gm Hf2 eq_refl Hh2
                Hfate2)
      as (a & q & w' & E & _ & _ & _ & _ & Egm & _).
    exists w'. split; [left; exists (Object a); exact E|].
    split.
    { rewrite Egm, Eg2, insert_insert_eq. by apply insert_subseteq. }
    intros r gm' Er _ Hfate. destruct (Hold r Er) as [_ ->].
    unfold next_fate in Hfate, Hfate2. rewrite Ef2 in Hfate2. congruence.
  - destruct (wrap_fail_run w2 self p _ c g Qnil T_NIL h gm Hf2 eq_refl Hh2
                Hfate2)
      as (w' & E & Eo & _ & Eg & _).
    exists w'. split; [right; exact E|].
    split; [rewrite Eg, Eg2; by apply insert_subseteq|].
    intros r gm' Er [= <-] _. split; [exact E|].
    split; [by rewrite Eo, Eo2, Eo1|].
    exists h. split; [exact Hfresh|]. by rewrite Eg.
Qed.

End ParseGeometries.

(** X20. Parsing never faults and never touches a geometry that exists:
    on a ready factory both parse methods return a value or end in the
    [NoMemoryError] of the wrap's [ALLOC], and either way every geometry
    alive before the call is alive and unchanged after it, whatever the
    input. *)
Theorem parse_keeps_geometries
    (wkt_grammar wkb_grammar : string → option geometry)
    w self str p d c g text :
  factory_ready w self p d c g →
  is_string w str text →
  (helper_ok w WKTReader (wkt_reader d) →
   ∃ w', ends_in (method_factory_parse_wkt wkt_grammar self str w) w'
         ∧ geoms (geos w) ⊆ geoms (geos w'))
  ∧ (helper_ok w WKBReader (wkb_reader d) →
     ∃ w', ends_in (method_factory_parse_wkb wkb_grammar self str w) w'
           ∧ geoms (geos w) ⊆ geoms (geos w')).
Proof.
  intros Hf Hs. split; intros Hh.
  - destruct (parse_geometries WKTReader wkt_grammar wkt_reader
                set_wkt_reader E_WKTReader_create E_WKTReader_read c_str
                ltac:(reflexivity) ltac:(reflexivity) ltac:(reflexivity)
                ltac:(reflexivity) ltac:(reflexivity)
                w self str p d c g text Hf Hh Hs)
      as (w' & E & Hsub & _).
    exists w'. split; [exact E | exact Hsub].
  - destruct (parse_geometries WKBReader wkb_grammar wkb_reader
                set_wkb_reader E_WKBReader_create E_WKBReader_read (λ s, s)
                ltac:(reflexivity) ltac:(reflexivity) ltac:(reflexivity)
                ltac:(reflexivity) ltac:(reflexivity)
                w self str p d c g text Hf Hh Hs)
      as (w' & E & Hsub & _).
    exists w'. split; [exact E | exact Hsub].
Qed.

(** X21. When the engine parses the input but the wrapper's storage cannot
    be allocated, [method_factory_parse_wkt] ends in [NoMemoryError] and
    creates no object, yet the geometry it has read stays alive in the
    engine: no wrapper owns it and the method does not destroy it. *)
Theorem parse_wkt_keeps_geometry_on_failed_allocation
    (wkt_grammar : string → option geometry)
    w self str p d c g text r gm :
  factory_ready w self p d c g →
  is_string w str text →
  wkt_reader d = Some r →
  helpers (geos w) !! r = Some WKTReader →
  wkt_grammar (c_str text) = Some gm →
  next_fate w = false →
  ∃ h w',
    method_factory_parse_wkt wkt_grammar self str w
    = Raise "NoMemoryError" w'
    ∧ objs w' = objs w
    ∧ geoms (geos w) !! h = None
    ∧ geoms (geos w') = <[h := gm]> (geoms (geos w)).
Proof.
  intros Hf Hs Er Hr Eg Hfate.
  destruct (parse_geometries WKTReader wkt_grammar wkt_reader
              set_wkt_reader E_WKTReader_create E_WKTReader_read c_str
              ltac:(reflexivity) ltac:(reflexivity) ltac:(reflexivity)
              ltac:(reflexivity) ltac:(reflexivity)
              w self str p d c g text Hf)
    as (w' & _ & _ & Hleak); [by rewrite Er|exact Hs|].
  destruct (Hleak r gm Er Eg Hfate) as (E & Eo & h & Hh & Egm).
  exists h, w'. split; [exact E|]. done.
Qed.

(** ** The further properties at work in the small world *)

Lemma demo_fresh_factory_ready :
  factory_ready demo_world (Object 4) 4 demo_fresh_factory_data 1
    demo_globals.
Proof.
  split; [|split; [reflexivity|split]].
  - exists 4%positive, (Object 1), FP_NULL, FP_destroy_factory_func.
    repeat split; vm_compute; reflexivity.
  - vm_compute. reflexivity.
  - exists 1%positive. split; vm_compute; reflexivity.
Defined.

Lemma demo_string_30 : is_string demo_world (Object 30) "POINT (1 2)".
Proof.
  exists 30%positive, (BuiltinClass T_STRING).
  split; vm_compute; reflexivity.
Defined.

Lemma demo_wrappers_ok : wrappers_ok demo_world.
Proof.
  intros a k m p Ha. apply elem_of_map_to_list in Ha.
  set (l := map_to_list (objs demo_world)) in Ha. vm_compute in l.
  subst l.
  repeat (apply elem_of_cons in Ha as [Ha|Ha];
          [try discriminate Ha|]).
  - injection Ha as -> _ _ ->.
    exists 3%positive,
      {| geom := Some 1%positive; geos_context := Some 1%positive;
         factory := Object 3; klasses := Qnil |}.
    split; vm_compute; reflexivity.
  - apply elem_of_nil in Ha. destruct Ha.
Defined.

Lemma coordseqs_eql_true_transitive_witness :
  rgeo_geos_coordseqs_eql demo_geos (Some 1%positive)
    (Some 1%positive) (Some 1%positive) false = Qtrue.
Proof.
  apply (coordseqs_eql_true_transitive demo_geos (Some 1%positive)
           (Some 1%positive) (Some 3%positive) (Some 1%positive) false);
    vm_compute; reflexivity.
Defined.

Lemma wrap_then_destroy_releases_witness :
  ∃ a q w1 w2,
    rgeo_wrap_geos_geometry (Object 3) (Some 1%positive) (Object 11)
      demo_world = Ok (Object a) w1
    ∧ destroy_geometry_func (Some q) w1 = Ok tt w2
    ∧ cmem w2 = cmem demo_world
    ∧ geoms (geos w2) !! 1%positive = None.
Proof.
  destruct (wrap_then_destroy_releases demo_world (Object 3) 2
              demo_factory_data 1 demo_globals (Object 11) T_CLASS 1
              demo_point demo_factory_ready eq_refl eq_refl eq_refl)
    as (a & q & w1 & w2 & E & _ & E2 & Em & Eg & _).
  exists a, q, w1, w2. split; [exact E|]. split; [exact E2|].
  split; [exact Em|]. rewrite Eg. apply lookup_delete_eq.
Defined.

Lemma detach_then_destroy_keeps_geometry_witness :
  ∃ r w' w'',
    rgeo_convert_to_detached_geos_geometry demo_funcall
      (Object 5) (Object 3) Qnil None demo_world
    = Ok (Some 1%positive, r) w'
    ∧ destroy_geometry_func (Some 3%positive) w' = Ok tt w''
    ∧ geoms (geos w'') !! 1%positive = Some demo_point.
Proof.
  destruct (detach_then_destroy_keeps_geometry demo_funcall
              demo_world demo_world (Object 5) (Object 3) Qnil None
              2 demo_factory_data 1 demo_globals
              5 (Object 11) FP_mark_geometry_func FP_destroy_geometry_func
              3 {| geom := Some 1%positive; geos_context := Some 1%positive;
                   factory := Object 3; klasses := Qnil |})
    as (r & w' & w'' & E & E2 & Eg & _);
    try (vm_compute; reflexivity).
  { destruct demo_factory_ready as (H & _). exact H. }
  exists r, w', w''. split; [exact E|]. split; [exact E2|].
  rewrite Eg. vm_compute. reflexivity.
Defined.

Lemma detached_wrapper_is_empty_witness :
  ∃ r w',
    rgeo_convert_to_detached_geos_geometry demo_funcall
      (Object 5) (Object 3) Qnil None demo_world
    = Ok (Some 1%positive, r) w'
    ∧ rgeo_is_geos_object (Object 5) w' = Ok 1 w'
    ∧ rgeo_get_geos_geometry_safe (Object 5) w' = Ok NULL w'.
Proof.
  destruct (detached_wrapper_is_empty demo_funcall
              demo_world demo_world (Object 5) (Object 3) Qnil None
              2 demo_factory_data 1 demo_globals
              5 (Object 11) FP_mark_geometry_func
              3 {| geom := Some 1%positive; geos_context := Some 1%positive;
                   factory := Object 3; klasses := Qnil |})
    as (r & w' & E & E1 & E2 & _);
    try (vm_compute; reflexivity).
  { destruct demo_factory_ready as (H & _). exact H. }
  exists r, w'. split; [exact E|]. split; [exact E1|exact E2].
Defined.

Lemma wrap_then_unwrap_witness :
  ∃ a w',
    rgeo_wrap_geos_geometry (Object 3) (Some 1%positive) (Object 11)
      demo_world = Ok (Object a) w'
    ∧ rgeo_convert_to_geos_geometry demo_funcall (Object 3) (Object a)
        Qnil w' = Ok (Some 1%positive) w'.
Proof.
  destruct (wrap_then_unwrap demo_funcall demo_world (Object 3) 2
              demo_factory_data 1 demo_globals (Object 11) T_CLASS 1
              demo_point demo_factory_ready eq_refl eq_refl eq_refl)
    as (a & q & marked & w' & E & _ & _ & E3 & _).
  exists a, w'. split; [exact E|exact E3].
Defined.

Lemma recognisers_are_safe_witness :
  ∃ b hp,
    rgeo_is_geos_object (Object 5) demo_world = Ok b demo_world
    ∧ rgeo_get_geos_geometry_safe (Object 5) demo_world = Ok hp demo_world.
Proof.
  destruct (recognisers_are_safe demo_world (Object 5) demo_wrappers_ok)
    as (b & hp & E1 & E2 & _).
  { eexists. vm_compute. reflexivity. }
  exists b, hp. split; [exact E1|exact E2].
Defined.

Lemma wrap_keeps_wrappers_ok_witness :
  ∃ v w',
    rgeo_wrap_geos_geometry (Object 3) (Some 1%positive) (Object 11)
      demo_world = Ok v w'
    ∧ wrappers_ok w'.
Proof.
  destruct (wrap_run demo_world (Object 3) 2 demo_factory_data 1
              demo_globals (Object 11) T_CLASS 1 demo_point
              demo_factory_ready eq_refl eq_refl eq_refl)
    as (a & q & w1 & E & _).
  exists (Object a), w1. split; [exact E|].
  exact (wrap_keeps_wrappers_ok demo_world (Object 3) (Some 1%positive)
           (Object 11) (Object a) w1 E demo_wrappers_ok).
Defined.

Lemma unwrap_delegates_witness :
  rgeo_convert_to_geos_geometry demo_funcall (Object 3) (Object 5)
    (Object 11) demo_world
  = Ok (Some 1%positive) demo_world.
Proof.
  refine (proj2 (unwrap_delegates demo_funcall demo_world demo_world
                   (Object 3) (Object 5) (Object 11) 2 demo_factory_data
                   1 demo_globals (Object 5) _ _ _ _ _)
            3%positive
            {| geom := Some 1%positive; geos_context := Some 1%positive;
               factory := Object 3; klasses := Qnil |} _ _);
    try (vm_compute; reflexivity).
  - destruct demo_factory_ready as (H & _). exact H.
  - left. discriminate.
  - exists 5%positive, (Object 11), FP_mark_geometry_func,
      FP_destroy_geometry_func.
    split; vm_compute; reflexivity.
Defined.

Lemma klasses_and_factories_eql_gate_witness :
  rgeo_geos_klasses_and_factories_eql demo_funcall (Object 5) (Object 3)
    demo_world
  = Ok Qfalse demo_world.
Proof.
  refine (proj1 (klasses_and_factories_eql_gate demo_funcall demo_world
                   (Object 5) (Object 3) (Object 11) (Object 1) _ _) _);
    try (vm_compute; reflexivity).
  discriminate.
Defined.

Lemma wrap_clone_leaves_original_witness :
  ∃ a h' w',
    rgeo_wrap_geos_geometry_clone (Object 3) (Some 1%positive) (Object 11)
      demo_world = Ok (Object a) w'
    ∧ h' ≠ 1%positive
    ∧ geoms (geos w') !! 1%positive = Some demo_point
    ∧ rgeo_get_geos_geometry_safe (Object a) w' = Ok (Some h') w'.
Proof.
  destruct (wrap_clone_leaves_original demo_world (Object 3) 2
              demo_factory_data 1 demo_globals (Object 11) T_CLASS 1
              demo_point demo_factory_ready eq_refl eq_refl)
    as (_ & _ & H & _).
  destruct H as (a & h' & w' & E & Hne & _ & Ho & _ & Es).
  { apply Forall_nil. constructor. }
  exists a, h', w'. repeat split; assumption.
Defined.

Lemma create_then_destroy_leaves_nothing_witness :
  ∃ self p w1 w2,
    cmethod_factory_create demo_to_integer (Object 1) (Integer 0)
      (Integer 4326) (Integer 8) demo_world = Ok self w1
    ∧ destroy_factory_func (Some p) w1 = Ok tt w2
    ∧ cmem w2 = cmem demo_world
    ∧ contexts (geos w2) = contexts (geos demo_world).
Proof.
  destruct (create_then_destroy_leaves_nothing demo_to_integer demo_world
              (Object 1) 1 (BuiltinClass T_CLASS)
              {[ "INTERNAL_CGLOBALS" := Object 2 ]}
              (Object 2) (Some 1%positive) 0 4326 8)
    as (self & p & c & w1 & w2 & E & _ & E2 & Em & Ec & _);
    try reflexivity; try (unfold INT_MIN, INT_MAX; lia).
  { exists 2%positive, (BuiltinClass T_OBJECT), FP_mark_globals_func,
      FP_destroy_globals_func.
    split; reflexivity. }
  { apply Forall_nil. constructor. }
  exists self, p, w1, w2. repeat split; assumption.
Defined.

Lemma create_raise_keeps_allocations_witness :
  ∃ exc p w',
    cmethod_factory_create demo_to_integer (Object 1) (Integer (2 ^ 31))
      (Integer 4326) (Integer 8) demo_world = Raise exc w'
    ∧ cmem demo_world !! p = None
    ∧ cmem w' !! p = Some CRaw.
Proof.
  destruct (create_raise_keeps_allocations demo_to_integer demo_world
              (Object 1) 1
              (BuiltinClass T_CLASS) {[ "INTERNAL_CGLOBALS" := Object 2 ]}
              (Object 2) (Some 1%positive) (Integer (2 ^ 31))
              (Integer 4326) (Integer 8))
    as (exc & p & c & w' & E & E1 & E2 & _);
    try reflexivity.
  { exists 2%positive, (BuiltinClass T_OBJECT), FP_mark_globals_func,
      FP_destroy_globals_func.
    split; reflexivity. }
  { right. left. exists (2 ^ 31). split; [reflexivity|].
    unfold INT_MIN, INT_MAX. lia. }
  { apply Forall_nil. constructor. }
  exists exc, p, w'. repeat split; assumption.
Defined.

Lemma parse_rejects_non_string_witness :
  method_factory_parse_wkt demo_wkt_grammar (Object 3) (Object 32)
    demo_world
  = Raise "TypeError" demo_world.
Proof.
  refine (proj1 (parse_rejects_non_string demo_wkt_grammar demo_wkb_grammar
                   demo_world (Object 3) (Object 32) T_ARRAY _ _)).
  - reflexivity.
  - discriminate.
Defined.

Lemma demo_factory_ready_nul :
  factory_ready demo_world_nul (Object 3) 2 demo_factory_data 1
    demo_globals.
Proof.
  split; [|split; [reflexivity|split]].
  - exists 3%positive, (Object 1), FP_NULL, FP_destroy_factory_func.
    repeat split; vm_compute; reflexivity.
  - vm_compute. reflexivity.
  - exists 1%positive. split; vm_compute; reflexivity.
Defined.

Lemma parse_wkt_stops_at_zero_byte_witness :
  method_factory_parse_wkt demo_wkt_grammar (Object 3) (Object 30)
    demo_world_nul
  = method_factory_parse_wkt demo_wkt_grammar (Object 3) (Object 40)
      demo_world_nul.
Proof.
  apply (parse_wkt_stops_at_zero_byte demo_wkt_grammar demo_world_nul
           (Object 3) 2 demo_factory_data 1 demo_globals
           (Object 30) "POINT (1 2)"
           (Object 40) ("POINT (1 2)" +:+ String Ascii.zero "junk")
           demo_factory_ready_nul).
  - vm_compute. reflexivity.
  - exists 30%positive, (BuiltinClass T_STRING).
    split; vm_compute; reflexivity.
  - exists 40%positive, (BuiltinClass T_STRING).
    split; vm_compute; reflexivity.
  - vm_compute. reflexivity.
Defined.

Lemma coordseqs_eql_with_z_implies_without_witness :
  rgeo_geos_coordseqs_eql demo_geos_3d (Some 1%positive)
    (Some 1%positive) (Some 2%positive) false = Qtrue.
Proof.
  apply (coordseqs_eql_with_z_implies_without demo_geos_3d
           (Some 1%positive) (Some 1%positive) (Some 2%positive)).
  vm_compute. reflexivity.
Defined.

Lemma wrap_needs_factory_for_handle_witness :
  rgeo_wrap_geos_geometry Qnil (Some 1%positive) (Object 11) demo_world
  = Fault.
Proof.
  apply (wrap_needs_factory_for_handle demo_world 1 (Object 11) T_CLASS).
  - reflexivity.
  - right. reflexivity.
Defined.

Lemma parse_then_destroy_leaves_nothing_witness :
  ∃ a q w1 w2 w3,
    method_factory_parse_wkt demo_wkt_grammar (Object 4) (Object 30)
      demo_world = Ok (Object a) w1
    ∧ destroy_geometry_func (Some q) w1 = Ok tt w2
    ∧ destroy_factory_func (Some 4%positive) w2 = Ok tt w3
    ∧ geoms (geos w3) = geoms (geos demo_world)
    ∧ cmem w3 = delete 4%positive (cmem demo_world).
Proof.
  destruct (parse_then_destroy_leaves_nothing demo_wkt_grammar
              demo_wkb_grammar demo_world (Object 4) (Object 30) 4
              demo_fresh_factory_data 1 demo_globals "POINT (1 2)"
              demo_point demo_fresh_factory_ready demo_string_30
              I I I I) as (H & _).
  { apply Forall_nil. constructor. }
  destruct H as (a & q & w1 & w2 & w3 & E & _ & E2 & E3 & Eg & Em & _);
    try reflexivity.
  exists a, q, w1, w2, w3. repeat split; assumption.
Defined.

Lemma parse_keeps_geometries_witness :
  ∃ w',
    ends_in (method_factory_parse_wkt demo_wkt_grammar (Object 3)
               (Object 30) demo_world) w'
    ∧ geoms (geos demo_world) ⊆ geoms (geos w').
Proof.
  destruct (parse_keeps_geometries demo_wkt_grammar demo_wkb_grammar
              demo_world (Object 3) (Object 30) 2 demo_factory_data 1
              demo_globals "POINT (1 2)" demo_factory_ready
              demo_string_30) as (H & _).
  apply H. vm_compute. reflexivity.
Defined.

Lemma parse_wkt_keeps_geometry_on_failed_allocation_witness :
  ∃ h w',
    method_factory_parse_wkt demo_wkt_grammar (Object 3) (Object 30)
      demo_world_oom = Raise "NoMemoryError" w'
    ∧ geoms (geos demo_world_oom) !! h = None
    ∧ geoms (geos w') = <[h := demo_point]> (geoms (geos demo_world_oom)).
Proof.
  destruct (parse_wkt_keeps_geometry_on_failed_allocation demo_wkt_grammar
              demo_world_oom (Object 3) (Object 30) 2 demo_factory_data 1
              demo_globals "POINT (1 2)" 1 demo_point
              demo_factory_ready_oom demo_string_30)
    as (h & w' & E & _ & Hh & Eg); try reflexivity.
  exists h, w'. repeat split; assumption.
Defined.

Lemma create_failure_keeps_nothing_witness :
  cmethod_factory_create demo_to_integer (Object 1) (Integer 0)
    (Integer 4326) (Integer 8) demo_world_oom
  = Raise "NoMemoryError" demo_world.
Proof.
  apply (proj1 (create_failure_keeps_nothing demo_to_integer
                  demo_world_oom (Object 1)
                  (Integer 0) (Integer 4326) (Integer 8))).
  reflexivity.
Defined.
